(** * The Slack message handler (src/handlers/messageHandler.js)

    A shallow embedding of [handleSlackMessageEventInternal] and of its helper
    [updateOrDeleteThinkingMessage].  One run of the handler is a computation
    in a monad that threads the state of the outside world (Slack, the
    AnythingLLM backend, the mapping store, the command executors), may throw,
    and writes the trace of everything the handler does: every call of an
    imported service with its outcome, every console line, every error that a
    [catch] clause receives.

    JavaScript strings are modelled as [string]: sequences of code units, here
    restricted to the code units 0..255 (Latin-1), on which [trim],
    [toLowerCase] and the character classes of the regular expressions are
    written out.  Numbers are IEEE doubles.  A thrown value is an object
    with a message. *)

From Stdlib Require Import String Ascii List Bool Arith Lia ZArith PrimFloat.
From Stdlib Require Import SpecFloat FloatOps.
Import ListNotations.
Local Open Scope string_scope.
Local Open Scope list_scope.
Local Open Scope nat_scope.

Set Implicit Arguments.

(** ** JavaScript strings *)

Module Js.

(** Truthiness of a string value: the empty string is falsy. *)
Definition truthy (s : string) : bool := negb (String.eqb s "").

(** Truthiness of a value that may be [undefined] / [null]. *)
Definition truthy_opt (o : option string) : bool :=
  match o with
  | Some s => truthy s
  | None => false
  end.

(** [a || b] on strings. *)
Definition or_else (a b : string) : string := if truthy a then a else b.

(** [a || b] where [a] may be undefined. *)
Definition opt_or_else (a : option string) (b : string) : string :=
  match a with
  | Some s => or_else s b
  | None => b
  end.

Definition code (c : ascii) : nat := nat_of_ascii c.

(** WhiteSpace and LineTerminator code units below 256: TAB, LF, VT, FF, CR,
    SP and NBSP. [String.prototype.trim] strips them and [\s] matches them. *)
Definition isWhiteSpace (c : ascii) : bool :=
  let n := code c in
  ((9 <=? n) && (n <=? 13)) || (n =? 32) || (n =? 160).

Definition isDigit (c : ascii) : bool :=
  let n := code c in (48 <=? n) && (n <=? 57).

Definition isUpperAscii (c : ascii) : bool :=
  let n := code c in (65 <=? n) && (n <=? 90).

Definition isLowerAscii (c : ascii) : bool :=
  let n := code c in (97 <=? n) && (n <=? 122).

(** [\w] without the unicode flag: [A-Za-z0-9_]. *)
Definition isWordChar (c : ascii) : bool :=
  isUpperAscii c || isLowerAscii c || isDigit c || (code c =? 95).

(** [.] without the dotAll flag: anything but LF and CR. *)
Definition isNotLineTerminator (c : ascii) : bool :=
  negb ((code c =? 10) || (code c =? 13)).

(** Lower-casing of one code unit: A-Z, and the Latin-1 capitals U+00C0..U+00DE
    except the multiplication sign U+00D7. *)
Definition lowerChar (c : ascii) : ascii :=
  let n := code c in
  if ((65 <=? n) && (n <=? 90)) || ((192 <=? n) && (n <=? 222) && negb (n =? 215))
  then ascii_of_nat (n + 32) else c.

(** Canonicalize of the case-insensitive matcher (upper-casing of one code
    unit, where the result is again one code unit of the same range). The
    micro sign U+00B5 and U+00FF, whose capitals U+039C and U+0178 are above
    the strings of the model, stay as they are: among code units below 256
    nothing else is matched with them. *)
Definition canonChar (c : ascii) : ascii :=
  let n := code c in
  if ((97 <=? n) && (n <=? 122)) || ((224 <=? n) && (n <=? 254) && negb (n =? 247))
  then ascii_of_nat (n - 32) else c.

Fixpoint toLowerCase (s : string) : string :=
  match s with
  | EmptyString => EmptyString
  | String c s' => String (lowerChar c) (toLowerCase s')
  end.

Fixpoint trimStart (s : string) : string :=
  match s with
  | EmptyString => EmptyString
  | String c s' => if isWhiteSpace c then trimStart s' else s
  end.

Fixpoint trimEnd (s : string) : string :=
  match s with
  | EmptyString => EmptyString
  | String c s' =>
      match trimEnd s' with
      | EmptyString => if isWhiteSpace c then EmptyString else String c EmptyString
      | r => String c r
      end
  end.

Definition trim (s : string) : string := trimEnd (trimStart s).

(** [s.startsWith(p)] *)
Definition startsWith (s p : string) : bool := String.prefix p s.

Fixpoint skip (n : nat) (s : string) : string :=
  match n, s with
  | O, _ => s
  | S n', String _ s' => skip n' s'
  | S _, EmptyString => EmptyString
  end.

(** [s.includes(p)] *)
Fixpoint includes (s p : string) : bool :=
  startsWith s p ||
  match s with
  | EmptyString => false
  | String _ s' => includes s' p
  end.

(** [s.replace(p, r)] with a string pattern: the first occurrence only. *)
Fixpoint replaceFirst (s p r : string) : string :=
  if startsWith s p then r ++ skip (String.length p) s
  else match s with
       | EmptyString => EmptyString
       | String c s' => String c (replaceFirst s' p r)
       end.

(** [s.substring(0, n)] *)
Definition take (n : nat) (s : string) : string := String.substring 0 n s.

(** The Number value of an integer: the nearest IEEE double, ties to even,
    and infinity beyond the range of the doubles. *)
Definition toNumber (n : Z) : float :=
  SF2Prim (binary_normalize prec emax n 0 false).

(** [parseInt(s, 10)]: leading white space, an optional sign, then the longest
    run of decimal digits. [None] is NaN, which is the result exactly when
    there is no digit; otherwise the result is the Number value of the
    integer that the digits write, so a run of digits above 2^53 is rounded
    (the coarser approximation that the standard allows beyond 20
    significant digits is not taken). [digitsValue] is the integer. *)
Fixpoint digitsValue (s : string) (acc : Z) (seen : bool) : option Z :=
  match s with
  | String c s' =>
      if isDigit c
      then digitsValue s' (10 * acc + Z.of_nat (code c - 48))%Z true
      else if seen then Some acc else None
  | EmptyString => if seen then Some acc else None
  end.

Definition parseInt (s : string) : option float :=
  match trimStart s with
  | String "-"%char s' =>
      option_map (fun n => PrimFloat.opp (toNumber n)) (digitsValue s' 0%Z false)
  | String "+"%char s' => option_map toNumber (digitsValue s' 0%Z false)
  | s' => option_map toNumber (digitsValue s' 0%Z false)
  end.

End Js.

(** ** Regular expressions

    The fragment of ECMAScript regular expressions that the command patterns
    use, with the backtracking semantics of the language: a matcher takes the
    rest of the input, the captures so far and a continuation; alternatives
    are tried left to right and quantifiers are greedy. *)

Module Regex.

Inductive regex : Type :=
| Empty                                  (* the empty pattern *)
| Char (p : ascii -> bool)               (* one code unit of a class *)
| Seq (r1 r2 : regex)
| Alt (r1 r2 : regex)                    (* r1|r2 *)
| Star (r : regex)                       (* r*, greedy *)
| Group (name : string) (r : regex)      (* (?<name>r) *)
| Eos.                                   (* $ without the multiline flag *)

Definition Plus (r : regex) : regex := Seq r (Star r).      (* r+ *)
Definition Opt (r : regex) : regex := Alt r Empty.          (* r? *)

(** A literal code unit under the [i] flag. *)
Definition charCI (c : ascii) : regex :=
  Char (fun x => Ascii.eqb (Js.canonChar x) (Js.canonChar c)).

(** A literal code unit, case-sensitive. *)
Definition charCS (c : ascii) : regex := Char (Ascii.eqb c).

Fixpoint litCI (s : string) : regex :=
  match s with
  | EmptyString => Empty
  | String c s' => Seq (charCI c) (litCI s')
  end.

Fixpoint litCS (s : string) : regex :=
  match s with
  | EmptyString => Empty
  | String c s' => Seq (charCS c) (litCS s')
  end.

Fixpoint seqs (rs : list regex) : regex :=
  match rs with
  | [] => Empty
  | [r] => r
  | r :: rs' => Seq r (seqs rs')
  end.

(** Named captures, most recent first. *)
Definition Captures : Type := list (string * string).

Fixpoint group (name : string) (caps : Captures) : option string :=
  match caps with
  | [] => None
  | (n, v) :: caps' => if String.eqb n name then Some v else group name caps'
  end.

Section Matcher.

Variable R : Type.

Definition Cont : Type := string -> Captures -> option R.

(** Greedy iteration. An iteration that consumes nothing is rejected, so
    [String.length s] iterations are enough. *)
Fixpoint iterate (m : string -> Captures -> Cont -> option R)
    (fuel : nat) (s : string) (caps : Captures) (k : Cont) : option R :=
  match fuel with
  | O => k s caps
  | S fuel' =>
      match m s caps (fun s' caps' =>
                        if String.length s' <? String.length s
                        then iterate m fuel' s' caps' k else None) with
      | Some c => Some c
      | None => k s caps
      end
  end.

Fixpoint rmatch (r : regex) (s : string) (caps : Captures) (k : Cont)
  : option R :=
  match r with
  | Empty => k s caps
  | Char p =>
      match s with
      | String c s' => if p c then k s' caps else None
      | EmptyString => None
      end
  | Seq r1 r2 => rmatch r1 s caps (fun s' caps' => rmatch r2 s' caps' k)
  | Alt r1 r2 =>
      match rmatch r1 s caps k with
      | Some c => Some c
      | None => rmatch r2 s caps k
      end
  | Star r' => iterate (rmatch r') (String.length s) s caps k
  | Group name r' =>
      rmatch r' s caps
        (fun s' caps' =>
           k s' ((name, Js.take (String.length s - String.length s') s) :: caps'))
  | Eos =>
      match s with
      | EmptyString => k s caps
      | String _ _ => None
      end
  end.

End Matcher.

(** [s.match(r)] for a pattern that starts with [^]: only the match at index 0
    can succeed. The result is [match.groups], or [None] for [null]. *)
Definition matchAnchored (r : regex) (s : string) : option Captures :=
  rmatch r s [] (fun _ caps => Some caps).

(** [s.replace(r, '')] for a pattern without flags: the leftmost match is
    removed. *)
Fixpoint removeFirstMatch (r : regex) (s : string) : string :=
  match rmatch r s [] (fun s' _ => Some s') with
  | Some s' => s'
  | None =>
      match s with
      | EmptyString => EmptyString
      | String c s' => String c (removeFirstMatch r s')
      end
  end.

End Regex.

(** ** Configuration, events and messages *)

(** The bindings imported from [../config.js]. A string that is not
    configured is the empty string (falsy). *)
Record Config : Type := {
  botUserId : string;
  githubWorkspaceSlug : string;
  formatterWorkspaceSlug : string;
  MIN_SUBSTANTIVE_RESPONSE_LENGTH : nat;
  GITHUB_OWNER : string;
  githubToken : string;
  COMMAND_PREFIX : string;
  WORKSPACE_OVERRIDE_COMMAND_PREFIX : string;
  intentRoutingEnabled : bool;
  intentConfidenceThreshold : float
}.

(** The Slack event object: [{ user, text, channel, ts, thread_ts }]. [text]
    and [thread_ts] are [None] when the event has no such property; a [text]
    that is [null] or not a string, on which line 101 throws, is not in the
    model. *)
Record SlackEvent : Type := {
  user : string;
  text : option string;
  channel : string;
  ts : string;
  thread_ts : option string
}.

(** A thrown value that is an object: [error.data?.error] and
    [error.message]. A call that rejects with [null] or [undefined] is not in
    the model; on such a value the [catch] clauses of lines 83, 129 and 421,
    which read [error.data] or [error.message] unguarded, throw a TypeError
    of their own. *)
Record Error : Type := {
  data_error : option string;
  message : string
}.

(** [new Error(msg)] *)
Definition newError (msg : string) : Error :=
  {| data_error := None; message := msg |}.

(** The error of evaluating an identifier that no scope binds. *)
Definition referenceError (name : string) : Error :=
  newError (name ++ " is not defined").

Definition opt_string_eqb (a b : option string) : bool :=
  match a, b with
  | Some x, Some y => String.eqb x y
  | None, None => true
  | _, _ => false
  end.

Definition error_eqb (a b : Error) : bool :=
  opt_string_eqb (data_error a) (data_error b) && String.eqb (message a) (message b).

(** A completion: a normal return or a throw. *)
Inductive Outcome (A : Type) : Type :=
| Returned (a : A)
| Threw (e : Error).
Arguments Returned {A} a.
Arguments Threw {A} e.

(** The row of the thread mapping table. *)
Record Mapping : Type := {
  anythingllm_workspace_slug : string;
  anythingllm_thread_slug : string
}.

(** The result of [detectIntentAndWorkspace]. *)
Record IntentResult : Type := {
  intent : option string;
  confidence : float;
  suggestedWorkspace : option string
}.

(** The texts the handler writes itself. The literals of the source are, in
    this order: ":hourglass_flowing_sand: Processing...", "GitHub commands
    disabled (GITHUB_TOKEN not configured).", "GitHub client failed to
    initialize (check token/config).", "Invalid format. Use: `gh> review pr
    owner/repo#number #workspace`", "Error setting up context for issue
    analysis: <message>", "Invalid issue number. Use format: ...", "Unknown
    command. Try ...", "Intent '<intent>' handler not implemented yet.",
    ":brain: Thinking in workspace `<slug>`...", "Oops! An error occurred:
    <message>", "_(I received an empty response. Please try rephrasing your
    query.)_" and "Was this response helpful?". [FromReply] is a text computed
    from the reply of the LLM. *)
Inductive Msg : Type :=
| MsgProcessing
| MsgGithubDisabled
| MsgGithubClientFailed
| MsgInvalidPrFormat
| MsgContextError (msg : string)
| MsgInvalidIssueNumber
| MsgUnknownCommand
| MsgIntentNotImplemented (intent : string)
| MsgThinkingIn (workspace : string)
| MsgOops (msg : string)
| MsgEmptyResponse
| MsgFeedbackPrompt
| FromReply (s : string).

(** A segment of [extractTextAndCode]: [{ type, content, language }]. *)
Inductive SegmentType : Type := SegText | SegCode.

Record Segment : Type := {
  seg_type : SegmentType;
  content : string;
  language : string
}.

(** The calls of the command executors of [./commandHandler.js], with the
    arguments the handler passes (the Slack and Octokit clients are passed
    through and left out). *)
Inductive Command : Type :=
| ReleaseInfo (repo_id replyTarget thinkingMessageTs channelId : string)
| PrReview (owner repo : string) (prNum : float)
    (workspace_slug replyTarget channelId thinkingMessageTs : string)
| IssueAnalysis (owner repo : string) (issueNum : float) (user_prompt : option string)
    (replyTarget channelId thinkingMessageTs llmWs llmThread : string)
| GithubApi (api_query replyTarget channelId thinkingMessageTs
    githubWorkspaceSlug formatterWorkspaceSlug : string).

Inductive Level : Type := Info | Warn | Err.

(** The [catch] clauses of the file, by the line they start on. *)
Inductive CatchSite : Type :=
| CatchThinkingMessage    (* line 81, updateOrDeleteThinkingMessage *)
| CatchInitialPost        (* line 128 *)
| CatchIssueContext       (* line 213 *)
| CatchSegmentPost        (* line 392 *)
| CatchSegmentRetry       (* line 394, the retry without blocks *)
| CatchFeedback           (* line 413 *)
| CatchFallbackPath       (* line 418 *)
| CatchErrorNotice.       (* line 424, .catch(()=>{}) *)

Section Model.

(** The rich text block of [markdownToRichTextBlock] and the state of
    everything outside the handler. *)
Context {Block World : Type}.

(** The [blocks] of a message: one rich text block, or the feedback blocks (a
    divider and an actions block with the buttons' [value] and [action_id]). *)
Inductive Blocks : Type :=
| RichText (block : Block)
| FeedbackBlock (block_id : string) (buttons : list (string * string)).

(** The argument of [slack.chat.postMessage]. *)
Record PostArgs : Type := {
  pm_channel : string;
  pm_thread_ts : string;
  pm_text : Msg;
  pm_blocks : option Blocks
}.

(** One entry of the trace of a run. *)
Inductive Event : Type :=
| Log (lvl : Level) (line : string) (err : option Error)
| Caught (site : CatchSite) (e : Error)
| Delay (ms : nat)
| EvPostMessage (args : PostArgs) (r : Outcome (option string))
| EvChatUpdate (channel ts : string) (text : Msg) (r : Outcome unit)
| EvChatDelete (channel ts : string) (r : Outcome unit)
| EvDeleteLast (channel replyTarget botUser : string) (r : Outcome unit)
| EvCommand (c : Command) (r : Outcome bool)
| EvGetMapping (channel replyTarget : string) (r : Outcome (option Mapping))
| EvStoreMapping (channel replyTarget workspace thread : string) (r : Outcome unit)
| EvCreateThread (workspace : string) (r : Outcome string)
| EvDetermineWorkspace (suggested : option string) (userId channelId : string)
    (r : Outcome string)
| EvDetectIntent (query : string) (r : Outcome IntentResult)
| EvQueryLlm (workspace thread input : string) (r : Outcome (option string)).

Definition Trace : Type := list Event.

(** The imported services, each a transition of the outside world. A result
    that may be null or undefined is the empty string where only its
    truthiness is used; [chat_postMessage] gives [res?.ts]; [queryLlm] gives
    [None] for a reply that is not a string; a command executor gives the
    truthiness of what it returns. *)
Record Services : Type := {
  chat_postMessage : PostArgs -> World -> Outcome (option string) * World;
  chat_update : string -> string -> Msg -> World -> Outcome unit * World;
  chat_delete : string -> string -> World -> Outcome unit * World;
  handleDeleteLastMessageCommand :
    string -> string -> string -> World -> Outcome unit * World;
  runCommand : Command -> World -> Outcome bool * World;
  getAnythingLLMThreadMapping :
    string -> string -> World -> Outcome (option Mapping) * World;
  storeAnythingLLMThreadMapping :
    string -> string -> string -> string -> World -> Outcome unit * World;
  createNewAnythingLLMThread : string -> World -> Outcome string * World;
  determineWorkspace :
    option string -> string -> string -> World -> Outcome string * World;
  detectIntentAndWorkspace : string -> World -> Outcome IntentResult * World;
  queryLlm : string -> string -> string -> World -> Outcome (option string) * World
}.

(** The utilities of [../utils/formattingService.js]. *)
Record Formatting : Type := {
  markdownToRichTextBlock : string -> option Block;
  extractTextAndCode : string -> list Segment
}.

(** *** The monad of the handler

    The state is the outside world and the handler's variable
    [thinkingMessageTs] (the empty string for [null]), which the [catch] and
    [finally] clauses of the fallback path read after the body assigned it. *)
Record State : Type := {
  world : World;
  thinkingTs : string
}.

Definition M (A : Type) : Type := State -> Outcome A * State * Trace.

Definition ret {A} (a : A) : M A := fun st => (Returned a, st, []).

Definition bind {A B} (m : M A) (f : A -> M B) : M B :=
  fun st =>
    match m st with
    | (Returned a, st1, t1) =>
        match f a st1 with
        | (r, st2, t2) => (r, st2, t1 ++ t2)
        end
    | (Threw e, st1, t1) => (Threw e, st1, t1)
    end.

Definition throw {A} (e : Error) : M A := fun st => (Threw e, st, []).

Definition emit (ev : Event) : M unit := fun st => (Returned tt, st, [ev]).

(** [console.log], [console.warn], [console.error] *)
Definition log (lvl : Level) (line : string) : M unit := emit (Log lvl line None).
Definition logError (lvl : Level) (line : string) (e : Error) : M unit :=
  emit (Log lvl line (Some e)).

(** [await] of a service: the world moves and the call is written down. *)
Definition call {A} (svc : World -> Outcome A * World) (ev : Outcome A -> Event)
  : M A :=
  fun st =>
    match svc (world st) with
    | (r, w) => (r, {| world := w; thinkingTs := thinkingTs st |}, [ev r])
    end.

Definition getThinkingTs : M string := fun st => (Returned (thinkingTs st), st, []).

Definition setThinkingTs (v : string) : M unit :=
  fun st => (Returned tt, {| world := world st; thinkingTs := v |}, []).

(** [try { body } catch (e) { handler e }] *)
Definition tryCatch {A} (site : CatchSite) (body : M A) (handler : Error -> M A)
  : M A :=
  fun st =>
    match body st with
    | (Returned a, st1, t1) => (Returned a, st1, t1)
    | (Threw e, st1, t1) =>
        match handler e st1 with
        | (r, st2, t2) => (r, st2, t1 ++ Caught site e :: t2)
        end
    end.

(** [try { body } finally { cleanup }] *)
Definition tryFinally {A} (body : M A) (cleanup : M unit) : M A :=
  fun st =>
    match body st with
    | (r, st1, t1) =>
        match cleanup st1 with
        | (Returned _, st2, t2) => (r, st2, t1 ++ t2)
        | (Threw e, st2, t2) => (Threw e, st2, t1 ++ t2)
        end
    end.

(** The three components of one run of a computation. *)
Definition outcomeOf {A} (m : M A) (st : State) : Outcome A := fst (fst (m st)).
Definition stateOf {A} (m : M A) (st : State) : State := snd (fst (m st)).
Definition traceOf {A} (m : M A) (st : State) : Trace := snd (m st).

(** Every event a computation writes, from any state, passes the test. *)
Definition emits {A} (ok : Event -> bool) (m : M A) : Prop :=
  forall st, forallb ok (traceOf m st) = true.

End Model.

Arguments Blocks : clear implicits.
Arguments PostArgs : clear implicits.
Arguments Event : clear implicits.
Arguments Trace : clear implicits.
Arguments Services : clear implicits.
Arguments Formatting : clear implicits.
Arguments State : clear implicits.
Arguments M : clear implicits.

Declare Scope handler_scope.
Delimit Scope handler_scope with handler.
Notation "x <- m ;; k" := (bind m (fun x => k))
  (at level 61, m at next level, right associativity) : handler_scope.
Notation "m ;; k" := (bind m (fun _ => k))
  (at level 61, right associativity) : handler_scope.

(** ** The command patterns (lines 48-54) *)

Module Patterns.
Import Regex.

Definition ws : regex := Char Js.isWhiteSpace.                        (* \s *)
Definition digit : regex := Char Js.isDigit.                          (* \d *)
Definition dot : regex := Char Js.isNotLineTerminator.                (* . *)
Definition wordDotDash : regex :=                                     (* [\w.-] *)
  Char (fun c => Js.isWordChar c || Ascii.eqb c "." || Ascii.eqb c "-").
Definition wordDash : regex :=                                        (* [\w-] *)
  Char (fun c => Js.isWordChar c || Ascii.eqb c "-").
Definition notSpace : regex := Char (fun c => negb (Js.isWhiteSpace c)). (* \S *)

(** [CMD_PREFIX]: every metacharacter of the prefix is escaped, so the prefix
    is matched code unit by code unit. *)
Definition CMD_PREFIX (cfg : Config) : regex := litCI (COMMAND_PREFIX cfg).

Definition RELEASE_REGEX (cfg : Config) : regex :=
  seqs [CMD_PREFIX cfg; Star ws; litCI "release"; Plus ws;
        Group "repo_id"
          (Seq (Plus wordDotDash) (Opt (Seq (charCI "/") (Plus wordDotDash))));
        Star ws; Eos].

Definition PR_REVIEW_REGEX (cfg : Config) : regex :=
  seqs [CMD_PREFIX cfg; Star ws; litCI "review"; Plus ws; litCI "pr"; Plus ws;
        Group "owner" (Plus wordDotDash); charCI "/";
        Group "repo" (Plus wordDotDash); charCI "#";
        Group "pr_number" (Plus digit); Plus ws; charCI "#";
        Group "workspace_slug" (Plus wordDash);
        Star ws; Eos].

Definition ISSUE_ANALYSIS_REGEX (cfg : Config) : regex :=
  seqs [CMD_PREFIX cfg; Star ws;
        Alt (litCI "analyze") (Alt (litCI "summarize") (litCI "explain"));
        Plus ws; litCI "issue"; Plus ws;
        Opt (seqs [Group "owner" (Plus wordDotDash); charCI "/";
                   Group "repo" (Plus wordDotDash)]);
        charCI "#"; Group "issue_number" (Plus digit);
        Opt (seqs [Star ws; charCI "#"; Group "workspace_slug" (Plus wordDash)]);
        Opt (seqs [Plus ws; Group "user_prompt" (Plus dot)]);
        Star ws; Eos].

Definition GENERIC_API_REGEX (cfg : Config) : regex :=
  seqs [CMD_PREFIX cfg; Star ws; litCI "api"; Plus ws;
        Group "api_query" (Plus dot); Star ws; Eos].

(** [WORKSPACE_OVERRIDE_REGEX]. The source puts a backslash before the first
    code unit of the prefix only; the definition is for a prefix, like the
    "#" of the configuration, whose first code unit is not a letter or a
    digit (so that the backslash makes no class escape) and whose other
    code units are not metacharacters. *)
Definition WORKSPACE_OVERRIDE_REGEX (cfg : Config) : regex :=
  Seq (litCS (WORKSPACE_OVERRIDE_COMMAND_PREFIX cfg)) (Plus notSpace).

End Patterns.

(** ** The parameters of the commands (lines 162-164 and 179-180) *)

(** [parseInt(x, 10)] of a capture that may be undefined. *)
Definition parseIntOpt (o : option string) : option float :=
  match o with
  | Some s => Js.parseInt s
  | None => None
  end.

(** The parameters of a PR review when the test of line 164 passes:
    [owner && repo && !isNaN(prNum) && workspace_slug]. *)
Definition prReviewParams (groups : Regex.Captures)
  : option (string * string * float * string) :=
  match Regex.group "owner" groups, Regex.group "repo" groups,
        parseIntOpt (Regex.group "pr_number" groups),
        Regex.group "workspace_slug" groups with
  | Some o, Some r, Some n, Some w =>
      if Js.truthy o && Js.truthy r && Js.truthy w then Some (o, r, n, w) else None
  | _, _, _, _ => None
  end.

(** [owner = GITHUB_OWNER] and [repo = 'backlog'] of the destructuring of
    line 179, and [user_prompt || null] of line 212. *)
Definition issueOwner (cfg : Config) (groups : Regex.Captures) : string :=
  match Regex.group "owner" groups with Some o => o | None => GITHUB_OWNER cfg end.

Definition issueRepo (groups : Regex.Captures) : string :=
  match Regex.group "repo" groups with Some r => r | None => "backlog" end.

Definition issuePrompt (groups : Regex.Captures) : option string :=
  let p := Regex.group "user_prompt" groups in
  if Js.truthy_opt p then p else None.

(** ** The handler *)

Section Handler.

Context {Block World : Type}.
Variable cfg : Config.
Variable fmt : Formatting Block.
Variable sv : Services Block World.

Local Open Scope handler_scope.

Local Abbreviation H := (M Block World).

Definition nl : string := String (ascii_of_nat 10) EmptyString.
Definition dquote : string := String (ascii_of_nat 34) EmptyString.

Definition postMessage (args : PostArgs Block) : H (option string) :=
  call (chat_postMessage sv args) (EvPostMessage args).

(** [updateOrDeleteThinkingMessage] (lines 65-86). [updateArgs] is the text of
    [{ text }], or [None] for [null]. The Slack client is the initialized
    client, so of the first two guards only the tests of the timestamp and of
    the channel can fire; the awaited timestamp is the string given. *)
Definition updateOrDeleteThinkingMessage
    (thinkingMessageTs channelId : string) (updateArgs : option Msg) : H unit :=
  if negb (Js.truthy thinkingMessageTs) then ret tt
  else if negb (Js.truthy channelId) then
    log Err "[Util/updateOrDeleteThinkingMessage] Missing Slack client or channel ID."
  else
    tryCatch CatchThinkingMessage
      (match updateArgs with
       | Some txt =>
           call (chat_update sv channelId thinkingMessageTs txt)
                (EvChatUpdate channelId thinkingMessageTs txt)
       | None =>
           call (chat_delete sv channelId thinkingMessageTs)
                (EvChatDelete channelId thinkingMessageTs)
       end)
      (fun error =>
         if negb (opt_string_eqb (data_error error) (Some "message_not_found"))
            && negb (opt_string_eqb (data_error error) (Some "cant_update_message"))
         then logError Warn
                (match updateArgs with
                 | Some _ => "[Util] Failed to update thinking message"
                 | None => "[Util] Failed to delete thinking message"
                 end) error
         else ret tt).

(** *** Step 4: the [gh>] commands (lines 148-240) *)

Section Commands.

Variables (cleanedQuery userId channelId replyTarget thinkingMessageTs : string).

(** --- Release Command --- *)
Definition releaseCommand : H bool :=
  match Regex.matchAnchored (Patterns.RELEASE_REGEX cfg) cleanedQuery with
  | Some groups =>
      match Regex.group "repo_id" groups with
      | Some repo_id =>
          if Js.truthy repo_id then
            log Info "[Msg Handler] Matched 'gh> release'." ;;
            call (runCommand sv (ReleaseInfo repo_id replyTarget thinkingMessageTs channelId))
                 (EvCommand (ReleaseInfo repo_id replyTarget thinkingMessageTs channelId))
          else ret false
      | None => ret false
      end
  | None => ret false
  end.

(** --- PR Review Command --- *)
Definition prReviewCommand (commandHandled : bool) : H bool :=
  if negb commandHandled then
    match Regex.matchAnchored (Patterns.PR_REVIEW_REGEX cfg) cleanedQuery with
    | Some groups =>
        log Info "[Msg Handler] Matched 'gh> review pr'." ;;
        match prReviewParams groups with
        | Some (owner, repo, prNum, workspace_slug) =>
            let c := PrReview owner repo prNum workspace_slug
                       replyTarget channelId thinkingMessageTs in
            call (runCommand sv c) (EvCommand c)
        | None =>
            log Warn "[Msg Handler] Invalid PR Review params:" ;;
            updateOrDeleteThinkingMessage thinkingMessageTs channelId
              (Some MsgInvalidPrFormat) ;;
            ret true
        end
    | None => ret commandHandled
    end
  else ret commandHandled.

(** The context and thread set-up of the issue command (lines 183-211): the
    workspace and the thread handed to the executor. *)
Definition issueContext (explicitWs : option string) : H (string * string) :=
  mapping <- call (getAnythingLLMThreadMapping sv channelId replyTarget)
                  (EvGetMapping channelId replyTarget) ;;
  ctx <- match mapping with
         | Some m =>
             log Info "[Msg Handler - Issue Cmd] Using context" ;;
             ret (Js.opt_or_else explicitWs (anythingllm_workspace_slug m),
                  anythingllm_thread_slug m)
         | None =>
             llmWs <- (if Js.truthy_opt explicitWs then
                         log Info "[Msg Handler - Issue Cmd] No mapping found, using explicit Ws" ;;
                         ret (Js.opt_or_else explicitWs "")
                       else
                         log Info "[Msg Handler - Issue Cmd] No mapping or explicit Ws, determining workspace..." ;;
                         w <- call (determineWorkspace sv None userId channelId)
                                   (EvDetermineWorkspace None userId channelId) ;;
                         log Info "[Msg Handler - Issue Cmd] Determined Ws" ;;
                         ret w) ;;
             if negb (Js.truthy llmWs) then
               throw (newError "Could not determine target workspace for issue analysis.")
             else ret (llmWs, "")
         end ;;
  let '(llmWs, llmThread) := ctx in
  if negb (Js.truthy llmThread) && Js.truthy llmWs then
    log Info "[Msg Handler - Issue Cmd] Creating new thread in workspace" ;;
    newThread <- call (createNewAnythingLLMThread sv llmWs) (EvCreateThread llmWs) ;;
    if negb (Js.truthy newThread) then
      throw (newError ("Failed to create thread in " ++ llmWs ++ "."))
    else
      call (storeAnythingLLMThreadMapping sv channelId replyTarget llmWs newThread)
           (EvStoreMapping channelId replyTarget llmWs newThread) ;;
      log Info "[Msg Handler - Issue Cmd] Created and stored new mapping" ;;
      ret (llmWs, newThread)
  else if negb (Js.truthy llmWs) then
    throw (newError "Workspace could not be determined for thread creation.")
  else ret (llmWs, llmThread).

(** --- Issue Analysis Command --- *)
Definition issueAnalysisCommand (commandHandled : bool) : H bool :=
  if negb commandHandled then
    match Regex.matchAnchored (Patterns.ISSUE_ANALYSIS_REGEX cfg) cleanedQuery with
    | Some groups =>
        log Info "[Msg Handler] Matched 'gh> analyze issue'." ;;
        let owner := issueOwner cfg groups in
        let repo := issueRepo groups in
        let explicitWs := Regex.group "workspace_slug" groups in
        match parseIntOpt (Regex.group "issue_number" groups) with
        | Some issueNum =>
            tryCatch CatchIssueContext
              (ctx <- issueContext explicitWs ;;
               let '(llmWs, llmThread) := ctx in
               let c := IssueAnalysis owner repo issueNum (issuePrompt groups)
                          replyTarget channelId thinkingMessageTs llmWs llmThread in
               call (runCommand sv c) (EvCommand c))
              (fun contextError =>
                 logError Err "[Msg Handler-IssueCmd] Context/Thread Setup Error:" contextError ;;
                 updateOrDeleteThinkingMessage thinkingMessageTs channelId
                   (Some (MsgContextError (message contextError))) ;;
                 ret true)
        | None =>
            log Warn "[Msg Handler] Invalid Issue Analysis number:" ;;
            updateOrDeleteThinkingMessage thinkingMessageTs channelId
              (Some MsgInvalidIssueNumber) ;;
            ret true
        end
    | None => ret commandHandled
    end
  else ret commandHandled.

(** --- Generic API Command --- *)
Definition genericApiCommand (commandHandled : bool) : H bool :=
  if negb commandHandled then
    match Regex.matchAnchored (Patterns.GENERIC_API_REGEX cfg) cleanedQuery with
    | Some groups =>
        match Regex.group "api_query" groups with
        | Some api_query =>
            if Js.truthy api_query then
              log Info "[Msg Handler] Matched generic 'gh> api'." ;;
              let c := GithubApi api_query replyTarget channelId thinkingMessageTs
                         (githubWorkspaceSlug cfg) (formatterWorkspaceSlug cfg) in
              call (runCommand sv c) (EvCommand c)
            else ret commandHandled
        | None => ret commandHandled
        end
    | None => ret commandHandled
    end
  else ret commandHandled.

(** --- Unknown gh> Command --- (inside [if (isPotentialGhCommand)]) *)
Definition unknownCommand (commandHandled : bool) : H bool :=
  if negb commandHandled then
    log Warn "[Msg Handler] Unknown command starting with the command prefix" ;;
    updateOrDeleteThinkingMessage thinkingMessageTs channelId (Some MsgUnknownCommand) ;;
    ret true
  else ret commandHandled.

(** Lines 148-240: the four grammars in turn, then the unknown command. *)
Definition githubCommands : H bool :=
  commandHandled <- releaseCommand ;;
  commandHandled <- prReviewCommand commandHandled ;;
  commandHandled <- issueAnalysisCommand commandHandled ;;
  commandHandled <- genericApiCommand commandHandled ;;
  unknownCommand commandHandled.

End Commands.

(** *** Step 5: intent detection, intent routing, LLM query (lines 244-432) *)

Section Fallback.

Variables (cleanedQuery userId channelId replyTarget originalTs : string).

(** Lines 262-267. The object literal of [intentContext] ends with the
    shorthand property [intentResult]; no import, parameter or declaration of
    the module binds that identifier (the result of the detection is
    [intentDetectionResult]), so evaluating the literal throws a
    ReferenceError before the [switch] is reached. *)
Definition intentContext : H unit := throw (referenceError "intentResult").

(** The condition of line 259. *)
Definition routingApplies (result : IntentResult) : bool :=
  intentRoutingEnabled cfg && Js.truthy_opt (intent result)
  && (intentConfidenceThreshold cfg <=? confidence result)%float.

(** Step 5b: returns [intentHandled]. *)
Definition intentRouting (result : IntentResult) : H bool :=
  if routingApplies result then
    let i := match intent result with Some i => i | None => "" end in
    log Info "[Msg Handler] Intent detected. Attempting routing." ;;
    intentContext ;;
    if String.eqb i "github_issue_lookup" then
      log Info "[Msg Handler] Routing to 'github_issue_lookup' handler." ;;
      log Warn "Placeholder: `handleGithubLookupIntent` not implemented." ;;
      thinkingMessageTs <- getThinkingTs ;;
      updateOrDeleteThinkingMessage thinkingMessageTs channelId
        (Some (MsgIntentNotImplemented i)) ;;
      ret true
    else if String.eqb i "ask_faq" then
      log Info "[Msg Handler] Routing to 'ask_faq' handler." ;;
      log Warn "Placeholder: `handleFaqIntent` not implemented." ;;
      thinkingMessageTs <- getThinkingTs ;;
      updateOrDeleteThinkingMessage thinkingMessageTs channelId
        (Some (MsgIntentNotImplemented i)) ;;
      ret true
    else
      log Info "[Msg Handler] Intent detected but no specific handler defined. Proceeding to LLM." ;;
      ret false
  else
    (if Js.truthy_opt (intent result)
     then log Info "[Msg Handler] Intent detected, but routing conditions not met. Proceeding to LLM."
     else log Info "[Msg Handler] No specific intent detected or routing disabled. Proceeding to LLM.") ;;
    ret false.

(** Lines 316-332: the thread of the query, from the mapping or new. *)
Definition threadForQuery (finalWorkspaceSlug : string) : H string :=
  log Info "[Msg Handler] Checking/Updating thread mapping for LLM query..." ;;
  mapping <- call (getAnythingLLMThreadMapping sv channelId replyTarget)
                  (EvGetMapping channelId replyTarget) ;;
  let reuse :=
    match mapping with
    | Some m => String.eqb (anythingllm_workspace_slug m) finalWorkspaceSlug
    | None => false
    end in
  match mapping, reuse with
  | Some m, true =>
      log Info "[Msg Handler] Using existing thread mapping for LLM" ;;
      ret (anythingllm_thread_slug m)
  | _, _ =>
      match mapping with
      | Some _ => log Info "[Msg Handler] Workspace changed for LLM. Creating new thread."
      | None => log Info "[Msg Handler] No existing thread mapping found for LLM. Creating new thread."
      end ;;
      anythingLLMThreadSlug <-
        call (createNewAnythingLLMThread sv finalWorkspaceSlug)
             (EvCreateThread finalWorkspaceSlug) ;;
      if negb (Js.truthy anythingLLMThreadSlug) then
        throw (newError ("Failed to create new thread in workspace " ++ finalWorkspaceSlug
                         ++ ". Check LLM API status and workspace slug validity."))
      else
        call (storeAnythingLLMThreadMapping sv channelId replyTarget
                finalWorkspaceSlug anythingLLMThreadSlug)
             (EvStoreMapping channelId replyTarget finalWorkspaceSlug anythingLLMThreadSlug) ;;
        log Info "[Msg Handler] Created/Updated thread mapping for LLM" ;;
        ret anythingLLMThreadSlug
  end.

(** [s.substring(0, 200) + (s.length > 200 ? '...' : '')] *)
Definition preview (s : string) : string :=
  Js.take 200 s ++ (if 200 <? String.length s then "..." else "").

Definition instruction : string :=
  nl ++ nl ++ "IMPORTANT: Provide a clean answer without referencing internal context markers (like "
  ++ dquote ++ "CONTEXT N" ++ dquote
  ++ "). Format your response using Slack markdown (bold, italics, code blocks, links).".

Definition llmInput : string :=
  Js.trim (Regex.removeFirstMatch (Patterns.WORKSPACE_OVERRIDE_REGEX cfg) cleanedQuery)
  ++ instruction.

Definition post (txt : Msg) (blocks : option (Blocks Block)) : PostArgs Block :=
  {| pm_channel := channelId; pm_thread_ts := replyTarget;
     pm_text := txt; pm_blocks := blocks |}.

(** Lines 363-368: the post of the whole reply when there are no segments. *)
Definition rawReplyPost (trimmedReply : string) : PostArgs Block :=
  match markdownToRichTextBlock fmt trimmedReply with
  | Some block => post (FromReply (preview trimmedReply)) (Some (RichText block))
  | None => post (FromReply trimmedReply) None
  end.

(** Lines 374-383: [segmentText] and [fallbackText] of one segment. *)
Definition segmentTexts (segment : Segment) : string * string :=
  let body := Js.trim (content segment) in
  if Js.truthy body then
    match seg_type segment with
    | SegText => (body, preview body)
    | SegCode =>
        let lang := language segment in
        (("```" ++ lang ++ nl ++ body ++ nl ++ "```")%string,
         ("Code block (" ++ Js.or_else lang "unknown" ++ ")")%string)
    end
  else ("", "...").

(** Lines 385-395: the post of one segment, with its [catch] clauses. Returns
    the new [lastMessageTs]. *)
Definition postSegment (segmentText fallbackText : string)
    (lastMessageTs : option string) : H (option string) :=
  let block := markdownToRichTextBlock fmt segmentText in
  tryCatch CatchSegmentPost
    (match block with
     | Some b =>
         postMessage (post (FromReply fallbackText) (Some (RichText b)))
     | None =>
         log Warn "[Msg Handler] Failed block for seg. Posting raw." ;;
         postMessage (post (FromReply segmentText) None)
     end)
    (fun e =>
       logError Err "[Msg Handler] Error posting seg" e ;;
       match block with
       | Some _ =>
           tryCatch CatchSegmentRetry
             (postMessage (post (FromReply segmentText) None))
             (fun _ => ret lastMessageTs)
       | None => ret lastMessageTs
       end).

(** Lines 371-397: the loop over the segments; [i] is the index of the head of
    [segments] and [n] is [segments.length]. Returns [lastMessageTs]. *)
Fixpoint postSegments (segments : list Segment) (i n : nat)
    (lastMessageTs : option string) : H (option string) :=
  match segments with
  | [] => ret lastMessageTs
  | segment :: rest =>
      let '(segmentText, fallbackText) := segmentTexts segment in
      if negb (Js.truthy segmentText) then postSegments rest (S i) n lastMessageTs
      else
        lastMessageTs <- postSegment segmentText fallbackText lastMessageTs ;;
        (if (1 <? n) && (i <? n - 1) then emit (Delay 500) else ret tt) ;;
        postSegments rest (S i) n lastMessageTs
  end.

(** Lines 403-411 *)
Definition feedbackPost (finalWorkspaceSlug : string) : PostArgs Block :=
  post MsgFeedbackPrompt
    (Some (FeedbackBlock ("feedback_" ++ originalTs ++ "_" ++ finalWorkspaceSlug)
             [("bad", "feedback_bad"); ("ok", "feedback_ok"); ("great", "feedback_great")])).

(** Steps 5e and 5f: post the reply, then the feedback buttons. *)
Definition postReply (finalWorkspaceSlug trimmedReply : string) : H unit :=
  if negb (Js.truthy trimmedReply) then
    log Info "[Msg Handler] LLM returned empty response." ;;
    postMessage (post MsgEmptyResponse None) ;;
    ret tt
  else
    log Info "[Msg Handler] LLM raw response length" ;;
    let isSubstantive :=
      MIN_SUBSTANTIVE_RESPONSE_LENGTH cfg <=? String.length trimmedReply in
    (if isSubstantive then log Info "[Msg Handler] Response deemed substantive."
     else log Info "[Msg Handler] Response deemed non-substantive.") ;;
    let segments := extractTextAndCode fmt trimmedReply in
    lastMessageTs <-
      (match segments with
       | [] =>
           log Warn "[Msg Handler] No segments extracted from non-empty reply, posting raw trimmed reply." ;;
           postMessage (rawReplyPost trimmedReply)
       | _ => postSegments segments 0 (List.length segments) None
       end) ;;
    if Js.truthy_opt lastMessageTs && isSubstantive then
      tryCatch CatchFeedback
        (postMessage (feedbackPost finalWorkspaceSlug) ;; ret tt)
        (fun e => logError Warn "[Msg Handler] Failed post feedback buttons:" e)
    else ret tt.

(** Step 5d (lines 334-346), then the reply: the progress note, the query,
    the delete of the thinking message. *)
Definition queryStep (finalWorkspaceSlug anythingLLMThreadSlug : string) : H unit :=
  thinkingMessageTs <- getThinkingTs ;;
  updateOrDeleteThinkingMessage thinkingMessageTs channelId
    (Some (MsgThinkingIn finalWorkspaceSlug)) ;;
  log Info "[Msg Handler] Querying LLM" ;;
  rawReply <- call (queryLlm sv finalWorkspaceSlug anythingLLMThreadSlug llmInput)
                   (EvQueryLlm finalWorkspaceSlug anythingLLMThreadSlug llmInput) ;;
  let trimmedReply := match rawReply with Some s => Js.trim s | None => "" end in
  thinkingMessageTs <- getThinkingTs ;;
  updateOrDeleteThinkingMessage thinkingMessageTs channelId None ;;
  setThinkingTs "" ;;
  postReply finalWorkspaceSlug trimmedReply.

(** Step 5c (lines 302-332), then step 5d. *)
Definition llmQueryPath (suggested : option string) : H unit :=
  log Info "[Msg Handler] Determining workspace for LLM query..." ;;
  finalWorkspaceSlug <-
    call (determineWorkspace sv suggested userId channelId)
         (EvDetermineWorkspace suggested userId channelId) ;;
  if negb (Js.truthy finalWorkspaceSlug) then
    throw (newError "Could not determine a valid workspace. Check configuration (mappings, fallback) and LLM workspace availability.")
  else
    log Info "[Msg Handler] Final workspace determined for LLM" ;;
    anythingLLMThreadSlug <- threadForQuery finalWorkspaceSlug ;;
    queryStep finalWorkspaceSlug anythingLLMThreadSlug.

(** The body of the [try] (lines 253-416). *)
Definition fallbackBody : H unit :=
  log Info "[Msg Handler] Running Intent Detection..." ;;
  intentDetectionResult <-
    call (detectIntentAndWorkspace sv cleanedQuery) (EvDetectIntent cleanedQuery) ;;
  intentHandled <- intentRouting intentDetectionResult ;;
  if negb intentHandled then llmQueryPath (suggestedWorkspace intentDetectionResult)
  else ret tt.

(** The [catch] clause (lines 418-425). *)
Definition fallbackCatch (error : Error) : H unit :=
  logError Err "[Msg Handler Error - Intent/LLM Path]" error ;;
  thinkingMessageTs <- getThinkingTs ;;
  if Js.truthy thinkingMessageTs then
    updateOrDeleteThinkingMessage thinkingMessageTs channelId
      (Some (MsgOops (message error))) ;;
    setThinkingTs ""
  else
    tryCatch CatchErrorNotice
      (postMessage (post (MsgOops (message error)) None) ;; ret tt)
      (fun _ => ret tt).

(** The [finally] clause (lines 426-432). *)
Definition fallbackFinally : H unit :=
  thinkingMessageTs <- getThinkingTs ;;
  (if Js.truthy thinkingMessageTs
   then updateOrDeleteThinkingMessage thinkingMessageTs channelId None
   else ret tt) ;;
  log Info "[Msg Handler - Fallback Path] Finished processing.".

Definition fallbackPath : H unit :=
  log Info "[Msg Handler] No command matched. Proceeding with Intent Detection -> Routing -> LLM query." ;;
  tryFinally (tryCatch CatchFallbackPath fallbackBody fallbackCatch) fallbackFinally.

End Fallback.

(** *** The handler (lines 96-436) *)

Definition originalText (event : SlackEvent) : string :=
  match text event with Some s => s | None => "" end.

Definition mentionString : string := "<@" ++ botUserId cfg ++ ">".

Definition cleanedQueryOf (event : SlackEvent) : string :=
  Js.trim (Js.replaceFirst (Js.trim (originalText event)) mentionString "").

Definition replyTargetOf (event : SlackEvent) : string :=
  Js.opt_or_else (thread_ts event) (ts event).

Definition isPotentialGhCommand (cleanedQuery : string) : bool :=
  Js.startsWith (Js.toLowerCase cleanedQuery) (COMMAND_PREFIX cfg).

Definition isDeleteCommand (cleanedQuery : string) : bool :=
  Js.startsWith (Js.toLowerCase cleanedQuery) "#delete_last_message".

(** Step 3: post the thinking message; [None] when the [catch] clause
    returned from the handler. *)
Definition postThinkingMessage (channelId replyTarget : string) : H (option string) :=
  tryCatch CatchInitialPost
    (thinkingMsgTs <-
       postMessage {| pm_channel := channelId; pm_thread_ts := replyTarget;
                      pm_text := MsgProcessing; pm_blocks := None |} ;;
     match thinkingMsgTs with
     | Some t =>
         if Js.truthy t then ret (Some t)
         else throw (newError "Failed to get timestamp from thinking message response.")
     | None => throw (newError "Failed to get timestamp from thinking message response.")
     end)
    (fun err =>
       logError Err "[Msg Handler] Failed post initial thinking message:" err ;;
       ret None).

(** Steps 4 and 5, once the thinking message is posted. [octokit] tells
    whether the Octokit client is there. *)
Definition afterThinkingMessage (event : SlackEvent) (octokit : bool)
    (thinkingMessageTs : string) : H unit :=
  let userId := user event in
  let channelId := channel event in
  let cleanedQuery := cleanedQueryOf event in
  let replyTarget := replyTargetOf event in
  if isPotentialGhCommand cleanedQuery then
    if negb (Js.truthy (githubToken cfg)) then
      updateOrDeleteThinkingMessage thinkingMessageTs channelId (Some MsgGithubDisabled)
    else if negb octokit then
      updateOrDeleteThinkingMessage thinkingMessageTs channelId (Some MsgGithubClientFailed)
    else
      commandHandled <-
        githubCommands cleanedQuery userId channelId replyTarget thinkingMessageTs ;;
      if negb commandHandled
      then fallbackPath cleanedQuery userId channelId replyTarget (ts event)
      else log Info "[Msg Handler] Command handled."
  else fallbackPath cleanedQuery userId channelId replyTarget (ts event).

Definition handleSlackMessageEventInternal (event : SlackEvent) (octokit : bool)
  : H unit :=
  let channelId := channel event in
  let cleanedQuery := cleanedQueryOf event in
  let replyTarget := replyTargetOf event in
  log Info "[Msg Handler] Start" ;;
  if negb (Js.truthy cleanedQuery) then
    log Info "[Msg Handler] Ignoring empty message after mention removal."
  else if isDeleteCommand cleanedQuery then
    log Info "[Msg Handler] Delete command detected." ;;
    call (handleDeleteLastMessageCommand sv channelId replyTarget (botUserId cfg))
         (EvDeleteLast channelId replyTarget (botUserId cfg)) ;;
    log Info "[Msg Handler] Delete handled."
  else
    thinkingMessageTs <- postThinkingMessage channelId replyTarget ;;
    match thinkingMessageTs with
    | None => ret tt
    | Some t => setThinkingTs t ;; afterThinkingMessage event octokit t
    end.

(** One run from a state of the world: the completion and the trace. *)
Definition run (event : SlackEvent) (octokit : bool) (w : World)
  : Outcome unit * Trace Block :=
  match handleSlackMessageEventInternal event octokit
          {| world := w; thinkingTs := "" |} with
  | (r, _, t) => (r, t)
  end.

End Handler.

(** ** What a trace shows *)

Section Observations.

Context {Block : Type}.

Local Abbreviation Event := (Event Block).
Local Abbreviation Trace := (Trace Block).

Definition isLlmQuery (ev : Event) : bool :=
  match ev with EvQueryLlm _ _ _ _ => true | _ => false end.

Definition isDetectIntent (ev : Event) : bool :=
  match ev with EvDetectIntent _ _ => true | _ => false end.

Definition isDetermineWorkspace (ev : Event) : bool :=
  match ev with EvDetermineWorkspace _ _ _ _ => true | _ => false end.

Definition isCreateThread (ev : Event) : bool :=
  match ev with EvCreateThread _ _ => true | _ => false end.

Definition isStoreMapping (ev : Event) : bool :=
  match ev with EvStoreMapping _ _ _ _ _ => true | _ => false end.

Definition isGetMapping (ev : Event) : bool :=
  match ev with EvGetMapping _ _ _ => true | _ => false end.

Definition isPostMessage (ev : Event) : bool :=
  match ev with EvPostMessage _ _ => true | _ => false end.

Definition isCommand (ev : Event) : bool :=
  match ev with EvCommand _ _ => true | _ => false end.

Definition isChatUpdate (ev : Event) : bool :=
  match ev with EvChatUpdate _ _ _ _ => true | _ => false end.

Definition isChatDelete (ev : Event) : bool :=
  match ev with EvChatDelete _ _ _ => true | _ => false end.

(** The kind of an event: which operation wrote it. *)
Inductive EventKind : Type :=
| KLog | KCaught | KDelay | KPostMessage | KChatUpdate | KChatDelete | KDeleteLast
| KCommand | KGetMapping | KStoreMapping | KCreateThread | KDetermineWorkspace
| KDetectIntent | KQueryLlm.

Definition kindOf (ev : Event) : EventKind :=
  match ev with
  | Log _ _ _ => KLog
  | Caught _ _ => KCaught
  | Delay _ => KDelay
  | EvPostMessage _ _ => KPostMessage
  | EvChatUpdate _ _ _ _ => KChatUpdate
  | EvChatDelete _ _ _ => KChatDelete
  | EvDeleteLast _ _ _ _ => KDeleteLast
  | EvCommand _ _ => KCommand
  | EvGetMapping _ _ _ => KGetMapping
  | EvStoreMapping _ _ _ _ _ => KStoreMapping
  | EvCreateThread _ _ => KCreateThread
  | EvDetermineWorkspace _ _ _ _ => KDetermineWorkspace
  | EvDetectIntent _ _ => KDetectIntent
  | EvQueryLlm _ _ _ _ => KQueryLlm
  end.

Definition kind_eqb (a b : EventKind) : bool :=
  match a, b with
  | KLog, KLog | KCaught, KCaught | KDelay, KDelay | KPostMessage, KPostMessage
  | KChatUpdate, KChatUpdate | KChatDelete, KChatDelete | KDeleteLast, KDeleteLast
  | KCommand, KCommand | KGetMapping, KGetMapping | KStoreMapping, KStoreMapping
  | KCreateThread, KCreateThread | KDetermineWorkspace, KDetermineWorkspace
  | KDetectIntent, KDetectIntent | KQueryLlm, KQueryLlm => true
  | _, _ => false
  end.

(** The event is of one of the listed kinds. *)
Definition ofKinds (kinds : list EventKind) (ev : Event) : bool :=
  existsb (kind_eqb (kindOf ev)) kinds.

(** No event of the trace is of the given kind. *)
Definition never (kind : Event -> bool) (t : Trace) : Prop :=
  forallb (fun ev => negb (kind ev)) t = true.

(** The executor calls of a trace, in order. *)
Fixpoint commandsOf (t : Trace) : list Command :=
  match t with
  | [] => []
  | EvCommand c _ :: t' => c :: commandsOf t'
  | _ :: t' => commandsOf t'
  end.

(** The executor calls with what they returned. *)
Fixpoint commandResultsOf (t : Trace) : list (Command * Outcome bool) :=
  match t with
  | [] => []
  | EvCommand c r :: t' => (c, r) :: commandResultsOf t'
  | _ :: t' => commandResultsOf t'
  end.

(** The texts of the [chat.update] calls of a trace, in order. *)
Fixpoint updatesOf (t : Trace) : list Msg :=
  match t with
  | [] => []
  | EvChatUpdate _ _ txt _ :: t' => txt :: updatesOf t'
  | _ :: t' => updatesOf t'
  end.

(** A text that ends the life of the thinking message; "Thinking in
    workspace ..." is a progress note on the way. *)
Definition isFinalText (m : Msg) : bool :=
  match m with
  | MsgThinkingIn _ | MsgProcessing => false
  | _ => true
  end.

(** A release of the thinking message [ts] of [channelId]: an update to a
    final text, or a delete. *)
Definition isRelease (channelId ts : string) (ev : Event) : bool :=
  match ev with
  | EvChatUpdate c t txt _ => String.eqb c channelId && String.eqb t ts && isFinalText txt
  | EvChatDelete c t _ => String.eqb c channelId && String.eqb t ts
  | _ => false
  end.

Definition releases (channelId ts : string) (t : Trace) : nat :=
  List.length (filter (isRelease channelId ts) t).

(** Any [chat.update] or [chat.delete] at all. *)
Definition touchesThinkingMessage (ev : Event) : bool :=
  isChatUpdate ev || isChatDelete ev.

(** The post of the feedback buttons. *)
Definition isFeedbackPost (ev : Event) : bool :=
  match ev with
  | EvPostMessage args _ =>
      match pm_blocks args with
      | Some (FeedbackBlock _ _) => true
      | _ => false
      end
  | _ => false
  end.

(** A post of (a part of) the reply of the LLM. *)
Definition isReplyPost (ev : Event) : bool :=
  match ev with
  | EvPostMessage args _ =>
      match pm_text args with FromReply _ => true | _ => false end
  | _ => false
  end.

Fixpoint replyPostsOf (t : Trace) : list (PostArgs Block) :=
  match t with
  | [] => []
  | EvPostMessage args r :: t' =>
      match pm_text args with
      | FromReply _ => args :: replyPostsOf t'
      | _ => replyPostsOf t'
      end
  | _ :: t' => replyPostsOf t'
  end.

(** [lastMessageTs] as the trace determines it: the [res?.ts] of the last reply
    post that returned. *)
Fixpoint lastMessageTsFrom (last : option string) (t : Trace) : option string :=
  match t with
  | [] => last
  | EvPostMessage args (Returned r) :: t' =>
      match pm_text args with
      | FromReply _ => lastMessageTsFrom r t'
      | _ => lastMessageTsFrom last t'
      end
  | _ :: t' => lastMessageTsFrom last t'
  end.

Definition lastMessageTsOf (t : Trace) : option string := lastMessageTsFrom None t.

(** The reply [queryLlm] returned in the trace, trimmed as line 343 does;
    [None] when no query returned. *)
Fixpoint trimmedReplyOf (t : Trace) : option string :=
  match t with
  | [] => None
  | EvQueryLlm _ _ _ (Returned r) :: _ =>
      Some (match r with Some s => Js.trim s | None => "" end)
  | _ :: t' => trimmedReplyOf t'
  end.

(** Every error a [catch] clause received is followed at once by a warning or
    error line that carries it, unless [exempt] excuses the clause. *)
Definition logsError (e : Error) (ev : Event) : bool :=
  match ev with
  | Log Warn _ (Some e') | Log Err _ (Some e') => error_eqb e e'
  | _ => false
  end.

Fixpoint everyCaughtLogged (exempt : CatchSite -> Error -> bool) (t : Trace) : bool :=
  match t with
  | [] => true
  | Caught site e :: t' =>
      (exempt site e || match t' with ev :: _ => logsError e ev | [] => false end)
      && everyCaughtLogged exempt t'
  | _ :: t' => everyCaughtLogged exempt t'
  end.

(** The errors the handler swallows without a line: a failed update or delete
    of the thinking message that Slack reports as [message_not_found] or
    [cant_update_message], a failed retry of a segment without blocks, a
    failed post of the error notice. *)
Definition swallowedSilently (site : CatchSite) (e : Error) : bool :=
  match site with
  | CatchThinkingMessage =>
      opt_string_eqb (data_error e) (Some "message_not_found")
      || opt_string_eqb (data_error e) (Some "cant_update_message")
  | CatchSegmentRetry => true
  | CatchErrorNotice => true
  | _ => false
  end.

End Observations.

(** ** The routing of step 4 in the words of the specification

    "Attempt each command grammar in a fixed priority order (release, then
    PR-review, then issue-analysis, then generic-API); the first structural
    match wins." A grammar matches structurally when its pattern matches the
    whole cleaned text and the capture the table of section 4.5 requires is
    there. *)

Inductive CommandMatch : Type :=
| MatchedRelease (repo_id : string)
| MatchedPrReview (groups : Regex.Captures)
| MatchedIssueAnalysis (groups : Regex.Captures)
| MatchedGenericApi (api_query : string)
| Unrecognized.

Definition requiredGroup (name : string) (r : Regex.regex) (q : string) : option string :=
  match Regex.matchAnchored r q with
  | Some groups =>
      match Regex.group name groups with
      | Some v => if Js.truthy v then Some v else None
      | None => None
      end
  | None => None
  end.

Definition firstMatch (cfg : Config) (q : string) : CommandMatch :=
  match requiredGroup "repo_id" (Patterns.RELEASE_REGEX cfg) q with
  | Some repo_id => MatchedRelease repo_id
  | None =>
  match Regex.matchAnchored (Patterns.PR_REVIEW_REGEX cfg) q with
  | Some groups => MatchedPrReview groups
  | None =>
  match Regex.matchAnchored (Patterns.ISSUE_ANALYSIS_REGEX cfg) q with
  | Some groups => MatchedIssueAnalysis groups
  | None =>
  match requiredGroup "api_query" (Patterns.GENERIC_API_REGEX cfg) q with
  | Some api_query => MatchedGenericApi api_query
  | None => Unrecognized
  end end end end.

(** The thinking message was posted: the text is not empty, it is not the
    delete command, and [chat.postMessage] returned the timestamp [t]. *)
Definition thinkingPost {Block : Type} (event : SlackEvent) : PostArgs Block :=
  {| pm_channel := channel event; pm_thread_ts := replyTargetOf event;
     pm_text := MsgProcessing; pm_blocks := None |}.

Definition ThinkingPosted {Block World : Type} (cfg : Config)
    (sv : Services Block World) (event : SlackEvent) (w : World)
    (t : string) (w1 : World) : Prop :=
  Js.truthy (cleanedQueryOf cfg event) = true /\
  isDeleteCommand (cleanedQueryOf cfg event) = false /\
  chat_postMessage sv (thinkingPost event) w = (Returned (Some t), w1) /\
  Js.truthy t = true.

(** What the trace of step 4 shows for each outcome of the routing: the one
    executor that ran, or the text the thinking message was updated to. *)
Definition routedAs {Block : Type} (cfg : Config)
    (channelId replyTarget thinkingMessageTs : string)
    (m : CommandMatch) (t : Trace Block) : Prop :=
  match m with
  | MatchedRelease repo_id =>
      commandsOf t = [ReleaseInfo repo_id replyTarget thinkingMessageTs channelId]
  | MatchedPrReview groups =>
      match prReviewParams groups with
      | Some (o, r, n, w) =>
          commandsOf t = [PrReview o r n w replyTarget channelId thinkingMessageTs]
      | None => commandsOf t = [] /\ updatesOf t = [MsgInvalidPrFormat]
      end
  | MatchedIssueAnalysis groups =>
      match parseIntOpt (Regex.group "issue_number" groups) with
      | Some n =>
          (exists llmWs llmThread,
              commandsOf t
              = [IssueAnalysis (issueOwner cfg groups) (issueRepo groups) n
                   (issuePrompt groups) replyTarget channelId thinkingMessageTs
                   llmWs llmThread])
          \/ (commandsOf t = [] /\ exists msg, updatesOf t = [MsgContextError msg])
      | None => commandsOf t = [] /\ updatesOf t = [MsgInvalidIssueNumber]
      end
  | MatchedGenericApi api_query =>
      commandsOf t
      = [GithubApi api_query replyTarget channelId thinkingMessageTs
           (githubWorkspaceSlug cfg) (formatterWorkspaceSlug cfg)]
  | Unrecognized => commandsOf t = [] /\ updatesOf t = [MsgUnknownCommand]
  end.

(** ** A small world for the examples

    The outside world is the thread mapping table, read by
    [getAnythingLLMThreadMapping] and written with upsert by
    [storeAnythingLLMThreadMapping] (section 4.3 of the specification); every
    other service answers as a script says. *)

Module Scenario.

Definition Table : Type := list (string * string * Mapping).

Fixpoint lookup (channelId replyTarget : string) (tb : Table) : option Mapping :=
  match tb with
  | [] => None
  | (c, r, m) :: tb' =>
      if String.eqb c channelId && String.eqb r replyTarget then Some m
      else lookup channelId replyTarget tb'
  end.

Fixpoint upsert (channelId replyTarget : string) (m : Mapping) (tb : Table) : Table :=
  match tb with
  | [] => [(channelId, replyTarget, m)]
  | (c, r, m') :: tb' =>
      if String.eqb c channelId && String.eqb r replyTarget
      then (c, r, m) :: tb'
      else (c, r, m') :: upsert channelId replyTarget m tb'
  end.

Record Script : Type := {
  posted : PostArgs string -> Outcome (option string);
  updated : Outcome unit;
  deleted : Outcome unit;
  executed : Outcome bool;
  newThread : Outcome string;
  workspace : Outcome string;
  detected : Outcome IntentResult;
  reply : Outcome (option string)
}.

Definition services (s : Script) : Services string Table := {|
  chat_postMessage := fun args w => (posted s args, w);
  chat_update := fun _ _ _ w => (updated s, w);
  chat_delete := fun _ _ w => (deleted s, w);
  handleDeleteLastMessageCommand := fun _ _ _ w => (Returned tt, w);
  runCommand := fun _ w => (executed s, w);
  getAnythingLLMThreadMapping := fun c r w => (Returned (lookup c r w), w);
  storeAnythingLLMThreadMapping :=
    fun c r ws th w =>
      (Returned tt,
       upsert c r {| anythingllm_workspace_slug := ws; anythingllm_thread_slug := th |} w);
  createNewAnythingLLMThread := fun _ w => (newThread s, w);
  determineWorkspace := fun _ _ _ w => (workspace s, w);
  detectIntentAndWorkspace := fun _ w => (detected s, w);
  queryLlm := fun _ _ _ w => (reply s, w)
|}.

Definition noIntent : IntentResult :=
  {| intent := None; confidence := 0%float; suggestedWorkspace := None |}.

Definition faqIntent : IntentResult :=
  {| intent := Some "ask_faq"; confidence := 0.875%float; suggestedWorkspace := None |}.

(** Everything answers; the LLM says "hello world" with blanks around. *)
Definition calm : Script := {|
  posted := fun _ => Returned (Some "1700000000.000200");
  updated := Returned tt;
  deleted := Returned tt;
  executed := Returned true;
  newThread := Returned "thread-new";
  workspace := Returned "general";
  detected := Returned noIntent;
  reply := Returned (Some "  hello world ")
|}.

Definition withDetected (d : Outcome IntentResult) (s : Script) : Script :=
  {| posted := posted s; updated := updated s; deleted := deleted s;
     executed := executed s; newThread := newThread s; workspace := workspace s;
     detected := d; reply := reply s |}.

Definition withUpdated (u : Outcome unit) (s : Script) : Script :=
  {| posted := posted s; updated := u; deleted := deleted s;
     executed := executed s; newThread := newThread s; workspace := workspace s;
     detected := detected s; reply := reply s |}.

Definition withReply (r : Outcome (option string)) (s : Script) : Script :=
  {| posted := posted s; updated := updated s; deleted := deleted s;
     executed := executed s; newThread := newThread s; workspace := workspace s;
     detected := detected s; reply := r |}.

Definition config : Config := {|
  botUserId := "U0BOT";
  githubWorkspaceSlug := "github";
  formatterWorkspaceSlug := "formatter";
  MIN_SUBSTANTIVE_RESPONSE_LENGTH := 11;
  GITHUB_OWNER := "acme";
  githubToken := "ghp_token";
  COMMAND_PREFIX := "gh>";
  WORKSPACE_OVERRIDE_COMMAND_PREFIX := "#";
  intentRoutingEnabled := true;
  intentConfidenceThreshold := 0.75%float
|}.

(** The same configuration without a GitHub token. *)
Definition configNoToken : Config := {|
  botUserId := "U0BOT";
  githubWorkspaceSlug := "github";
  formatterWorkspaceSlug := "formatter";
  MIN_SUBSTANTIVE_RESPONSE_LENGTH := 11;
  GITHUB_OWNER := "acme";
  githubToken := "";
  COMMAND_PREFIX := "gh>";
  WORKSPACE_OVERRIDE_COMMAND_PREFIX := "#";
  intentRoutingEnabled := true;
  intentConfidenceThreshold := 0.75%float
|}.

(** Rich text blocks are the text itself; a reply is one text segment. *)
Definition formatting : Formatting string := {|
  markdownToRichTextBlock := fun s => Some s;
  extractTextAndCode := fun s => [{| seg_type := SegText; content := s; language := "" |}]
|}.

(** A segmenter that finds nothing. *)
Definition formattingNoSegments : Formatting string := {|
  markdownToRichTextBlock := fun s => Some s;
  extractTextAndCode := fun _ => []
|}.

Definition said (txt : string) : SlackEvent :=
  {| user := "U1USER"; text := Some txt; channel := "C1CHAN";
     ts := "1700000000.000100"; thread_ts := None |}.

(** The conversation already has a thread in workspace "general". *)
Definition mapped : Table :=
  [("C1CHAN", "1700000000.000100",
    {| anythingllm_workspace_slug := "general"; anythingllm_thread_slug := "thread-1" |})].

Definition notFound : Error :=
  {| data_error := Some "message_not_found"; message := "An API error occurred: message_not_found" |}.

Definition timeout : Error := newError "classifier timed out".

End Scenario.


Unset Implicit Arguments.

(** ** Reading the command word

    What the four command patterns ask of the text after the prefix, said
    without the matcher: the prefix, blanks, the command word in either case,
    and a blank after it. *)

Section PatternDefs.

(** The rest of [s] after a literal matched without regard to case. *)
Fixpoint stripCI (p s : string) : option string :=
  match p with
  | EmptyString => Some s
  | String c p' =>
      match s with
      | String x s' =>
          if Ascii.eqb (Js.canonChar x) (Js.canonChar c) then stripCI p' s' else None
      | EmptyString => None
      end
  end.

(** [s] starts with the word [kw], case aside. *)
Definition says (kw s : string) : bool :=
  match stripCI kw s with Some _ => true | None => false end.

Definition startsWithSpace (s : string) : bool :=
  match s with
  | String c _ => Js.isWhiteSpace c
  | EmptyString => false
  end.

(** The first [n] code units, canonicalized. *)
Fixpoint canonTake (n : nat) (s : string) : string :=
  match n, s with
  | S n', String c s' => String (Js.canonChar c) (canonTake n' s')
  | _, _ => EmptyString
  end.

(** What follows the command prefix and the blanks after it. *)
Definition afterPrefix (cfg : Config) (q : string) : option string :=
  option_map Js.trimStart (stripCI (COMMAND_PREFIX cfg) q).

(** The command word of the text is [kw]. *)
Definition commandWordIs (cfg : Config) (kw q : string) : bool :=
  match afterPrefix cfg q with
  | Some s => says kw s
  | None => false
  end.

End PatternDefs.

(** ** Judgements on the blocks of the handler *)

Section Judgements.

Context {Block World : Type}.

Local Abbreviation H := (M Block World).

(** The kinds of event each part of the handler may leave in the trace. *)
Definition commandKinds : list EventKind :=
  [KLog; KCaught; KPostMessage; KDeleteLast; KChatUpdate; KCommand; KGetMapping;
   KStoreMapping; KCreateThread; KDetermineWorkspace].

Definition replyKinds : list EventKind := [KLog; KCaught; KDelay; KPostMessage].

Definition queryKinds : list EventKind :=
  [KLog; KCaught; KDelay; KPostMessage; KChatUpdate; KChatDelete; KQueryLlm].

Definition fallbackKinds : list EventKind :=
  [KLog; KCaught; KDelay; KPostMessage; KChatUpdate; KChatDelete; KQueryLlm;
   KGetMapping; KStoreMapping; KCreateThread; KDetermineWorkspace; KDetectIntent].

(** A block that never assigns [thinkingMessageTs]. *)
Definition keeps {A} (m : H A) : Prop :=
  forall st, thinkingTs (stateOf m st) = thinkingTs st.

(** A call of the helper that releases the thinking message: a deletion or
    a final text. *)
Definition releasing (args : option Msg) : bool :=
  match args with
  | Some txt => isFinalText txt
  | None => true
  end.

(** Where a block of the fallback path leaves the thinking message: still
    there and untouched, which only a throw does, or released once and
    forgotten. *)
Definition ReleasedOnce (ch t : string) {A} (m : H A) (st : State World) : Prop :=
  (thinkingTs (stateOf m st) = t /\ releases ch t (traceOf m st) = 0
   /\ exists e, outcomeOf m st = Threw e)
  \/ (thinkingTs (stateOf m st) = "" /\ releases ch t (traceOf m st) = 1).

(** Every error the block catches is accounted for. *)
Definition accounts {A} (m : H A) : Prop :=
  forall st, everyCaughtLogged swallowedSilently (traceOf m st) = true.


(** A query that returned. *)
Definition isLlmReply (ev : Event Block) : bool :=
  match ev with EvQueryLlm _ _ _ (Returned _) => true | _ => false end.

(** An event that is no part of the reply: not a returned query, not a post
    of the reply, not the feedback buttons. *)
Definition quiet (ev : Event Block) : bool :=
  negb (isLlmReply ev) && negb (isReplyPost ev) && negb (isFeedbackPost ev).

Definition feedbackPosted (t : Trace Block) : bool := existsb isFeedbackPost t.

(** The trace is quiet, or it is quiet around one returned query that is
    followed by the posting of its reply. *)
Definition ShapedTrace (cfg : Config) (fmt : Formatting Block) (sv : Services Block World)
    (ch rt ots : string) (t : Trace Block) : Prop :=
  forallb quiet t = true
  \/ exists pre ws thr input r mid st post,
      t = pre ++ EvQueryLlm ws thr input (Returned r)
               :: mid ++ traceOf (postReply cfg fmt sv ch rt ots ws
                                    (match r with Some s => Js.trim s | None => "" end)) st
               ++ post
      /\ forallb quiet pre = true /\ forallb quiet mid = true
      /\ forallb quiet post = true.

Definition shapedBlock (cfg : Config) (fmt : Formatting Block) (sv : Services Block World)
    (ch rt ots : string) {A} (m : M Block World A) : Prop :=
  forall st, ShapedTrace cfg fmt sv ch rt ots (traceOf m st).

End Judgements.


(** * Further definitions *)

(** ** What a match captures *)

Section CaptureDefs.

Import Regex.

(** Every code unit of [s] is of the class [p]. *)
Fixpoint allOf (p : ascii -> bool) (s : string) : bool :=
  match s with
  | EmptyString => true
  | String c s' => p c && allOf p s'
  end.

(** A code unit of the ASCII range. *)
Definition isAscii (c : ascii) : bool := Js.code c <? 128.

(** The pattern has no capture group. *)
Fixpoint captureFree (r : regex) : bool :=
  match r with
  | Group _ _ => false
  | Seq r1 r2 | Alt r1 r2 => captureFree r1 && captureFree r2
  | Star r' => captureFree r'
  | Empty | Char _ | Eos => true
  end.

(** The pattern can match the empty string. *)
Fixpoint nullable (r : regex) : bool :=
  match r with
  | Empty | Eos | Star _ => true
  | Char _ => false
  | Seq r1 r2 => nullable r1 && nullable r2
  | Alt r1 r2 => nullable r1 || nullable r2
  | Group _ r' => nullable r'
  end.

End CaptureDefs.

(** [r.test(q)] for an anchored pattern. *)
Definition accepts (r : Regex.regex) (q : string) : bool :=
  match Regex.matchAnchored r q with Some _ => true | None => false end.

(** How many of the four command patterns accept the text. *)
Definition grammarsAccepting (cfg : Config) (q : string) : nat :=
  List.length
    (filter (fun r => accepts r q)
       [Patterns.RELEASE_REGEX cfg; Patterns.PR_REVIEW_REGEX cfg;
        Patterns.ISSUE_ANALYSIS_REGEX cfg; Patterns.GENERIC_API_REGEX cfg]).


(** ** Invariants of a trace *)

Section InvariantDefs.

Context {Block : Type}.

(** The channel and the reply target an executor is called with. *)
Definition commandChannel (c : Command) : string :=
  match c with
  | ReleaseInfo _ _ _ channelId => channelId
  | PrReview _ _ _ _ _ channelId _ => channelId
  | IssueAnalysis _ _ _ _ _ channelId _ _ _ => channelId
  | GithubApi _ _ channelId _ _ _ => channelId
  end.

Definition commandReplyTarget (c : Command) : string :=
  match c with
  | ReleaseInfo _ replyTarget _ _ => replyTarget
  | PrReview _ _ _ _ replyTarget _ _ => replyTarget
  | IssueAnalysis _ _ _ _ replyTarget _ _ _ _ => replyTarget
  | GithubApi _ replyTarget _ _ _ _ => replyTarget
  end.

(** The call is addressed to the conversation [(channelId, replyTarget)]. *)
Definition inConversation (channelId replyTarget : string) (ev : Event Block) : bool :=
  match ev with
  | EvPostMessage args _ =>
      String.eqb (pm_channel args) channelId && String.eqb (pm_thread_ts args) replyTarget
  | EvChatUpdate c _ _ _ | EvChatDelete c _ _ => String.eqb c channelId
  | EvDeleteLast c r _ _ | EvGetMapping c r _ | EvStoreMapping c r _ _ _ =>
      String.eqb c channelId && String.eqb r replyTarget
  | EvCommand c _ =>
      String.eqb (commandChannel c) channelId && String.eqb (commandReplyTarget c) replyTarget
  | _ => true
  end.

(** No executor and no call of the LLM backend is given an empty name: the
    workspace of a query, of a new thread and of a stored mapping, the thread
    of a stored mapping, and the parameters of the commands. *)
Definition namesGiven (ev : Event Block) : bool :=
  match ev with
  | EvQueryLlm workspace _ _ _ => Js.truthy workspace
  | EvCreateThread workspace _ => Js.truthy workspace
  | EvStoreMapping _ _ workspace thread _ => Js.truthy workspace && Js.truthy thread
  | EvCommand (ReleaseInfo repo_id _ thinkingMessageTs _) _ =>
      Js.truthy repo_id && Js.truthy thinkingMessageTs
  | EvCommand (PrReview owner repo _ workspace_slug _ _ thinkingMessageTs) _ =>
      Js.truthy owner && Js.truthy repo && Js.truthy workspace_slug
      && Js.truthy thinkingMessageTs
  | EvCommand (IssueAnalysis _ _ _ _ _ _ thinkingMessageTs llmWs llmThread) _ =>
      Js.truthy llmWs && Js.truthy llmThread && Js.truthy thinkingMessageTs
  | EvCommand (GithubApi api_query _ _ thinkingMessageTs _ _) _ =>
      Js.truthy api_query && Js.truthy thinkingMessageTs
  | _ => true
  end.

(** The thinking message is turned into one of the two notices about the
    form of a command (lines 168 and 219). *)
Definition isFormatNotice (ev : Event Block) : bool :=
  match ev with
  | EvChatUpdate _ _ MsgInvalidPrFormat _ | EvChatUpdate _ _ MsgInvalidIssueNumber _ => true
  | _ => false
  end.

(** A post has a text: the [text] of the message is not the empty string. *)
Definition hasText (ev : Event Block) : bool :=
  match ev with
  | EvPostMessage args _ =>
      match pm_text args with
      | FromReply s => Js.truthy s
      | _ => true
      end
  | _ => true
  end.

End InvariantDefs.

Section HelperDefs.

Context {Block : Type}.

(** The calls of [chat.update] and [chat.delete] in a trace. *)
Definition slackEdits (t : Trace Block) : nat :=
  List.length (filter touchesThinkingMessage t).

End HelperDefs.


(** ** What a block throws *)

Section ThrowDefs.

Context {Block World : Type}.

Definition isIssueAnalysis (c : Command) : bool :=
  match c with IssueAnalysis _ _ _ _ _ _ _ _ _ => true | _ => false end.

(** The call that threw [e] is one whose error the handler lets through: the
    delete handler, or an executor that is not awaited inside a [try]. *)
Definition letsThrough (e : Error) (ev : Event Block) : Prop :=
  (exists channelId replyTarget botUser, ev = EvDeleteLast channelId replyTarget botUser (Threw e))
  \/ (exists c, isIssueAnalysis c = false /\ ev = EvCommand c (Threw e)).

(** The trace ends with such a call. *)
Definition endsInThrow (e : Error) (t : Trace Block) : Prop :=
  exists t0 ev, t = t0 ++ [ev] /\ letsThrough e ev.

(** The block is left normally from every state. *)
Definition neverThrows {A} (m : M Block World A) : Prop :=
  forall st, exists a, outcomeOf m st = Returned a.

(** When the block throws, the last thing it did is a call that threw the
    same error and that the handler lets through. *)
Definition throwsOnlyThrough {A} (m : M Block World A) : Prop :=
  forall st e, outcomeOf m st = Threw e -> endsInThrow e (traceOf m st).

End ThrowDefs.


(** ** Threads and their mappings *)

Section ThreadDefs.

Context {Block World : Type}.

(** Every thread that is created is stored at once as the mapping of the
    conversation [(channelId, replyTarget)], with the workspace it was created
    in, and nothing else is stored. *)
Fixpoint threadsStored (channelId replyTarget : string) (t : Trace Block) : bool :=
  match t with
  | [] => true
  | EvCreateThread workspace (Returned thread) :: t' =>
      if Js.truthy thread then
        match t' with
        | EvStoreMapping c r workspace' thread' _ :: t'' =>
            String.eqb c channelId && String.eqb r replyTarget
            && String.eqb workspace' workspace && String.eqb thread' thread
            && threadsStored channelId replyTarget t''
        | _ => false
        end
      else threadsStored channelId replyTarget t'
  | EvStoreMapping _ _ _ _ _ :: _ => false
  | _ :: t' => threadsStored channelId replyTarget t'
  end.

Definition storesThreads (channelId replyTarget : string) {A} (m : M Block World A) : Prop :=
  forall st, threadsStored channelId replyTarget (traceOf m st) = true.

End ThreadDefs.


(** ** The course of the fallback path *)

Section PathDefs.

Context {Block World : Type}.

(** What a trace shows of one kind of call, in order. *)
Definition collect {X} (pick : Event Block -> option X) (t : Trace Block) : list X :=
  flat_map (fun ev => match pick ev with Some x => [x] | None => [] end) t.

(** The workspaces threads were created in; the mappings stored; the queries
    made; the messages posted; the messages deleted. *)
Definition createsOf : Trace Block -> list string :=
  collect (fun ev => match ev with EvCreateThread workspace _ => Some workspace | _ => None end).

Definition storesOf : Trace Block -> list (string * string * string * string) :=
  collect (fun ev => match ev with
                     | EvStoreMapping c r workspace thread _ => Some (c, r, workspace, thread)
                     | _ => None
                     end).

Definition queriesOf : Trace Block -> list (string * string * string) :=
  collect (fun ev => match ev with
                     | EvQueryLlm workspace thread input _ => Some (workspace, thread, input)
                     | _ => None
                     end).

Definition postsOf : Trace Block -> list (PostArgs Block) :=
  collect (fun ev => match ev with EvPostMessage args _ => Some args | _ => None end).

Definition deletesOf : Trace Block -> list (string * string) :=
  collect (fun ev => match ev with EvChatDelete c ts _ => Some (c, ts) | _ => None end).

(** The [catch] clause of the fallback path received an error. *)
Definition isPathCatch (ev : Event Block) : bool :=
  match ev with Caught CatchFallbackPath _ => true | _ => false end.

(** The kinds of event written before the LLM is asked: the classifier, the
    workspace, the thread and its mapping. *)
Definition setupKinds : list EventKind :=
  [KLog; KDetectIntent; KDetermineWorkspace; KGetMapping; KCreateThread; KStoreMapping].

Variable cfg : Config.
Variable fmt : Formatting Block.
Variable sv : Services Block World.
Variables (q ch rt ots : string).

(** The three ways the body of the [try] of the fallback path can go, from a
    state in which the thinking message is [thinkingTs st]. It throws before
    the LLM is asked, with the thinking message untouched. *)
Definition EndsBeforeQuery (m : M Block World unit) (st : State World) : Prop :=
  (exists e, outcomeOf m st = Threw e)
  /\ thinkingTs (stateOf m st) = thinkingTs st
  /\ forallb (ofKinds setupKinds) (traceOf m st) = true.

(** The progress note is written and the query throws. *)
Definition QueryThrew (m : M Block World unit) (st : State World) : Prop :=
  exists workspace thread e pre st0,
    outcomeOf m st = Threw e
    /\ thinkingTs (stateOf m st) = thinkingTs st
    /\ forallb (ofKinds setupKinds) pre = true
    /\ traceOf m st
       = pre
         ++ traceOf (updateOrDeleteThinkingMessage sv (thinkingTs st) ch
                       (Some (MsgThinkingIn workspace))) st0
         ++ [Log Info "[Msg Handler] Querying LLM" None;
             EvQueryLlm workspace thread (llmInput cfg q) (Threw e)].

(** The progress note is written, the query returns, the thinking message is
    deleted and forgotten, and the reply is posted. *)
Definition QueryReturned (m : M Block World unit) (st : State World) : Prop :=
  exists workspace thread r pre st0 st1 st2,
    outcomeOf m st
    = outcomeOf (postReply cfg fmt sv ch rt ots workspace
                   (match r with Some s => Js.trim s | None => "" end)) st2
    /\ thinkingTs (stateOf m st) = ""
    /\ forallb (ofKinds setupKinds) pre = true
    /\ traceOf m st
       = pre
         ++ traceOf (updateOrDeleteThinkingMessage sv (thinkingTs st) ch
                       (Some (MsgThinkingIn workspace))) st0
         ++ [Log Info "[Msg Handler] Querying LLM" None;
             EvQueryLlm workspace thread (llmInput cfg q) (Returned r)]
         ++ traceOf (updateOrDeleteThinkingMessage sv (thinkingTs st) ch None) st1
         ++ traceOf (postReply cfg fmt sv ch rt ots workspace
                       (match r with Some s => Js.trim s | None => "" end)) st2.

(** What follows the body of the [try]: the [catch] clause when the body
    threw, with the thinking message still there ([alive]) or already gone,
    and the line of the [finally] clause. *)
Definition pathTail (t : string) (alive : bool) (o : Outcome unit) (st1 : State World)
  : Trace Block :=
  match o with
  | Returned _ => []
  | Threw e =>
      Caught CatchFallbackPath e
      :: Log Err "[Msg Handler Error - Intent/LLM Path]" (Some e)
      :: (if alive
          then traceOf (updateOrDeleteThinkingMessage sv t ch (Some (MsgOops (message e)))) st1
          else
            let r := fst (chat_postMessage sv
                            {| pm_channel := ch; pm_thread_ts := rt;
                               pm_text := MsgOops (message e); pm_blocks := None |}
                            (world st1)) in
            EvPostMessage {| pm_channel := ch; pm_thread_ts := rt;
                             pm_text := MsgOops (message e); pm_blocks := None |} r
            :: match r with
               | Threw e' => [Caught CatchErrorNotice e']
               | Returned _ => []
               end)
  end
  ++ [Log Info "[Msg Handler - Fallback Path] Finished processing." None].

Definition BodyRun (m : M Block World unit) : Prop :=
  forall st, EndsBeforeQuery m st \/ QueryThrew m st \/ QueryReturned m st.

End PathDefs.

Section SilenceDefs.

Context {Block : Type}.

(** A part of the trace that shows nothing of the thinking message, the
    query, the [catch] clause of the path or the reply. *)
Record Silent (t : Trace Block) : Prop := {
  silent_updates : updatesOf t = [];
  silent_deletes : deletesOf t = [];
  silent_queries : never isLlmQuery t;
  silent_catch : never isPathCatch t;
  silent_replies : replyPostsOf t = []
}.

End SilenceDefs.

Section ReplyDefs2.

Context {Block : Type}.

(** A post of the feedback buttons is the one of lines 403-411 for the
    workspace [workspace]: in the thread, with the block id
    [feedback_<originalTs>_<workspace>]. Any other event passes. *)
Definition isFeedbackFor (channelId replyTarget originalTs workspace : string)
    (ev : Event Block) : bool :=
  match ev with
  | EvPostMessage args _ =>
      match pm_blocks args with
      | Some (FeedbackBlock block_id _) =>
          String.eqb block_id ("feedback_" ++ originalTs ++ "_" ++ workspace)%string
          && String.eqb (pm_channel args) channelId
          && String.eqb (pm_thread_ts args) replyTarget
      | _ => true
      end
  | _ => true
  end.

End ReplyDefs2.

Section ShowDefs.

Context {Block World : Type}.

(** What a block shows of the executors and of the thinking message: the
    executor calls with their results, the texts it was updated to, and no
    delete. *)
Definition Shows {A} (m : M Block World A) (st : State World)
    (results : list (Command * Outcome bool)) (updates : list Msg) : Prop :=
  commandResultsOf (traceOf m st) = results
  /\ updatesOf (traceOf m st) = updates
  /\ deletesOf (traceOf m st) = [].

(** What the handler makes of the thinking message after the call of an
    executor: nothing when the executor says the command is handled, the
    unknown-command notice when it says it is not, the set-up error of the
    issue command when the issue analysis throws, and nothing when another
    executor throws. *)
Definition reactionTo (c : Command) (r : Outcome bool) : list Msg :=
  match r with
  | Returned true => []
  | Returned false => [MsgUnknownCommand]
  | Threw e => if isIssueAnalysis c then [MsgContextError (message e)] else []
  end.

(** A trace in which, for every executor call it holds, the thinking message
    is updated as [reactionTo] says and is not deleted. *)
Definition Reacts (t : Trace Block) : Prop :=
  forall c r, In (c, r) (commandResultsOf t) ->
    updatesOf t = reactionTo c r /\ deletesOf t = [].

End ShowDefs.


(** ** More scripts *)

Module Failures.
Import Scenario.

Definition boom : Error := newError "socket hang up".

Definition withExecuted (x : Outcome bool) (s : Script) : Script :=
  {| posted := posted s; updated := updated s; deleted := deleted s;
     executed := x; newThread := newThread s; workspace := workspace s;
     detected := detected s; reply := reply s |}.

Definition withWorkspace (x : Outcome string) (s : Script) : Script :=
  {| posted := posted s; updated := updated s; deleted := deleted s;
     executed := executed s; newThread := newThread s; workspace := x;
     detected := detected s; reply := reply s |}.

Definition withPosted (p : PostArgs string -> Outcome (option string)) (s : Script)
  : Script :=
  {| posted := p; updated := updated s; deleted := deleted s;
     executed := executed s; newThread := newThread s; workspace := workspace s;
     detected := detected s; reply := reply s |}.

(** Slack takes the thinking message and refuses every other post. *)
Definition onlyThinkingPosts (args : PostArgs string) : Outcome (option string) :=
  match pm_text args with
  | MsgProcessing => Returned (Some "1700000000.000200")
  | _ => Threw boom
  end.

(** The configuration with the command prefix in capitals. *)
Definition configCapitals : Config := {|
  botUserId := "U0BOT";
  githubWorkspaceSlug := "github";
  formatterWorkspaceSlug := "formatter";
  MIN_SUBSTANTIVE_RESPONSE_LENGTH := 11;
  GITHUB_OWNER := "acme";
  githubToken := "ghp_token";
  COMMAND_PREFIX := "GH>";
  WORKSPACE_OVERRIDE_COMMAND_PREFIX := "#";
  intentRoutingEnabled := true;
  intentConfidenceThreshold := 0.75%float
|}.

(** An event without a text, as of a file share. *)
Definition withoutText : SlackEvent :=
  {| user := "U1USER"; text := None; channel := "C1CHAN";
     ts := "1700000000.000100"; thread_ts := None |}.

End Failures.

(** * Properties *)

(** ** The monad *)

Section MonadFacts.

Context {Block World : Type}.

Local Abbreviation H := (M Block World).
Local Abbreviation Event := (Event Block).

Lemma run_eta {A} (m : H A) (st : State World) :
  m st = (outcomeOf m st, stateOf m st, traceOf m st).
Proof. unfold outcomeOf, stateOf, traceOf. destruct (m st) as [[r s] t]. reflexivity. Qed.

Lemma traceOf_bind {A B} (m : H A) (f : A -> H B) (st : State World) :
  traceOf (bind m f) st =
  match outcomeOf m st with
  | Returned a => traceOf m st ++ traceOf (f a) (stateOf m st)
  | Threw _ => traceOf m st
  end.
Proof.
  unfold traceOf, outcomeOf, stateOf, bind.
  destruct (m st) as [[[a | e] st1] t1]; simpl; [ | reflexivity ].
  destruct (f a st1) as [[r st2] t2]. reflexivity.
Qed.

Lemma outcomeOf_bind {A B} (m : H A) (f : A -> H B) (st : State World) :
  outcomeOf (bind m f) st =
  match outcomeOf m st with
  | Returned a => outcomeOf (f a) (stateOf m st)
  | Threw e => Threw e
  end.
Proof.
  unfold traceOf, outcomeOf, stateOf, bind.
  destruct (m st) as [[[a | e] st1] t1]; simpl; [ | reflexivity ].
  destruct (f a st1) as [[r st2] t2]. reflexivity.
Qed.

Lemma stateOf_bind {A B} (m : H A) (f : A -> H B) (st : State World) :
  stateOf (bind m f) st =
  match outcomeOf m st with
  | Returned a => stateOf (f a) (stateOf m st)
  | Threw e => stateOf m st
  end.
Proof.
  unfold traceOf, outcomeOf, stateOf, bind.
  destruct (m st) as [[[a | e] st1] t1]; simpl; [ | reflexivity ].
  destruct (f a st1) as [[r st2] t2]. reflexivity.
Qed.

Lemma traceOf_tryCatch {A} site (m : H A) (h : Error -> H A) (st : State World) :
  traceOf (tryCatch site m h) st =
  match outcomeOf m st with
  | Returned _ => traceOf m st
  | Threw e => traceOf m st ++ Caught site e :: traceOf (h e) (stateOf m st)
  end.
Proof.
  unfold traceOf, outcomeOf, stateOf, tryCatch.
  destruct (m st) as [[[a | e] st1] t1]; simpl; [ reflexivity | ].
  destruct (h e st1) as [[r st2] t2]. reflexivity.
Qed.

Lemma outcomeOf_tryCatch {A} site (m : H A) (h : Error -> H A) (st : State World) :
  outcomeOf (tryCatch site m h) st =
  match outcomeOf m st with
  | Returned a => Returned a
  | Threw e => outcomeOf (h e) (stateOf m st)
  end.
Proof.
  unfold traceOf, outcomeOf, stateOf, tryCatch.
  destruct (m st) as [[[a | e] st1] t1]; simpl; [ reflexivity | ].
  destruct (h e st1) as [[r st2] t2]. reflexivity.
Qed.

Lemma stateOf_tryCatch {A} site (m : H A) (h : Error -> H A) (st : State World) :
  stateOf (tryCatch site m h) st =
  match outcomeOf m st with
  | Returned a => stateOf m st
  | Threw e => stateOf (h e) (stateOf m st)
  end.
Proof.
  unfold traceOf, outcomeOf, stateOf, tryCatch.
  destruct (m st) as [[[a | e] st1] t1]; simpl; [ reflexivity | ].
  destruct (h e st1) as [[r st2] t2]. reflexivity.
Qed.

Lemma traceOf_tryFinally {A} (m : H A) (c : H unit) (st : State World) :
  traceOf (tryFinally m c) st = traceOf m st ++ traceOf c (stateOf m st).
Proof.
  unfold traceOf, outcomeOf, stateOf, tryFinally.
  destruct (m st) as [[r st1] t1]; simpl.
  destruct (c st1) as [[[[] | e] st2] t2]; reflexivity.
Qed.

Lemma outcomeOf_tryFinally {A} (m : H A) (c : H unit) (st : State World) :
  outcomeOf (tryFinally m c) st =
  match outcomeOf c (stateOf m st) with
  | Returned _ => outcomeOf m st
  | Threw e => Threw e
  end.
Proof.
  unfold traceOf, outcomeOf, stateOf, tryFinally.
  destruct (m st) as [[r st1] t1]; simpl.
  destruct (c st1) as [[[[] | e] st2] t2]; reflexivity.
Qed.

(** *** Rules for [emits] *)

Variable ok : Event -> bool.

Lemma emits_ret {A} (a : A) : emits ok (ret (World := World) a).
Proof. intros st. reflexivity. Qed.

Lemma emits_throw {A} (e : Error) : emits ok (throw (World := World) (A := A) e).
Proof. intros st. reflexivity. Qed.

Lemma emits_emit ev : ok ev = true -> emits ok (emit (World := World) ev).
Proof. intros Hev st. unfold traceOf, emit. simpl. now rewrite Hev. Qed.

Lemma emits_call {A} (svc : World -> Outcome A * World) (ev : Outcome A -> Event) :
  (forall r, ok (ev r) = true) -> emits ok (call svc ev).
Proof.
  intros Hev st. unfold traceOf, call. destruct (svc (world st)) as [r w].
  simpl. now rewrite Hev.
Qed.

Lemma emits_get : emits ok (getThinkingTs (Block := Block) (World := World)).
Proof. intros st. reflexivity. Qed.

Lemma emits_set v : emits ok (setThinkingTs (Block := Block) (World := World) v).
Proof. intros st. reflexivity. Qed.

Lemma emits_bind {A B} (m : H A) (f : A -> H B) :
  emits ok m -> (forall a, emits ok (f a)) -> emits ok (bind m f).
Proof.
  intros Hm Hf st. rewrite traceOf_bind.
  destruct (outcomeOf m st); [ | apply Hm ].
  rewrite forallb_app, Hm, Hf. reflexivity.
Qed.

Lemma emits_tryCatch {A} site (m : H A) (h : Error -> H A) :
  emits ok m -> (forall e, ok (Caught site e) = true) -> (forall e, emits ok (h e)) ->
  emits ok (tryCatch site m h).
Proof.
  intros Hm Hc Hh st. rewrite traceOf_tryCatch.
  destruct (outcomeOf m st); [ apply Hm | ].
  rewrite forallb_app, Hm. simpl. rewrite Hc, Hh. reflexivity.
Qed.

Lemma emits_tryFinally {A} (m : H A) (c : H unit) :
  emits ok m -> emits ok c -> emits ok (tryFinally m c).
Proof.
  intros Hm Hc st. rewrite traceOf_tryFinally, forallb_app, Hm, Hc. reflexivity.
Qed.

End MonadFacts.

Section PrimitiveRuns.

Context {Block World : Type}.

Local Abbreviation Event := (Event Block).
Implicit Types st : State World.

Lemma outcomeOf_ret {A} (a : A) st : outcomeOf (ret (Block := Block) a) st = Returned a.
Proof. reflexivity. Qed.

Lemma stateOf_ret {A} (a : A) st : stateOf (ret (Block := Block) a) st = st.
Proof. reflexivity. Qed.

Lemma traceOf_ret {A} (a : A) st : traceOf (ret (Block := Block) a) st = [].
Proof. reflexivity. Qed.

Lemma outcomeOf_throw {A} e st :
  outcomeOf (throw (Block := Block) (A := A) e) st = Threw e.
Proof. reflexivity. Qed.

Lemma stateOf_throw {A} e st : stateOf (throw (Block := Block) (A := A) e) st = st.
Proof. reflexivity. Qed.

Lemma traceOf_throw {A} e st : traceOf (throw (Block := Block) (A := A) e) st = [].
Proof. reflexivity. Qed.

Lemma outcomeOf_emit (ev : Event) st : outcomeOf (emit ev) st = Returned tt.
Proof. reflexivity. Qed.

Lemma stateOf_emit (ev : Event) st : stateOf (emit ev) st = st.
Proof. reflexivity. Qed.

Lemma traceOf_emit (ev : Event) st : traceOf (emit ev) st = [ev].
Proof. reflexivity. Qed.

Lemma outcomeOf_call {A} (svc : World -> Outcome A * World) (ev : Outcome A -> Event) st :
  outcomeOf (call svc ev) st = fst (svc (world st)).
Proof. unfold outcomeOf, call. destruct (svc (world st)). reflexivity. Qed.

Lemma stateOf_call {A} (svc : World -> Outcome A * World) (ev : Outcome A -> Event) st :
  stateOf (call svc ev) st
  = {| world := snd (svc (world st)); thinkingTs := thinkingTs st |}.
Proof. unfold stateOf, call. destruct (svc (world st)). reflexivity. Qed.

Lemma traceOf_call {A} (svc : World -> Outcome A * World) (ev : Outcome A -> Event) st :
  traceOf (call svc ev) st = [ev (fst (svc (world st)))].
Proof. unfold traceOf, call. destruct (svc (world st)). reflexivity. Qed.

Lemma outcomeOf_get st :
  outcomeOf (getThinkingTs (Block := Block)) st = Returned (thinkingTs st).
Proof. reflexivity. Qed.

Lemma stateOf_get st : stateOf (getThinkingTs (Block := Block)) st = st.
Proof. reflexivity. Qed.

Lemma traceOf_get st : traceOf (getThinkingTs (Block := Block)) st = [].
Proof. reflexivity. Qed.

Lemma outcomeOf_set v st : outcomeOf (setThinkingTs (Block := Block) v) st = Returned tt.
Proof. reflexivity. Qed.

Lemma stateOf_set v st :
  stateOf (setThinkingTs (Block := Block) v) st
  = {| world := world st; thinkingTs := v |}.
Proof. reflexivity. Qed.

Lemma traceOf_set v st : traceOf (setThinkingTs (Block := Block) v) st = [].
Proof. reflexivity. Qed.

End PrimitiveRuns.

Create Rewrite HintDb run.

#[global] Hint Rewrite
  @outcomeOf_bind @stateOf_bind @traceOf_bind
  @outcomeOf_tryCatch @stateOf_tryCatch @traceOf_tryCatch
  @outcomeOf_tryFinally @traceOf_tryFinally
  @outcomeOf_ret @stateOf_ret @traceOf_ret
  @outcomeOf_throw @stateOf_throw @traceOf_throw
  @outcomeOf_emit @stateOf_emit @traceOf_emit
  @outcomeOf_call @stateOf_call @traceOf_call
  @outcomeOf_get @stateOf_get @traceOf_get
  @outcomeOf_set @stateOf_set @traceOf_set : run.

(** Normal form of the run of a block whose operations are all in sight. *)
Ltac run_norm :=
  unfold log, logError, postMessage in *;
  repeat (autorewrite with run; cbn [world thinkingTs fst snd app negb]).

(** One rule of [emits], or a case split on what the block branches on. *)
Ltac emits_step :=
  match goal with
  | |- emits _ (ret _) => apply emits_ret
  | |- emits _ (throw _) => apply emits_throw
  | |- emits _ (emit _) => apply emits_emit; reflexivity
  | |- emits _ (log _ _) => apply emits_emit; reflexivity
  | |- emits _ (logError _ _ _) => apply emits_emit; reflexivity
  | |- emits _ (call _ _) => apply emits_call; intros; reflexivity
  | |- emits _ (postMessage _ _) => apply emits_call; intros; reflexivity
  | |- emits _ getThinkingTs => apply emits_get
  | |- emits _ (setThinkingTs _) => apply emits_set
  | |- emits _ (bind _ _) => apply emits_bind; [ | intros ]
  | |- emits _ (tryCatch _ _ _) => apply emits_tryCatch; [ | intros; reflexivity | intros ]
  | |- emits _ (tryFinally _ _) => apply emits_tryFinally
  | |- emits _ (if ?b then _ else _) => destruct b
  | |- emits _ (match ?x with _ => _ end) => destruct x
  end.


(** ** The command patterns exclude one another *)


Section PatternFacts.

Import Regex.

Lemma rmatch_seq {R} (r1 r2 : regex) (s : string) (caps : Captures) (k : Cont R) :
  rmatch (Seq r1 r2) s caps k = rmatch r1 s caps (fun s' caps' => rmatch r2 s' caps' k).
Proof. reflexivity. Qed.

Lemma rmatch_alt {R} (r1 r2 : regex) (s : string) (caps : Captures) (k : Cont R) :
  rmatch (Alt r1 r2) s caps k
  = match rmatch r1 s caps k with Some c => Some c | None => rmatch r2 s caps k end.
Proof. reflexivity. Qed.

Lemma rmatch_litCI {R} (p s : string) (caps : Captures) (k : Cont R) :
  rmatch (litCI p) s caps k
  = match stripCI p s with Some s' => k s' caps | None => None end.
Proof.
  revert s. induction p as [ | c p IH ]; intros s; [ reflexivity | ].
  cbn [litCI rmatch stripCI charCI]. destruct s as [ | x s ]; [ reflexivity | ].
  destruct (Ascii.eqb _ _); [ apply IH | reflexivity ].
Qed.

Lemma trimStart_id (s : string) : startsWithSpace s = false -> Js.trimStart s = s.
Proof. destruct s as [ | c s ]; cbn; [ reflexivity | ]. intros ->. reflexivity. Qed.

(** White space before something that does not start with white space: the
    greedy [\s*] has to take all of it. *)
Lemma iterate_ws {R} (fuel : nat) (s : string) (caps : Captures) (k : Cont R) (c : R) :
  (forall s' caps', k s' caps' = Some c -> startsWithSpace s' = false) ->
  String.length s <= fuel ->
  iterate (rmatch Patterns.ws) fuel s caps k = Some c ->
  k (Js.trimStart s) caps = Some c.
Proof.
  intros Hk. revert s. induction fuel as [ | fuel IH ]; intros s Hlen H.
  - destruct s; [ exact H | cbn in Hlen; lia ].
  - cbn [iterate] in H. unfold Patterns.ws in H at 1. cbn [rmatch] in H.
    destruct s as [ | x s ]; [ exact H | ].
    destruct (Js.isWhiteSpace x) eqn:Hx.
    + cbn [String.length] in H. rewrite (proj2 (Nat.ltb_lt _ _) (Nat.lt_succ_diag_r _)) in H.
      cbn [Js.trimStart]. rewrite Hx.
      destruct (iterate (rmatch Patterns.ws) fuel s caps k) as [c0 | ] eqn:Hit.
      * injection H as ->. apply IH; [ cbn in Hlen; lia | exact Hit ].
      * apply Hk in H. cbn in H. congruence.
    + rewrite trimStart_id; [ exact H | exact Hx ].
Qed.

Lemma rmatch_star_ws {R} (s : string) (caps : Captures) (k : Cont R) (c : R) :
  (forall s' caps', k s' caps' = Some c -> startsWithSpace s' = false) ->
  rmatch (Star Patterns.ws) s caps k = Some c ->
  k (Js.trimStart s) caps = Some c.
Proof. intros Hk H. cbn [rmatch] in H. eapply iterate_ws; eauto. Qed.

Lemma canon_of_space (x : ascii) : Js.isWhiteSpace x = true -> Js.canonChar x = x.
Proof.
  destruct x as [[] [] [] [] [] [] [] []]; vm_compute; intros H;
    first [ reflexivity | discriminate H ].
Qed.

Lemma stripCI_canonTake (kw s s' : string) (n : nat) :
  stripCI kw s = Some s' -> n <= String.length kw -> canonTake n s = canonTake n kw.
Proof.
  revert s n. induction kw as [ | c kw IH ]; intros s n H Hn.
  - cbn in Hn. assert (n = 0) as -> by lia. destruct s; reflexivity.
  - destruct s as [ | x s ]; [ discriminate | ]. cbn [stripCI] in H.
    destruct (Ascii.eqb _ _) eqn:Heq; [ | discriminate ].
    apply Ascii.eqb_eq in Heq. destruct n as [ | n ]; [ reflexivity | ].
    cbn [canonTake]. rewrite Heq. f_equal. apply (IH s n H). cbn in Hn. lia.
Qed.

(** A word that starts with a letter is not found at white space. *)
Lemma says_no_space (kw s : string) :
  says kw s = true ->
  match kw with String c _ => Js.isWhiteSpace (Js.canonChar c) = false | _ => False end ->
  startsWithSpace s = false.
Proof.
  unfold says. destruct kw as [ | c kw ]; [ contradiction | ].
  destruct s as [ | x s ]; [ reflexivity | ]. cbn [stripCI startsWithSpace].
  destruct (Ascii.eqb _ _) eqn:Heq; [ | discriminate ]. intros _ Hc.
  apply Ascii.eqb_eq in Heq.
  destruct (Js.isWhiteSpace x) eqn:Hx; [ | reflexivity ].
  rewrite (canon_of_space x Hx) in Heq. congruence.
Qed.

(** Two words that differ in their first three letters are not both said. *)
Lemma says_apart (kw1 kw2 s : string) :
  3 <= String.length kw1 -> 3 <= String.length kw2 ->
  canonTake 3 kw1 <> canonTake 3 kw2 ->
  says kw1 s = true -> says kw2 s = false.
Proof.
  intros H1 H2 Hne. unfold says.
  destruct (stripCI kw1 s) as [s1 | ] eqn:E1; [ | discriminate ].
  destruct (stripCI kw2 s) as [s2 | ] eqn:E2; [ | reflexivity ].
  intros _. exfalso. apply Hne.
  rewrite <- (stripCI_canonTake kw1 s s1 3 E1 H1).
  apply (stripCI_canonTake kw2 s s2 3 E2 H2).
Qed.

Variable cfg : Config.

(** A pattern that is the prefix, blanks and a command word, then more: a
    match says the command word. *)
Lemma prefix_word_match {R} (word rest : regex) (W : string -> bool)
    (q : string) (k : Cont R) (c : R) :
  (forall s caps (k' : Cont R) c', rmatch word s caps k' = Some c' -> W s = true) ->
  (forall s, W s = true -> startsWithSpace s = false) ->
  rmatch (Seq (Patterns.CMD_PREFIX cfg) (Seq (Star Patterns.ws) (Seq word rest))) q [] k
  = Some c ->
  match afterPrefix cfg q with Some s => W s | None => false end = true.
Proof.
  intros Hword Hspace H. unfold Patterns.CMD_PREFIX, afterPrefix in *.
  rewrite rmatch_seq, rmatch_litCI in H.
  destruct (stripCI (COMMAND_PREFIX cfg) q) as [s1 | ]; [ | discriminate ].
  cbn [option_map]. rewrite rmatch_seq in H.
  apply rmatch_star_ws in H.
  - rewrite rmatch_seq in H. eapply Hword. exact H.
  - intros s' caps' H'. rewrite rmatch_seq in H'. eapply Hspace, Hword. exact H'.
Qed.

Lemma litCI_says {R} (kw s : string) caps (k : Cont R) c :
  rmatch (litCI kw) s caps k = Some c -> says kw s = true.
Proof.
  rewrite rmatch_litCI. unfold says. destruct (stripCI kw s); [ reflexivity | discriminate ].
Qed.

Lemma release_word (q : string) (groups : Captures) :
  matchAnchored (Patterns.RELEASE_REGEX cfg) q = Some groups ->
  commandWordIs cfg "release" q = true.
Proof.
  unfold matchAnchored, Patterns.RELEASE_REGEX, commandWordIs. cbn [seqs].
  apply prefix_word_match.
  - intros s caps k' c'. apply litCI_says.
  - intros s Hs. apply (says_no_space "release" s Hs). reflexivity.
Qed.

Lemma review_word (q : string) (groups : Captures) :
  matchAnchored (Patterns.PR_REVIEW_REGEX cfg) q = Some groups ->
  commandWordIs cfg "review" q = true.
Proof.
  unfold matchAnchored, Patterns.PR_REVIEW_REGEX, commandWordIs. cbn [seqs].
  apply prefix_word_match.
  - intros s caps k' c'. apply litCI_says.
  - intros s Hs. apply (says_no_space "review" s Hs). reflexivity.
Qed.

Lemma api_word (q : string) (groups : Captures) :
  matchAnchored (Patterns.GENERIC_API_REGEX cfg) q = Some groups ->
  commandWordIs cfg "api" q = true.
Proof.
  unfold matchAnchored, Patterns.GENERIC_API_REGEX, commandWordIs. cbn [seqs].
  apply prefix_word_match.
  - intros s caps k' c'. apply litCI_says.
  - intros s Hs. apply (says_no_space "api" s Hs). reflexivity.
Qed.

Lemma issue_word (q : string) (groups : Captures) :
  matchAnchored (Patterns.ISSUE_ANALYSIS_REGEX cfg) q = Some groups ->
  commandWordIs cfg "analyze" q || commandWordIs cfg "summarize" q
  || commandWordIs cfg "explain" q = true.
Proof.
  unfold matchAnchored, Patterns.ISSUE_ANALYSIS_REGEX, commandWordIs. cbn [seqs].
  intros H.
  apply (prefix_word_match _ _
           (fun s => says "analyze" s || says "summarize" s || says "explain" s)) in H.
  - destruct (afterPrefix cfg q); [ exact H | discriminate ].
  - intros s caps k' c'. rewrite !rmatch_alt.
    destruct (rmatch (litCI "analyze") s caps k') eqn:E1.
    { intros _. now rewrite (litCI_says _ _ _ _ _ E1). }
    destruct (rmatch (litCI "summarize") s caps k') eqn:E2.
    { intros _. rewrite (litCI_says _ _ _ _ _ E2). apply orb_true_iff. left.
      apply orb_true_r. }
    intros E3. rewrite (litCI_says _ _ _ _ _ E3). apply orb_true_r.
  - intros s Hs. apply orb_true_iff in Hs as [Hs | Hs];
      [ apply orb_true_iff in Hs as [Hs | Hs] | ].
    + apply (says_no_space "analyze" s Hs). reflexivity.
    + apply (says_no_space "summarize" s Hs). reflexivity.
    + apply (says_no_space "explain" s Hs). reflexivity.
Qed.

(** At most one of the four patterns matches a text. *)
Lemma words_apart (kw1 kw2 q : string) :
  3 <= String.length kw1 -> 3 <= String.length kw2 ->
  canonTake 3 kw1 <> canonTake 3 kw2 ->
  commandWordIs cfg kw1 q = true -> commandWordIs cfg kw2 q = false.
Proof.
  unfold commandWordIs. destruct (afterPrefix cfg q); [ | reflexivity ].
  apply says_apart.
Qed.

End PatternFacts.

Section Exclusion.

Variable cfg : Config.

Lemma requiredGroup_matched (name : string) (r : Regex.regex) (q v : string) :
  requiredGroup name r q = Some v -> exists groups, Regex.matchAnchored r q = Some groups.
Proof.
  unfold requiredGroup. destruct (Regex.matchAnchored r q) as [groups | ]; [ | discriminate ].
  eauto.
Qed.

Lemma requiredGroup_unmatched (name : string) (r : Regex.regex) (q : string) :
  Regex.matchAnchored r q = None -> requiredGroup name r q = None.
Proof. unfold requiredGroup. intros ->. reflexivity. Qed.

Ltac apart :=
  match goal with
  | Hyes : commandWordIs cfg ?kw1 ?q = true, Hno : commandWordIs cfg ?kw2 ?q = true |- _ =>
      rewrite (words_apart cfg kw1 kw2 q) in Hno;
      [ discriminate Hno
      | vm_compute; lia | vm_compute; lia
      | vm_compute; discriminate
      | exact Hyes ]
  end.

(** A text the release pattern matches is matched by no later pattern. *)
Lemma release_excludes (q : string) (groups : Regex.Captures) :
  Regex.matchAnchored (Patterns.RELEASE_REGEX cfg) q = Some groups ->
  Regex.matchAnchored (Patterns.PR_REVIEW_REGEX cfg) q = None
  /\ Regex.matchAnchored (Patterns.ISSUE_ANALYSIS_REGEX cfg) q = None
  /\ Regex.matchAnchored (Patterns.GENERIC_API_REGEX cfg) q = None.
Proof.
  intros H. apply release_word in H. repeat split.
  - destruct (Regex.matchAnchored (Patterns.PR_REVIEW_REGEX cfg) q) eqn:E; [ | reflexivity ].
    apply review_word in E. apart.
  - destruct (Regex.matchAnchored (Patterns.ISSUE_ANALYSIS_REGEX cfg) q) eqn:E;
      [ | reflexivity ].
    apply issue_word in E.
    apply orb_true_iff in E as [E | E]; [ apply orb_true_iff in E as [E | E] | ]; apart.
  - destruct (Regex.matchAnchored (Patterns.GENERIC_API_REGEX cfg) q) eqn:E; [ | reflexivity ].
    apply api_word in E. apart.
Qed.

Lemma review_excludes (q : string) (groups : Regex.Captures) :
  Regex.matchAnchored (Patterns.PR_REVIEW_REGEX cfg) q = Some groups ->
  Regex.matchAnchored (Patterns.ISSUE_ANALYSIS_REGEX cfg) q = None
  /\ Regex.matchAnchored (Patterns.GENERIC_API_REGEX cfg) q = None.
Proof.
  intros H. apply review_word in H. split.
  - destruct (Regex.matchAnchored (Patterns.ISSUE_ANALYSIS_REGEX cfg) q) eqn:E;
      [ | reflexivity ].
    apply issue_word in E.
    apply orb_true_iff in E as [E | E]; [ apply orb_true_iff in E as [E | E] | ]; apart.
  - destruct (Regex.matchAnchored (Patterns.GENERIC_API_REGEX cfg) q) eqn:E; [ | reflexivity ].
    apply api_word in E. apart.
Qed.

Lemma issue_excludes (q : string) (groups : Regex.Captures) :
  Regex.matchAnchored (Patterns.ISSUE_ANALYSIS_REGEX cfg) q = Some groups ->
  Regex.matchAnchored (Patterns.GENERIC_API_REGEX cfg) q = None.
Proof.
  intros H. apply issue_word in H.
  destruct (Regex.matchAnchored (Patterns.GENERIC_API_REGEX cfg) q) eqn:E; [ | reflexivity ].
  apply api_word in E.
  apply orb_true_iff in H as [H | H]; [ apply orb_true_iff in H as [H | H] | ]; apart.
Qed.

End Exclusion.


(** ** The helper [updateOrDeleteThinkingMessage] *)

Section Blocks.

Context {Block World : Type}.
Variable cfg : Config.
Variable fmt : Formatting Block.
Variable sv : Services Block World.

Local Abbreviation Event := (Event Block).
Implicit Types st : State World.

(** The helper never throws and leaves [thinkingMessageTs] alone. *)
Lemma update_outcome ts ch args st :
  outcomeOf (updateOrDeleteThinkingMessage sv ts ch args) st = Returned tt.
Proof.
  unfold updateOrDeleteThinkingMessage.
  destruct (Js.truthy ts); [ | reflexivity ].
  destruct (Js.truthy ch); [ | reflexivity ].
  cbn [negb]. rewrite outcomeOf_tryCatch.
  destruct args; rewrite outcomeOf_call;
    match goal with |- context [fst ?x] => destruct x as [[[] | e] w'] end;
    cbn [fst]; try reflexivity;
    match goal with |- context [if ?b then _ else _] => destruct b end; reflexivity.
Qed.

Lemma update_thinkingTs ts ch args st :
  thinkingTs (stateOf (updateOrDeleteThinkingMessage sv ts ch args) st) = thinkingTs st.
Proof.
  unfold updateOrDeleteThinkingMessage.
  destruct (Js.truthy ts); [ | reflexivity ].
  destruct (Js.truthy ch); [ | reflexivity ].
  cbn [negb]. rewrite stateOf_tryCatch.
  destruct args; rewrite outcomeOf_call, stateOf_call;
    match goal with |- context [fst ?x] => destruct x as [[[] | e] w'] end;
    cbn [fst snd]; try reflexivity;
    match goal with |- context [if ?b then _ else _] => destruct b end; reflexivity.
Qed.

(** What the helper writes when the timestamp and the channel are there: the
    one call, and after a failure the [catch] clause. *)
Lemma update_trace ts ch args st :
  Js.truthy ts = true -> Js.truthy ch = true ->
  exists r tl,
    traceOf (updateOrDeleteThinkingMessage sv ts ch args) st
    = match args with
      | Some txt => EvChatUpdate ch ts txt r
      | None => EvChatDelete ch ts r
      end :: tl
    /\ forallb (fun ev => match ev with Log _ _ _ | Caught _ _ => true | _ => false end) tl
       = true.
Proof.
  intros Hts Hch. unfold updateOrDeleteThinkingMessage. rewrite Hts, Hch. cbn [negb].
  rewrite traceOf_tryCatch.
  destruct args; rewrite outcomeOf_call, traceOf_call;
    match goal with |- context [fst ?x] => destruct x as [[[] | e] w'] end;
    cbn [fst snd app]; eexists; eexists; (split; [ reflexivity | ]);
    try reflexivity;
    match goal with |- context [if ?b then _ else _] => destruct b end; reflexivity.
Qed.

(** The helper writes only console lines, caught errors and its own call. *)
Lemma emits_update (ok : Event -> bool) ts ch args :
  (forall lvl l e, ok (Log lvl l e) = true) ->
  (forall e, ok (Caught CatchThinkingMessage e) = true) ->
  (forall r, ok (match args with
                 | Some txt => EvChatUpdate ch ts txt r
                 | None => EvChatDelete ch ts r
                 end) = true) ->
  emits ok (updateOrDeleteThinkingMessage sv ts ch args).
Proof.
  intros Hlog Hcaught Hcall. unfold updateOrDeleteThinkingMessage.
  destruct (Js.truthy ts); [ | apply emits_ret ].
  destruct (Js.truthy ch); cbn [negb]; [ | apply emits_emit, Hlog ].
  apply emits_tryCatch; [ | exact Hcaught | ].
  - destruct args; apply emits_call; exact Hcall.
  - intros e. destruct (_ && _); [ apply emits_emit, Hlog | apply emits_ret ].
Qed.

End Blocks.


(** ** Footprints: the kinds of events a block can write *)

Section Footprints.

Context {Block World : Type}.
Variable cfg : Config.
Variable fmt : Formatting Block.
Variable sv : Services Block World.

Local Abbreviation Event := (Event Block).
Implicit Types st : State World.

Lemma forallb_impl {A} (f g : A -> bool) (l : list A) :
  (forall x, f x = true -> g x = true) -> forallb f l = true -> forallb g l = true.
Proof.
  intros Hfg. induction l as [ | x l IH ]; [ reflexivity | ].
  cbn. intros H. apply andb_true_iff in H as [Hx Hl].
  now rewrite (Hfg _ Hx), IH.
Qed.

Lemma emits_weaken {A} (ok1 ok2 : Event -> bool) (m : M Block World A) :
  (forall ev, ok1 ev = true -> ok2 ev = true) -> emits ok1 m -> emits ok2 m.
Proof. intros Himp Hm st. exact (forallb_impl _ _ _ Himp (Hm st)). Qed.

Lemma emits_bind_outcome {A B} (ok : Event -> bool) (m : M Block World A)
    (f : A -> M Block World B) (P : A -> Prop) :
  emits ok m ->
  (forall st a, outcomeOf m st = Returned a -> P a) ->
  (forall a, P a -> emits ok (f a)) ->
  emits ok (bind m f).
Proof.
  intros Hm HP Hf st. rewrite traceOf_bind.
  destruct (outcomeOf m st) eqn:Ho; [ | apply Hm ].
  rewrite forallb_app, Hm, (Hf a (HP _ _ Ho)). reflexivity.
Qed.

Lemma emits_postSegments (ok : Event -> bool) ch rt segments i n last :
  (forall lvl l e, ok (Log lvl l e) = true) ->
  (forall s e, ok (Caught s e) = true) ->
  (forall ms, ok (Delay ms) = true) ->
  (forall txt blocks r,
      ok (EvPostMessage (post ch rt (FromReply txt) (option_map RichText blocks)) r) = true) ->
  emits ok (postSegments fmt sv ch rt segments i n last).
Proof.
  intros Hlog Hcaught Hdelay Hpost.
  revert i last. induction segments as [ | segment rest IH ]; intros i last.
  - apply emits_ret.
  - cbn [postSegments]. destruct (segmentTexts segment) as [segmentText fallbackText].
    destruct (Js.truthy segmentText); cbn [negb]; [ | apply IH ].
    apply emits_bind; [ | intros last' ].
    + unfold postSegment. apply emits_tryCatch; [ | auto | intros e ].
      * destruct (markdownToRichTextBlock fmt segmentText) as [b | ].
        -- apply emits_call. intros r. apply (Hpost _ (Some b)).
        -- apply emits_bind; [ apply emits_emit, Hlog | intros _ ].
           apply emits_call. intros r. apply (Hpost _ None).
      * apply emits_bind; [ apply emits_emit, Hlog | intros _ ].
        destruct (markdownToRichTextBlock fmt segmentText) as [b | ];
          [ | apply emits_ret ].
        apply emits_tryCatch; [ | auto | intros; apply emits_ret ].
        apply emits_call. intros r. apply (Hpost _ None).
    + apply emits_bind; [ | intros _; apply IH ].
      destruct (_ && _); [ apply emits_emit, Hdelay | apply emits_ret ].
Qed.

End Footprints.

(** Unfolds the blocks of the handler and applies the rules of [emits]; the
    test must compute on each event. *)
Ltac emits_blocks :=
  repeat first
    [ emits_step
    | apply emits_update; intros; reflexivity
    | apply emits_postSegments; intros; reflexivity
    | progress unfold githubCommands, releaseCommand, prReviewCommand,
        issueAnalysisCommand, issueContext, genericApiCommand, unknownCommand,
        fallbackPath, fallbackBody, fallbackCatch, fallbackFinally, intentRouting,
        intentContext, llmQueryPath, threadForQuery, queryStep, postReply ].

Section CommandFacts.

Context {Block World : Type}.
Variable cfg : Config.
Variable fmt : Formatting Block.
Variable sv : Services Block World.

Local Abbreviation Event := (Event Block).
Implicit Types st : State World.

Lemma unknownCommand_outcome ch ts h st :
  outcomeOf (unknownCommand sv ch ts h) st = Returned true.
Proof.
  unfold unknownCommand. destruct h; cbn [negb]; [ reflexivity | ].
  run_norm. rewrite update_outcome. reflexivity.
Qed.

(** [commandHandled] is true whenever the block of the [gh>] commands is left
    normally. *)
Lemma githubCommands_handled q u ch rt ts st b :
  outcomeOf (githubCommands cfg sv q u ch rt ts) st = Returned b -> b = true.
Proof.
  unfold githubCommands.
  repeat (rewrite outcomeOf_bind;
          match goal with
          | |- context [match ?o with Returned _ => _ | Threw _ => _ end] =>
              destruct o; try discriminate
          end).
  rewrite unknownCommand_outcome. congruence.
Qed.

Lemma githubCommands_footprint q u ch rt ts :
  emits (ofKinds commandKinds) (githubCommands cfg sv q u ch rt ts).
Proof. emits_blocks. Qed.

Lemma afterThinking_command_footprint event octokit t :
  isPotentialGhCommand cfg (cleanedQueryOf cfg event) = true ->
  emits (ofKinds commandKinds) (afterThinkingMessage cfg fmt sv event octokit t).
Proof.
  intros Hcmd. unfold afterThinkingMessage. rewrite Hcmd.
  destruct (Js.truthy (githubToken cfg)); cbn [negb]; [ | emits_blocks ].
  destruct octokit; cbn [negb]; [ | emits_blocks ].
  apply emits_bind_outcome with (P := fun b => b = true).
  - apply githubCommands_footprint.
  - intros st b. apply githubCommands_handled.
  - intros b ->. cbn [negb]. emits_blocks.
Qed.

Lemma handler_command_footprint event octokit :
  isPotentialGhCommand cfg (cleanedQueryOf cfg event) = true ->
  emits (ofKinds commandKinds) (handleSlackMessageEventInternal cfg fmt sv event octokit).
Proof.
  intros Hcmd. unfold handleSlackMessageEventInternal, postThinkingMessage.
  repeat first [ apply afterThinking_command_footprint; assumption | emits_step ].
Qed.

Lemma run_trace event octokit w :
  snd (run cfg fmt sv event octokit w)
  = traceOf (handleSlackMessageEventInternal cfg fmt sv event octokit)
      {| world := w; thinkingTs := "" |}.
Proof.
  unfold run, traceOf.
  destruct (handleSlackMessageEventInternal _ _ _ _ _ _) as [[r st] t]. reflexivity.
Qed.

Lemma run_outcome event octokit w :
  fst (run cfg fmt sv event octokit w)
  = outcomeOf (handleSlackMessageEventInternal cfg fmt sv event octokit)
      {| world := w; thinkingTs := "" |}.
Proof.
  unfold run, outcomeOf.
  destruct (handleSlackMessageEventInternal _ _ _ _ _ _) as [[r st] t]. reflexivity.
Qed.

(** A trace of the listed kinds has no event of a kind that is not listed. *)
Lemma ofKinds_never (kinds : list EventKind) (kind : Event -> bool) (t : Trace Block) :
  (forall ev, ofKinds kinds ev = true -> kind ev = false) ->
  forallb (ofKinds kinds) t = true -> never kind t.
Proof.
  intros Hk. apply forallb_impl. intros ev Hev. now rewrite (Hk ev Hev).
Qed.

End CommandFacts.

(** Closes [forall ev, ofKinds kinds ev = true -> kind ev = false]. *)
Ltac by_kind := let ev := fresh "ev" in intros ev; destruct ev; cbn; congruence.


(** ** Step 4: which executor runs *)

Section Routing.

Context {Block World : Type}.
Variable cfg : Config.
Variable fmt : Formatting Block.
Variable sv : Services Block World.

Local Abbreviation Event := (Event Block).
Local Abbreviation Trace := (Trace Block).
Implicit Types st : State World.

Lemma commandsOf_app (a b : Trace) : commandsOf (a ++ b) = commandsOf a ++ commandsOf b.
Proof.
  induction a as [ | ev a IH ]; [ reflexivity | ].
  destruct ev; cbn; rewrite ?IH; reflexivity.
Qed.

Lemma updatesOf_app (a b : Trace) : updatesOf (a ++ b) = updatesOf a ++ updatesOf b.
Proof.
  induction a as [ | ev a IH ]; [ reflexivity | ].
  destruct ev; cbn; rewrite ?IH; reflexivity.
Qed.

Lemma commandsOf_none (kinds : list EventKind) (t : Trace) :
  existsb (kind_eqb KCommand) kinds = false ->
  forallb (ofKinds kinds) t = true -> commandsOf t = [].
Proof.
  intros Hk. induction t as [ | ev t IH ]; [ reflexivity | ].
  cbn [forallb]. intros H. apply andb_true_iff in H as [Hev Ht].
  destruct ev; cbn; auto.
  unfold ofKinds in Hev. cbn [kindOf] in Hev. congruence.
Qed.

Lemma updatesOf_none (kinds : list EventKind) (t : Trace) :
  existsb (kind_eqb KChatUpdate) kinds = false ->
  forallb (ofKinds kinds) t = true -> updatesOf t = [].
Proof.
  intros Hk. induction t as [ | ev t IH ]; [ reflexivity | ].
  cbn [forallb]. intros H. apply andb_true_iff in H as [Hev Ht].
  destruct ev; cbn; auto.
  unfold ofKinds in Hev. cbn [kindOf] in Hev. congruence.
Qed.

(** An update of the thinking message is one [chat.update] and no executor. *)
Lemma update_observed ts ch txt st :
  Js.truthy ts = true -> Js.truthy ch = true ->
  let t := traceOf (updateOrDeleteThinkingMessage sv ts ch (Some txt)) st in
  commandsOf t = [] /\ updatesOf t = [txt].
Proof.
  intros Hts Hch t. subst t.
  destruct (update_trace sv ts ch (Some txt) st Hts Hch) as (r & tl & -> & Htl).
  cbn [commandsOf updatesOf].
  assert (Hk : forallb (ofKinds [KLog; KCaught]) tl = true).
  { revert Htl. apply forallb_impl. intros ev. destruct ev; cbn; congruence. }
  split.
  - apply (commandsOf_none [KLog; KCaught]); [ reflexivity | exact Hk ].
  - f_equal. apply (updatesOf_none [KLog; KCaught]); [ reflexivity | exact Hk ].
Qed.

Lemma issueContext_footprint u ch rt explicitWs :
  emits (ofKinds [KLog; KGetMapping; KStoreMapping; KCreateThread; KDetermineWorkspace])
    (issueContext sv u ch rt explicitWs).
Proof. emits_blocks. Qed.

Variables (q u ch rt ts : string).
Hypothesis Hts : Js.truthy ts = true.
Hypothesis Hch : Js.truthy ch = true.

Lemma releaseCommand_miss st :
  requiredGroup "repo_id" (Patterns.RELEASE_REGEX cfg) q = None ->
  releaseCommand cfg sv q ch rt ts st = (Returned false, st, []).
Proof.
  unfold requiredGroup, releaseCommand. intros H.
  destruct (Regex.matchAnchored _ q) as [groups | ]; [ | reflexivity ].
  destruct (Regex.group "repo_id" groups) as [v | ]; [ | reflexivity ].
  destruct (Js.truthy v); [ discriminate | reflexivity ].
Qed.

Lemma releaseCommand_hit st repo_id :
  requiredGroup "repo_id" (Patterns.RELEASE_REGEX cfg) q = Some repo_id ->
  exists tl,
    traceOf (releaseCommand cfg sv q ch rt ts) st
    = Log Info "[Msg Handler] Matched 'gh> release'." None
      :: EvCommand (ReleaseInfo repo_id rt ts ch)
           (fst (runCommand sv (ReleaseInfo repo_id rt ts ch) (world st))) :: tl
    /\ tl = [].
Proof.
  unfold requiredGroup, releaseCommand. intros H.
  destruct (Regex.matchAnchored _ q) as [groups | ]; [ | discriminate ].
  destruct (Regex.group "repo_id" groups) as [v | ]; [ | discriminate ].
  destruct (Js.truthy v); [ | discriminate ].
  injection H as ->. run_norm. eexists. split; reflexivity.
Qed.

Lemma genericApiCommand_miss st :
  requiredGroup "api_query" (Patterns.GENERIC_API_REGEX cfg) q = None ->
  genericApiCommand cfg sv q ch rt ts false st = (Returned false, st, []).
Proof.
  unfold requiredGroup, genericApiCommand. intros H. cbn [negb].
  destruct (Regex.matchAnchored _ q) as [groups | ]; [ | reflexivity ].
  destruct (Regex.group "api_query" groups) as [v | ]; [ | reflexivity ].
  destruct (Js.truthy v); [ discriminate | reflexivity ].
Qed.

Lemma genericApiCommand_hit st api_query :
  requiredGroup "api_query" (Patterns.GENERIC_API_REGEX cfg) q = Some api_query ->
  exists tl,
    traceOf (genericApiCommand cfg sv q ch rt ts false) st
    = Log Info "[Msg Handler] Matched generic 'gh> api'." None
      :: EvCommand (GithubApi api_query rt ch ts (githubWorkspaceSlug cfg)
                      (formatterWorkspaceSlug cfg))
           (fst (runCommand sv (GithubApi api_query rt ch ts (githubWorkspaceSlug cfg)
                                  (formatterWorkspaceSlug cfg)) (world st))) :: tl
    /\ tl = [].
Proof.
  unfold requiredGroup, genericApiCommand. intros H. cbn [negb].
  destruct (Regex.matchAnchored _ q) as [groups | ]; [ | discriminate ].
  destruct (Regex.group "api_query" groups) as [v | ]; [ | discriminate ].
  destruct (Js.truthy v); [ | discriminate ].
  injection H as ->. run_norm. eexists. split; reflexivity.
Qed.

Lemma prReviewCommand_miss st :
  Regex.matchAnchored (Patterns.PR_REVIEW_REGEX cfg) q = None ->
  prReviewCommand cfg sv q ch rt ts false st = (Returned false, st, []).
Proof. unfold prReviewCommand. intros ->. reflexivity. Qed.

Lemma issueAnalysisCommand_miss st :
  Regex.matchAnchored (Patterns.ISSUE_ANALYSIS_REGEX cfg) q = None ->
  issueAnalysisCommand cfg sv q u ch rt ts false st = (Returned false, st, []).
Proof. unfold issueAnalysisCommand. intros ->. reflexivity. Qed.

(** A command that was handled passes the later grammars untouched. *)
Lemma prReviewCommand_skip st :
  prReviewCommand cfg sv q ch rt ts true st = (Returned true, st, []).
Proof. reflexivity. Qed.

Lemma issueAnalysisCommand_skip st :
  issueAnalysisCommand cfg sv q u ch rt ts true st = (Returned true, st, []).
Proof. reflexivity. Qed.

Lemma genericApiCommand_skip st :
  genericApiCommand cfg sv q ch rt ts true st = (Returned true, st, []).
Proof. reflexivity. Qed.

Lemma unknownCommand_skip st :
  unknownCommand sv ch ts true st = (Returned true, st, []).
Proof. reflexivity. Qed.

Lemma traceOf_bind_returned {A B} {m : M Block World A} (f : A -> M Block World B)
    {st a st1 t1} :
  m st = (Returned a, st1, t1) ->
  traceOf (bind m f) st = t1 ++ traceOf (f a) st1.
Proof.
  intros H. rewrite traceOf_bind. unfold outcomeOf, stateOf, traceOf. rewrite H.
  reflexivity.
Qed.

(** The later grammars and the unknown-command reply add nothing once a
    command was handled. *)
Lemma handled_tail st :
  traceOf
    (bind (issueAnalysisCommand cfg sv q u ch rt ts true)
       (fun h => bind (genericApiCommand cfg sv q ch rt ts h)
                   (fun h' => unknownCommand sv ch ts h'))) st = [].
Proof. reflexivity. Qed.

Lemma handled_tail_api st :
  traceOf
    (bind (genericApiCommand cfg sv q ch rt ts true)
       (fun h' => unknownCommand sv ch ts h')) st = [].
Proof. reflexivity. Qed.

Lemma invalid_reply_observed (txt : Msg) (line : string) st :
  let t := traceOf (bind (log Warn line)
                      (fun _ => bind (updateOrDeleteThinkingMessage sv ts ch (Some txt))
                                  (fun _ => ret true))) st in
  outcomeOf (bind (log Warn line)
               (fun _ => bind (updateOrDeleteThinkingMessage sv ts ch (Some txt))
                           (fun _ => ret true))) st = Returned true
  /\ commandsOf t = [] /\ updatesOf t = [txt].
Proof.
  cbv zeta. run_norm. rewrite update_outcome.
  destruct (update_observed ts ch txt st Hts Hch) as [Hc Hu].
  cbn [commandsOf updatesOf]. rewrite app_nil_r, Hc, Hu. auto.
Qed.

(** The [try] of the issue command: its executor runs, alone, or the set-up
    failed and the user is told so. *)
Lemma issue_try_observed (explicitWs : option string)
    (mk : string -> string -> Command) st :
  let B := tryCatch CatchIssueContext
             (bind (issueContext sv u ch rt explicitWs)
                (fun ctx => let '(llmWs, llmThread) := ctx in
                            call (runCommand sv (mk llmWs llmThread))
                                 (EvCommand (mk llmWs llmThread))))
             (fun contextError =>
                bind (logError Err "[Msg Handler-IssueCmd] Context/Thread Setup Error:"
                        contextError)
                  (fun _ => bind (updateOrDeleteThinkingMessage sv ts ch
                                    (Some (MsgContextError (message contextError))))
                              (fun _ => ret true))) in
  (exists llmWs llmThread, commandsOf (traceOf B st) = [mk llmWs llmThread])
  \/ (outcomeOf B st = Returned true /\ commandsOf (traceOf B st) = []
      /\ exists msg, updatesOf (traceOf B st) = [MsgContextError msg]).
Proof.
  intros B. subst B.
  pose proof (issueContext_footprint u ch rt explicitWs st) as Hfp.
  assert (Hc : commandsOf (traceOf (issueContext sv u ch rt explicitWs) st) = []).
  { eapply commandsOf_none; [ | exact Hfp ]. reflexivity. }
  assert (Hu : updatesOf (traceOf (issueContext sv u ch rt explicitWs) st) = []).
  { eapply updatesOf_none; [ | exact Hfp ]. reflexivity. }
  assert (HU := fun msg s => update_observed ts ch (MsgContextError msg) s Hts Hch).
  cbv zeta in HU.
  rewrite traceOf_tryCatch, outcomeOf_tryCatch, outcomeOf_bind, traceOf_bind.
  destruct (outcomeOf (issueContext sv u ch rt explicitWs) st) as [[llmWs llmThread] | e].
  - left. exists llmWs, llmThread.
    rewrite outcomeOf_call, traceOf_call.
    destruct (fst (runCommand sv _ _)) as [h | e].
    + rewrite commandsOf_app, Hc. reflexivity.
    + run_norm. rewrite !update_outcome. cbv iota.
      rewrite ?app_nil_r, ?commandsOf_app, ?Hc. cbn [app commandsOf].
      rewrite (proj1 (HU _ _)). reflexivity.
  - right. run_norm. rewrite !update_outcome. cbv iota.
    rewrite ?app_nil_r, ?commandsOf_app, ?updatesOf_app, ?Hc, ?Hu.
    cbn [app commandsOf updatesOf].
    rewrite (proj1 (HU _ _)), (proj2 (HU _ _)). eauto.
Qed.

(** What is left of the block once an executor ran: nothing when it reports
    the command handled, and otherwise no executor, the later patterns being
    excluded. *)
Lemma tail_after_api h st :
  commandsOf (traceOf (unknownCommand sv ch ts h) st) = [].
Proof.
  destruct h; [ reflexivity | ].
  unfold unknownCommand. cbn [negb].
  apply (invalid_reply_observed MsgUnknownCommand
           "[Msg Handler] Unknown command starting with the command prefix" st).
Qed.

Lemma tail_after_issue h st :
  Regex.matchAnchored (Patterns.GENERIC_API_REGEX cfg) q = None ->
  commandsOf (traceOf (bind (genericApiCommand cfg sv q ch rt ts h)
                         (fun h' => unknownCommand sv ch ts h')) st) = [].
Proof.
  intros Hapi. destruct h; [ reflexivity | ].
  rewrite (traceOf_bind_returned _
             (genericApiCommand_miss st (requiredGroup_unmatched _ _ _ Hapi))).
  apply tail_after_api.
Qed.

Lemma tail_after_review h st :
  Regex.matchAnchored (Patterns.ISSUE_ANALYSIS_REGEX cfg) q = None ->
  Regex.matchAnchored (Patterns.GENERIC_API_REGEX cfg) q = None ->
  commandsOf (traceOf (bind (issueAnalysisCommand cfg sv q u ch rt ts h)
                         (fun h' => bind (genericApiCommand cfg sv q ch rt ts h')
                                      (fun h'' => unknownCommand sv ch ts h''))) st) = [].
Proof.
  intros His Hapi. destruct h; [ reflexivity | ].
  rewrite (traceOf_bind_returned _ (issueAnalysisCommand_miss st His)).
  apply tail_after_issue. exact Hapi.
Qed.

Lemma tail_after_release h st :
  Regex.matchAnchored (Patterns.PR_REVIEW_REGEX cfg) q = None ->
  Regex.matchAnchored (Patterns.ISSUE_ANALYSIS_REGEX cfg) q = None ->
  Regex.matchAnchored (Patterns.GENERIC_API_REGEX cfg) q = None ->
  commandsOf
    (traceOf (bind (prReviewCommand cfg sv q ch rt ts h)
                (fun h1 => bind (issueAnalysisCommand cfg sv q u ch rt ts h1)
                   (fun h' => bind (genericApiCommand cfg sv q ch rt ts h')
                                (fun h'' => unknownCommand sv ch ts h'')))) st) = [].
Proof.
  intros Hpr His Hapi. destruct h; [ reflexivity | ].
  rewrite (traceOf_bind_returned _ (prReviewCommand_miss st Hpr)).
  apply tail_after_review; assumption.
Qed.

Lemma githubCommands_routed st :
  routedAs cfg ch rt ts (firstMatch cfg q) (traceOf (githubCommands cfg sv q u ch rt ts) st).
Proof.
  unfold githubCommands, firstMatch.
  destruct (requiredGroup "repo_id" (Patterns.RELEASE_REGEX cfg) q) as [repo_id | ] eqn:Hrel.
  { destruct (requiredGroup_matched _ _ _ _ Hrel) as [groups Hm].
    destruct (release_excludes cfg q groups Hm) as (Hpr & His & Hapi).
    destruct (releaseCommand_hit st repo_id Hrel) as (tl & Htl & ->).
    cbn [routedAs]. rewrite traceOf_bind, Htl.
    destruct (outcomeOf _ st) as [h | e]; [ | reflexivity ].
    rewrite commandsOf_app, (tail_after_release h _ Hpr His Hapi). reflexivity. }
  rewrite (traceOf_bind_returned _ (releaseCommand_miss st Hrel)). cbn [app].
  destruct (Regex.matchAnchored (Patterns.PR_REVIEW_REGEX cfg) q) as [groups | ] eqn:Hpr.
  { destruct (review_excludes cfg q groups Hpr) as (His & Hapi).
    cbn [routedAs]. unfold prReviewCommand. rewrite Hpr. cbn [negb].
    destruct (prReviewParams groups) as [[[[o r] n] w] | ].
    - unfold log. rewrite traceOf_bind, outcomeOf_bind, traceOf_bind, stateOf_bind.
      rewrite outcomeOf_emit, traceOf_emit, stateOf_emit, outcomeOf_call, traceOf_call.
      destruct (fst (runCommand sv _ _)) as [h | e]; [ | reflexivity ].
      rewrite commandsOf_app, (tail_after_review h _ His Hapi). reflexivity.
    - destruct (invalid_reply_observed MsgInvalidPrFormat
                  "[Msg Handler] Invalid PR Review params:" st) as (Ho & Hc & Hu).
      unfold log in *.
      rewrite traceOf_bind, outcomeOf_bind, traceOf_bind, stateOf_bind.
      rewrite outcomeOf_emit, traceOf_emit, stateOf_emit.
      rewrite Ho, handled_tail, app_nil_r.
      cbn [app commandsOf updatesOf]. auto. }
  rewrite (traceOf_bind_returned _ (prReviewCommand_miss st Hpr)). cbn [app].
  destruct (Regex.matchAnchored (Patterns.ISSUE_ANALYSIS_REGEX cfg) q) as [groups | ] eqn:His.
  { pose proof (issue_excludes cfg q groups His) as Hapi.
    cbn [routedAs]. unfold issueAnalysisCommand. rewrite His. cbn [negb].
    destruct (parseIntOpt (Regex.group "issue_number" groups)) as [n | ].
    - destruct (issue_try_observed (Regex.group "workspace_slug" groups)
                  (IssueAnalysis (issueOwner cfg groups) (issueRepo groups) n
                     (issuePrompt groups) rt ch ts) st)
        as [(llmWs & llmThread & Hhd) | (Ho & Hc & msg & Hu)];
        unfold log in *;
        rewrite traceOf_bind, outcomeOf_bind, traceOf_bind, stateOf_bind;
        rewrite outcomeOf_emit, traceOf_emit, stateOf_emit.
      + left. exists llmWs, llmThread.
        destruct (outcomeOf _ st) as [h | e]; cbn [app commandsOf];
          rewrite ?commandsOf_app, ?(tail_after_issue h _ Hapi), ?app_nil_r; exact Hhd.
      + right. rewrite Ho, handled_tail_api, app_nil_r.
        cbn [app commandsOf updatesOf]. eauto.
    - destruct (invalid_reply_observed MsgInvalidIssueNumber
                  "[Msg Handler] Invalid Issue Analysis number:" st) as (Ho & Hc & Hu).
      unfold log in *.
      rewrite traceOf_bind, outcomeOf_bind, traceOf_bind, stateOf_bind.
      rewrite outcomeOf_emit, traceOf_emit, stateOf_emit.
      rewrite Ho, handled_tail_api, app_nil_r.
      cbn [app commandsOf updatesOf]. auto. }
  rewrite (traceOf_bind_returned _ (issueAnalysisCommand_miss st His)). cbn [app].
  destruct (requiredGroup "api_query" (Patterns.GENERIC_API_REGEX cfg) q)
    as [api_query | ] eqn:Hapi.
  { destruct (genericApiCommand_hit st api_query Hapi) as (tl & Htl & ->).
    cbn [routedAs]. rewrite traceOf_bind, Htl.
    destruct (outcomeOf _ st) as [h | e]; [ | reflexivity ].
    rewrite commandsOf_app, (tail_after_api h _). reflexivity. }
  rewrite (traceOf_bind_returned _ (genericApiCommand_miss st Hapi)). cbn [app routedAs].
  unfold unknownCommand. cbn [negb].
  destruct (invalid_reply_observed MsgUnknownCommand
              "[Msg Handler] Unknown command starting with the command prefix" st)
    as (Ho & Hc & Hu).
  auto.
Qed.

End Routing.


(** ** Step 5: the fallback path *)

Section FallbackFacts.

Context {Block World : Type}.
Variable cfg : Config.
Variable fmt : Formatting Block.
Variable sv : Services Block World.

Local Abbreviation Event := (Event Block).
Local Abbreviation Trace := (Trace Block).
Implicit Types st : State World.

(** The run of the handler once the thinking message is posted. *)
Lemma run_after_thinking (event : SlackEvent) (octokit : bool) (w w1 : World) (t : string) :
  ThinkingPosted cfg sv event w t w1 ->
  run cfg fmt sv event octokit w
  = (outcomeOf (afterThinkingMessage cfg fmt sv event octokit t)
       {| world := w1; thinkingTs := t |},
     Log Info "[Msg Handler] Start" None
     :: EvPostMessage (thinkingPost event) (Returned (Some t))
     :: traceOf (afterThinkingMessage cfg fmt sv event octokit t)
          {| world := w1; thinkingTs := t |}).
Proof.
  intros (Hq & Hd & Hp & Ht).
  unfold run, handleSlackMessageEventInternal. rewrite Hq, Hd. cbn [negb].
  unfold bind, log, emit, postThinkingMessage, tryCatch, postMessage, call, bind.
  cbn [world thinkingTs]. unfold thinkingPost in Hp. rewrite Hp. rewrite Ht.
  unfold outcomeOf, traceOf, ret, setThinkingTs. cbn [world thinkingTs app].
  destruct (afterThinkingMessage cfg fmt sv event octokit t _) as [[r st] tr].
  reflexivity.
Qed.

(** Step 5b as it runs: when the routing applies, building [intentContext]
    throws; otherwise one console line and [intentHandled] is false. *)
Lemma intentRouting_run ch (ir : IntentResult) st :
  intentRouting cfg sv ch ir st
  = if routingApplies cfg ir
    then (Threw (referenceError "intentResult"), st,
          [Log Info "[Msg Handler] Intent detected. Attempting routing." None])
    else (Returned false, st,
          [Log Info
             (if Js.truthy_opt (intent ir)
              then "[Msg Handler] Intent detected, but routing conditions not met. Proceeding to LLM."
              else "[Msg Handler] No specific intent detected or routing disabled. Proceeding to LLM.")
             None]).
Proof.
  unfold intentRouting. destruct (routingApplies cfg ir); [ reflexivity | ].
  destruct (Js.truthy_opt (intent ir)); reflexivity.
Qed.

Lemma intentRouting_outcome ch ir st :
  outcomeOf (intentRouting cfg sv ch ir) st
  = if routingApplies cfg ir then Threw (referenceError "intentResult") else Returned false.
Proof. unfold outcomeOf. rewrite intentRouting_run. destruct (routingApplies cfg ir); reflexivity. Qed.

Lemma intentRouting_trace ch ir st :
  traceOf (intentRouting cfg sv ch ir) st
  = if routingApplies cfg ir
    then [Log Info "[Msg Handler] Intent detected. Attempting routing." None]
    else [Log Info
            (if Js.truthy_opt (intent ir)
             then "[Msg Handler] Intent detected, but routing conditions not met. Proceeding to LLM."
             else "[Msg Handler] No specific intent detected or routing disabled. Proceeding to LLM.")
            None].
Proof. unfold traceOf. rewrite intentRouting_run. destruct (routingApplies cfg ir); reflexivity. Qed.

Lemma intentRouting_state ch ir st : stateOf (intentRouting cfg sv ch ir) st = st.
Proof. unfold stateOf. rewrite intentRouting_run. destruct (routingApplies cfg ir); reflexivity. Qed.

Lemma postReply_footprint ch rt ots ws reply :
  emits (ofKinds replyKinds) (postReply cfg fmt sv ch rt ots ws reply).
Proof. emits_blocks. Qed.

Lemma queryStep_footprint q ch rt ots ws thr :
  emits (ofKinds queryKinds) (queryStep cfg fmt sv q ch rt ots ws thr).
Proof. emits_blocks. Qed.

Lemma fallbackCatch_footprint ch rt e :
  emits (ofKinds queryKinds) (fallbackCatch sv ch rt e).
Proof. emits_blocks. Qed.

Lemma fallbackFinally_footprint ch :
  emits (ofKinds queryKinds) (fallbackFinally sv ch).
Proof. emits_blocks. Qed.

Lemma fallbackPath_footprint q u ch rt ots :
  emits (ofKinds fallbackKinds) (fallbackPath cfg fmt sv q u ch rt ots).
Proof. emits_blocks. Qed.

End FallbackFacts.


Section ClassifierFailure.

Context {Block World : Type}.
Variable cfg : Config.
Variable fmt : Formatting Block.
Variable sv : Services Block World.

Local Abbreviation Event := (Event Block).
Local Abbreviation Trace := (Trace Block).
Implicit Types st : State World.

Lemma update_footprint ts ch args :
  emits (ofKinds [KLog; KCaught; KChatUpdate; KChatDelete])
    (updateOrDeleteThinkingMessage sv ts ch args).
Proof. apply emits_update; intros; try reflexivity. destruct args; reflexivity. Qed.

(** The fallback path when the classifier throws: the [catch] clause logs the
    error and turns the thinking message into the error notice. *)
Lemma fallbackPath_detect_throws q u ch rt ots (w1 w2 : World) (t : string) (e : Error) :
  Js.truthy t = true ->
  detectIntentAndWorkspace sv q w1 = (Threw e, w2) ->
  let st := {| world := w1; thinkingTs := t |} in
  outcomeOf (fallbackPath cfg fmt sv q u ch rt ots) st = Returned tt
  /\ traceOf (fallbackPath cfg fmt sv q u ch rt ots) st
     = [Log Info "[Msg Handler] No command matched. Proceeding with Intent Detection -> Routing -> LLM query." None;
        Log Info "[Msg Handler] Running Intent Detection..." None;
        EvDetectIntent q (Threw e);
        Caught CatchFallbackPath e;
        Log Err "[Msg Handler Error - Intent/LLM Path]" (Some e)]
       ++ traceOf (updateOrDeleteThinkingMessage sv t ch (Some (MsgOops (message e))))
            {| world := w2; thinkingTs := t |}
       ++ [Log Info "[Msg Handler - Fallback Path] Finished processing." None].
Proof.
  intros Ht Hdet st. subst st.
  unfold fallbackPath, fallbackBody, fallbackCatch, fallbackFinally.
  run_norm. rewrite Hdet. run_norm. rewrite Ht. run_norm.
  rewrite !update_outcome. run_norm. cbn [Js.truthy String.eqb negb]. run_norm.
  rewrite <- !app_assoc. cbn [app]. split; reflexivity.
Qed.

End ClassifierFailure.


Section ThreadReuse.

Context {Block World : Type}.
Variable cfg : Config.
Variable fmt : Formatting Block.
Variable sv : Services Block World.

Local Abbreviation Event := (Event Block).
Local Abbreviation Trace := (Trace Block).
Implicit Types st : State World.

Lemma never_app (kind : Event -> bool) (a b : Trace) :
  never kind (a ++ b) <-> never kind a /\ never kind b.
Proof. unfold never. rewrite forallb_app. apply andb_true_iff. Qed.

Lemma never_cons (kind : Event -> bool) (ev : Event) (t : Trace) :
  never kind (ev :: t) <-> kind ev = false /\ never kind t.
Proof.
  unfold never. cbn [forallb]. rewrite andb_true_iff, negb_true_iff. reflexivity.
Qed.

(** The trace of the fallback path around the trace of its [try] body. *)
Lemma fallbackPath_trace q u ch rt ots st :
  exists tl,
    traceOf (fallbackPath cfg fmt sv q u ch rt ots) st
    = Log Info "[Msg Handler] No command matched. Proceeding with Intent Detection -> Routing -> LLM query." None
      :: traceOf (fallbackBody cfg fmt sv q u ch rt ots) st ++ tl
    /\ forallb (ofKinds queryKinds) tl = true.
Proof.
  unfold fallbackPath. run_norm.
  destruct (outcomeOf (fallbackBody cfg fmt sv q u ch rt ots) st) as [[] | e].
  - eexists. split; [ reflexivity | ]. apply fallbackFinally_footprint.
  - rewrite <- app_assoc. eexists. split; [ reflexivity | ].
    cbn [app forallb]. rewrite forallb_app.
    rewrite (fallbackCatch_footprint sv ch rt e), (fallbackFinally_footprint sv ch).
    reflexivity.
Qed.

(** The body up to the thread of the query, when the classifier answers, the
    routing does not apply and a workspace is resolved. *)
Lemma fallbackBody_to_thread q u ch rt ots (w1 w2 w3 : World) (t : string)
    (ir : IntentResult) (W : string) :
  detectIntentAndWorkspace sv q w1 = (Returned ir, w2) ->
  routingApplies cfg ir = false ->
  determineWorkspace sv (suggestedWorkspace ir) u ch w2 = (Returned W, w3) ->
  Js.truthy W = true ->
  exists line,
    traceOf (fallbackBody cfg fmt sv q u ch rt ots) {| world := w1; thinkingTs := t |}
    = [Log Info "[Msg Handler] Running Intent Detection..." None;
       EvDetectIntent q (Returned ir);
       Log Info line None;
       Log Info "[Msg Handler] Determining workspace for LLM query..." None;
       EvDetermineWorkspace (suggestedWorkspace ir) u ch (Returned W);
       Log Info "[Msg Handler] Final workspace determined for LLM" None]
      ++ traceOf (bind (threadForQuery sv ch rt W)
                    (fun thr => queryStep cfg fmt sv q ch rt ots W thr))
           {| world := w3; thinkingTs := t |}.
Proof.
  intros Hdet Hroute Hws HW.
  unfold fallbackBody, log.
  rewrite traceOf_bind, outcomeOf_emit, traceOf_emit, stateOf_emit. cbv iota.
  rewrite traceOf_bind, outcomeOf_call, traceOf_call, stateOf_call.
  cbn [world thinkingTs]. rewrite Hdet. cbn [fst snd].
  rewrite traceOf_bind, intentRouting_outcome, intentRouting_state, Hroute.
  rewrite intentRouting_trace, Hroute. cbn [negb].
  unfold llmQueryPath, log.
  rewrite traceOf_bind, outcomeOf_emit, traceOf_emit, stateOf_emit. cbv iota.
  rewrite traceOf_bind, outcomeOf_call, traceOf_call, stateOf_call.
  cbn [world thinkingTs]. rewrite Hws. cbn [fst snd]. rewrite HW. cbn [negb].
  rewrite traceOf_bind, outcomeOf_emit, traceOf_emit, stateOf_emit. cbv iota.
  eexists. cbn [app]. reflexivity.
Qed.

(** The thread of the query when the mapping is for the resolved workspace. *)
Lemma threadForQuery_reuse ch rt (W : string) (m : Mapping) (w3 w4 : World) (t : string) :
  getAnythingLLMThreadMapping sv ch rt w3 = (Returned (Some m), w4) ->
  anythingllm_workspace_slug m = W ->
  threadForQuery sv ch rt W {| world := w3; thinkingTs := t |}
  = (Returned (anythingllm_thread_slug m), {| world := w4; thinkingTs := t |},
     [Log Info "[Msg Handler] Checking/Updating thread mapping for LLM query..." None;
      EvGetMapping ch rt (Returned (Some m));
      Log Info "[Msg Handler] Using existing thread mapping for LLM" None]).
Proof.
  intros Hmap Heq. unfold threadForQuery, bind, log, emit, call, ret.
  cbn [world thinkingTs]. rewrite Hmap, Heq, String.eqb_refl. reflexivity.
Qed.

(** Step 5d always asks the LLM, with the workspace and thread it is given. *)
Lemma queryStep_queries q ch rt ots ws thr st :
  exists r,
    In (EvQueryLlm ws thr (llmInput cfg q) r) (traceOf (queryStep cfg fmt sv q ch rt ots ws thr) st).
Proof.
  unfold queryStep.
  rewrite traceOf_bind, outcomeOf_get, traceOf_get, stateOf_get. cbn [app].
  rewrite traceOf_bind, update_outcome.
  unfold log. rewrite traceOf_bind, outcomeOf_emit, traceOf_emit. cbv iota.
  rewrite traceOf_bind, traceOf_call.
  eexists. apply in_or_app. right. cbn [app].
  destruct (outcomeOf (call _ _) _); cbn [In app]; right; left; reflexivity.
Qed.

End ThreadReuse.


(** ** The life of the thinking message *)

Section ThinkingMessage.

Context {Block World : Type}.
Variable cfg : Config.
Variable fmt : Formatting Block.
Variable sv : Services Block World.

Local Abbreviation Event := (Event Block).
Local Abbreviation Trace := (Trace Block).
Local Abbreviation H := (M Block World).
Implicit Types st : State World.

Lemma keeps_ret {A} (a : A) : keeps (ret a : H A).
Proof. intros st. reflexivity. Qed.

Lemma keeps_throw {A} (e : Error) : keeps (throw e : H A).
Proof. intros st. reflexivity. Qed.

Lemma keeps_emit ev : keeps (emit ev : H unit).
Proof. intros st. reflexivity. Qed.

Lemma keeps_call {A} (svc : World -> Outcome A * World) (ev : Outcome A -> Event) :
  keeps (call svc ev).
Proof. intros st. rewrite stateOf_call. reflexivity. Qed.

Lemma keeps_get : keeps (getThinkingTs : H string).
Proof. intros st. reflexivity. Qed.

Lemma keeps_bind {A B} (m : H A) (f : A -> H B) :
  keeps m -> (forall a, keeps (f a)) -> keeps (bind m f).
Proof.
  intros Hm Hf st. rewrite stateOf_bind.
  destruct (outcomeOf m st); [ rewrite Hf | ]; apply Hm.
Qed.

Lemma keeps_tryCatch {A} site (m : H A) (h : Error -> H A) :
  keeps m -> (forall e, keeps (h e)) -> keeps (tryCatch site m h).
Proof.
  intros Hm Hh st. rewrite stateOf_tryCatch.
  destruct (outcomeOf m st); [ | rewrite Hh ]; apply Hm.
Qed.

Lemma keeps_update ts ch args : keeps (updateOrDeleteThinkingMessage sv ts ch args).
Proof. intros st. apply update_thinkingTs. Qed.

Ltac keeps_step :=
  match goal with
  | |- keeps (ret _) => apply keeps_ret
  | |- keeps (throw _) => apply keeps_throw
  | |- keeps (emit _) => apply keeps_emit
  | |- keeps (log _ _) => apply keeps_emit
  | |- keeps (logError _ _ _) => apply keeps_emit
  | |- keeps (call _ _) => apply keeps_call
  | |- keeps (postMessage _ _) => apply keeps_call
  | |- keeps getThinkingTs => apply keeps_get
  | |- keeps (updateOrDeleteThinkingMessage _ _ _ _) => apply keeps_update
  | |- keeps (bind _ _) => apply keeps_bind; [ | intros ]
  | |- keeps (tryCatch _ _ _) => apply keeps_tryCatch; [ | intros ]
  | |- keeps (if ?b then _ else _) => destruct b
  | |- keeps (match ?x with _ => _ end) => destruct x
  end.

Lemma keeps_postSegments ch rt segments i n last :
  keeps (postSegments fmt sv ch rt segments i n last).
Proof.
  revert i last. induction segments as [ | segment rest IH ]; intros i last.
  - apply keeps_ret.
  - cbn [postSegments]. destruct (segmentTexts segment) as [segmentText fallbackText].
    destruct (Js.truthy segmentText); cbn [negb]; [ | apply IH ].
    unfold postSegment. repeat first [ apply IH | keeps_step ].
Qed.

Lemma keeps_postReply ch rt ots ws reply : keeps (postReply cfg fmt sv ch rt ots ws reply).
Proof. unfold postReply. repeat first [ apply keeps_postSegments | keeps_step ]. Qed.

Lemma keeps_threadForQuery ch rt ws : keeps (threadForQuery sv ch rt ws).
Proof. unfold threadForQuery. repeat keeps_step. Qed.

(** *** Counting the releases *)

Lemma releases_app ch ts (a b : Trace) :
  releases ch ts (a ++ b) = releases ch ts a + releases ch ts b.
Proof. unfold releases. rewrite filter_app, length_app. reflexivity. Qed.

Lemma releases_none ch ts (kinds : list EventKind) (t : Trace) :
  existsb (kind_eqb KChatUpdate) kinds = false ->
  existsb (kind_eqb KChatDelete) kinds = false ->
  forallb (ofKinds kinds) t = true -> releases ch ts t = 0.
Proof.
  intros Hu Hd. unfold releases. induction t as [ | ev t IH ]; [ reflexivity | ].
  cbn [forallb]. intros H. apply andb_true_iff in H as [Hev Ht].
  destruct ev; cbn [filter isRelease]; auto;
    unfold ofKinds in Hev; cbn [kindOf] in Hev; congruence.
Qed.

(** One call of the helper on the thinking message is one release when it
    deletes or writes a final text, and none when it writes a progress note. *)
Lemma update_releases ts ch args st :
  Js.truthy ts = true -> Js.truthy ch = true ->
  releases ch ts (traceOf (updateOrDeleteThinkingMessage sv ts ch args) st)
  = if releasing args then 1 else 0.
Proof.
  intros Hts Hch.
  destruct (update_trace sv ts ch args st Hts Hch) as (r & tl & -> & Htl).
  assert (Hk : forallb (ofKinds [KLog; KCaught]) tl = true).
  { revert Htl. apply forallb_impl. intros ev. destruct ev; cbn; congruence. }
  change (?x :: tl) with ([x] ++ tl). rewrite releases_app.
  rewrite (releases_none ch ts [KLog; KCaught] tl eq_refl eq_refl Hk), Nat.add_0_r.
  unfold releases. destruct args as [txt | ]; cbn [filter isRelease releasing];
    rewrite !String.eqb_refl; cbn [andb]; [ destruct (isFinalText txt) | ]; reflexivity.
Qed.

End ThinkingMessage.


#[global] Hint Rewrite @update_outcome @update_thinkingTs : run.

Section Release.

Context {Block World : Type}.
Variable cfg : Config.
Variable fmt : Formatting Block.
Variable sv : Services Block World.

Local Abbreviation Event := (Event Block).
Local Abbreviation Trace := (Trace Block).
Local Abbreviation H := (M Block World).
Implicit Types st : State World.

Variables (q u ch rt ots t : string).
Hypothesis Ht : Js.truthy t = true.
Hypothesis Hch : Js.truthy ch = true.

Local Abbreviation Released := (ReleasedOnce ch t).

Lemma releases_cons (ev : Event) (tr : Trace) :
  releases ch t (ev :: tr) = (if isRelease ch t ev then 1 else 0) + releases ch t tr.
Proof. unfold releases. cbn [filter]. destruct (isRelease ch t ev); reflexivity. Qed.

Lemma releases_nil : releases ch t (@nil Event) = 0.
Proof. reflexivity. Qed.

Lemma postReply_releases ws reply st :
  releases ch t (traceOf (postReply cfg fmt sv ch rt ots ws reply) st) = 0.
Proof.
  apply (releases_none ch t replyKinds); [ reflexivity | reflexivity | ].
  apply postReply_footprint.
Qed.

Lemma threadForQuery_releases ws st :
  releases ch t (traceOf (threadForQuery sv ch rt ws) st) = 0.
Proof.
  apply (releases_none ch t [KLog; KGetMapping; KStoreMapping; KCreateThread]);
    [ reflexivity | reflexivity | ].
  revert st. change (emits (ofKinds [KLog; KGetMapping; KStoreMapping; KCreateThread])
                       (threadForQuery sv ch rt ws)).
  emits_blocks.
Qed.

Ltac count_releases :=
  repeat first
    [ rewrite releases_app
    | rewrite releases_cons
    | rewrite releases_nil
    | rewrite postReply_releases
    | rewrite threadForQuery_releases
    | rewrite (update_releases sv t ch _ _ Ht Hch) ];
  cbn [isRelease releasing isFinalText Nat.add].

Lemma queryStep_released ws thr st :
  thinkingTs st = t -> Released (queryStep cfg fmt sv q ch rt ots ws thr) st.
Proof.
  intros Hst. unfold ReleasedOnce, queryStep.
  run_norm. rewrite Hst.
  destruct (fst (queryLlm sv ws thr (llmInput cfg q) _)) as [reply | e].
  - right. run_norm. rewrite (keeps_postReply cfg fmt sv). cbn [thinkingTs].
    split; [ reflexivity | ]. count_releases. reflexivity.
  - left. cbn [thinkingTs]. split; [ reflexivity | ].
    split; [ count_releases; reflexivity | eauto ].
Qed.

Lemma llmQueryPath_released suggested st :
  thinkingTs st = t -> Released (llmQueryPath cfg fmt sv q u ch rt ots suggested) st.
Proof.
  intros Hst. unfold ReleasedOnce, llmQueryPath. run_norm.
  destruct (fst (determineWorkspace sv suggested u ch (world st))) as [ws | e];
    [ | left; cbn [thinkingTs]; repeat split; [ exact Hst | eauto ] ].
  destruct (Js.truthy ws); cbn [negb]; run_norm;
    [ | left; cbn [thinkingTs]; repeat split; [ exact Hst | eauto ] ].
  set (st1 := {| world := _; thinkingTs := thinkingTs st |}).
  assert (Hst1 : thinkingTs (stateOf (threadForQuery sv ch rt ws) st1) = t).
  { rewrite keeps_threadForQuery. exact Hst. }
  destruct (outcomeOf (threadForQuery sv ch rt ws) st1) as [thr | e].
  - destruct (queryStep_released ws thr _ Hst1) as [(Hs & Hr & e & He) | (Hs & Hr)].
    + left. split; [ exact Hs | ]. split; [ | eauto ].
      count_releases. rewrite Hr. reflexivity.
    + right. split; [ exact Hs | ]. count_releases. rewrite Hr. reflexivity.
  - left. split; [ exact Hst1 | ]. split; [ | eauto ].
    count_releases. reflexivity.
Qed.

Lemma fallbackBody_released st :
  thinkingTs st = t -> Released (fallbackBody cfg fmt sv q u ch rt ots) st.
Proof.
  intros Hst. unfold ReleasedOnce, fallbackBody. run_norm.
  destruct (fst (detectIntentAndWorkspace sv q (world st))) as [ir | e];
    [ | left; cbn [thinkingTs]; repeat split; [ exact Hst | eauto ] ].
  run_norm.
  rewrite ?intentRouting_outcome, ?intentRouting_state, ?intentRouting_trace.
  destruct (routingApplies cfg ir); cbn [negb];
    [ left; cbn [thinkingTs]; repeat split; [ exact Hst | eauto ] | ].
  set (st1 := {| world := _; thinkingTs := thinkingTs st |}).
  destruct (llmQueryPath_released (suggestedWorkspace ir) st1 Hst)
    as [(Hs & Hr & e & He) | (Hs & Hr)].
  - left. rewrite He. split; [ exact Hs | ]. split; [ | eauto ].
    count_releases. rewrite Hr. reflexivity.
  - right. split; [ exact Hs | ]. count_releases. rewrite Hr. reflexivity.
Qed.

Lemma fallbackCatch_alive e st :
  thinkingTs st = t ->
  releases ch t (traceOf (fallbackCatch sv ch rt e) st) = 1
  /\ thinkingTs (stateOf (fallbackCatch sv ch rt e) st) = "".
Proof.
  intros Hst. unfold fallbackCatch. run_norm. rewrite Hst, Ht. run_norm.
  split; [ count_releases | ]; reflexivity.
Qed.

Lemma fallbackCatch_gone e st :
  thinkingTs st = "" ->
  releases ch t (traceOf (fallbackCatch sv ch rt e) st) = 0
  /\ thinkingTs (stateOf (fallbackCatch sv ch rt e) st) = "".
Proof.
  intros Hst. unfold fallbackCatch. run_norm. rewrite Hst.
  cbn [Js.truthy String.eqb negb]. run_norm.
  destruct (fst (chat_postMessage sv _ _)); run_norm; cbn [thinkingTs];
    (split; [ count_releases | ]; assumption || reflexivity).
Qed.

Lemma fallbackFinally_gone st :
  thinkingTs st = "" ->
  releases ch t (traceOf (fallbackFinally sv ch) st) = 0.
Proof.
  intros Hst. unfold fallbackFinally. run_norm. rewrite Hst.
  cbn [Js.truthy String.eqb negb]. run_norm. reflexivity.
Qed.

(** The fallback path releases the thinking message exactly once. *)
Lemma fallbackPath_releases_once st :
  thinkingTs st = t ->
  releases ch t (traceOf (fallbackPath cfg fmt sv q u ch rt ots) st) = 1.
Proof.
  intros Hst. unfold fallbackPath. run_norm.
  destruct (fallbackBody_released st Hst) as [(Hs & Hr & e & He) | (Hs & Hr)].
  - rewrite He.
    destruct (fallbackCatch_alive e _ Hs) as [Hc Hs'].
    count_releases. rewrite Hr, Hc, (fallbackFinally_gone _ Hs'). reflexivity.
  - destruct (outcomeOf (fallbackBody cfg fmt sv q u ch rt ots) st) as [[] | e].
    + count_releases. rewrite Hr, (fallbackFinally_gone _ Hs). reflexivity.
    + destruct (fallbackCatch_gone e _ Hs) as [Hc Hs'].
      count_releases. rewrite Hr, Hc, (fallbackFinally_gone _ Hs'). reflexivity.
Qed.

End Release.


(** ** Caught errors and console lines *)

Section CaughtErrors.

Context {Block World : Type}.
Variable cfg : Config.
Variable fmt : Formatting Block.
Variable sv : Services Block World.

Local Abbreviation Event := (Event Block).
Local Abbreviation Trace := (Trace Block).
Local Abbreviation H := (M Block World).
Implicit Types st : State World.

Lemma error_eqb_refl (e : Error) : error_eqb e e = true.
Proof.
  unfold error_eqb, opt_string_eqb. destruct (data_error e); rewrite ?String.eqb_refl; reflexivity.
Qed.

Local Abbreviation accounted := (everyCaughtLogged (Block := Block) swallowedSilently).

Lemma accounted_app (a b : Trace) :
  accounted a = true -> accounted b = true -> accounted (a ++ b) = true.
Proof.
  intros Ha Hb. induction a as [ | ev a IH ]; [ exact Hb | ].
  destruct ev; cbn [app everyCaughtLogged] in *; auto.
  apply andb_true_iff in Ha as [Hhead Ha]. rewrite (IH Ha), andb_true_r.
  destruct a; [ | exact Hhead ].
  cbn [app]. rewrite orb_false_r in Hhead. rewrite Hhead. reflexivity.
Qed.

Lemma accounts_ret {A} (a : A) : accounts (ret a : H A).
Proof. intros st. reflexivity. Qed.

Lemma accounts_throw {A} (e : Error) : accounts (throw e : H A).
Proof. intros st. reflexivity. Qed.

Lemma accounts_log lvl line err : accounts (emit (Log lvl line err) : H unit).
Proof. intros st. reflexivity. Qed.

Lemma accounts_delay ms : accounts (emit (Delay ms) : H unit).
Proof. intros st. reflexivity. Qed.

Lemma accounts_call {A} (svc : World -> Outcome A * World) (ev : Outcome A -> Event) :
  (forall r, kind_eqb (kindOf (ev r)) KCaught = false) -> accounts (call svc ev).
Proof.
  intros Hev st. rewrite traceOf_call. specialize (Hev (fst (svc (world st)))).
  destruct (ev _); try reflexivity. discriminate.
Qed.

Lemma accounts_get : accounts (getThinkingTs : H string).
Proof. intros st. reflexivity. Qed.

Lemma accounts_set v : accounts (setThinkingTs v : H unit).
Proof. intros st. reflexivity. Qed.

Lemma accounts_bind {A B} (m : H A) (f : A -> H B) :
  accounts m -> (forall a, accounts (f a)) -> accounts (bind m f).
Proof.
  intros Hm Hf st. rewrite traceOf_bind.
  destruct (outcomeOf m st); [ apply accounted_app; [ apply Hm | apply Hf ] | apply Hm ].
Qed.

Lemma accounts_tryFinally {A} (m : H A) (c : H unit) :
  accounts m -> accounts c -> accounts (tryFinally m c).
Proof.
  intros Hm Hc st. rewrite traceOf_tryFinally.
  apply accounted_app; [ apply Hm | apply Hc ].
Qed.

(** A [catch] clause that starts with [console.warn] or [console.error] of
    the error it received. *)
Lemma accounts_tryCatch_logged {A} site (m : H A) lvl line (k : Error -> H A) :
  lvl <> Info ->
  accounts m -> (forall e, accounts (k e)) ->
  accounts (tryCatch site m (fun e => bind (logError lvl line e) (fun _ => k e))).
Proof.
  intros Hlvl Hm Hk st. rewrite traceOf_tryCatch.
  destruct (outcomeOf m st) as [a | e]; [ apply Hm | ].
  apply accounted_app; [ apply Hm | ].
  unfold logError. rewrite traceOf_bind, outcomeOf_emit, traceOf_emit, stateOf_emit.
  cbn [app everyCaughtLogged logsError].
  destruct lvl; [ congruence | | ]; rewrite error_eqb_refl, orb_true_r; apply Hk.
Qed.

(** A [catch] clause that is one such line. *)
Lemma accounts_tryCatch_line site (m : H unit) lvl line :
  lvl <> Info ->
  accounts m ->
  accounts (tryCatch site m (fun e => logError lvl line e)).
Proof.
  intros Hlvl Hm st. rewrite traceOf_tryCatch.
  destruct (outcomeOf m st) as [a | e]; [ apply Hm | ].
  apply accounted_app; [ apply Hm | ].
  unfold logError. rewrite traceOf_emit.
  cbn [app everyCaughtLogged logsError].
  destruct lvl; [ congruence | | ]; rewrite error_eqb_refl, orb_true_r; reflexivity.
Qed.

(** A [catch] clause the handler leaves silent on purpose. *)
Lemma accounts_tryCatch_silent {A} site (m : H A) (h : Error -> H A) :
  (forall e, swallowedSilently site e = true) ->
  accounts m -> (forall e, accounts (h e)) ->
  accounts (tryCatch site m h).
Proof.
  intros Hs Hm Hh st. rewrite traceOf_tryCatch.
  destruct (outcomeOf m st) as [a | e]; [ apply Hm | ].
  apply accounted_app; [ apply Hm | ].
  cbn [everyCaughtLogged]. rewrite Hs. apply Hh.
Qed.

Lemma accounts_update ts ch args :
  accounts (updateOrDeleteThinkingMessage sv ts ch args).
Proof.
  unfold updateOrDeleteThinkingMessage.
  destruct (Js.truthy ts); [ | apply accounts_ret ].
  destruct (Js.truthy ch); cbn [negb]; [ | apply accounts_log ].
  intros st. rewrite traceOf_tryCatch.
  assert (Hcall : @accounts Block World _
            match args with
            | Some txt => call (chat_update sv ch ts txt) (EvChatUpdate ch ts txt)
            | None => call (chat_delete sv ch ts) (EvChatDelete ch ts)
            end).
  { destruct args; apply accounts_call; reflexivity. }
  destruct (outcomeOf _ st) as [a | e]; [ apply Hcall | ].
  apply accounted_app; [ apply Hcall | ].
  cbn [everyCaughtLogged swallowedSilently].
  destruct (opt_string_eqb (data_error e) (Some "message_not_found"));
    destruct (opt_string_eqb (data_error e) (Some "cant_update_message"));
    cbn [negb andb orb]; try reflexivity.
  unfold logError. rewrite traceOf_emit. cbn [logsError everyCaughtLogged].
  rewrite error_eqb_refl. reflexivity.
Qed.

Ltac accounts_step :=
  match goal with
  | |- accounts (ret _) => apply accounts_ret
  | |- accounts (throw _) => apply accounts_throw
  | |- accounts (emit (Log _ _ _)) => apply accounts_log
  | |- accounts (emit (Delay _)) => apply accounts_delay
  | |- accounts (log _ _) => apply accounts_log
  | |- accounts (logError _ _ _) => apply accounts_log
  | |- accounts (call _ _) => apply accounts_call; intros; reflexivity
  | |- accounts (postMessage _ _) => apply accounts_call; intros; reflexivity
  | |- accounts getThinkingTs => apply accounts_get
  | |- accounts (setThinkingTs _) => apply accounts_set
  | |- accounts (updateOrDeleteThinkingMessage _ _ _ _) => apply accounts_update
  | |- accounts (bind _ _) => apply accounts_bind; [ | intros ]
  | |- accounts (tryFinally _ _) => apply accounts_tryFinally
  | |- accounts (tryCatch _ _ (fun e => bind (logError _ _ e) _)) =>
      apply accounts_tryCatch_logged; [ discriminate | | intros ]
  | |- accounts (tryCatch _ _ (fun e => logError _ _ e)) =>
      apply accounts_tryCatch_line; [ discriminate | ]
  | |- accounts (tryCatch _ _ _) =>
      apply accounts_tryCatch_silent; [ intros; reflexivity | | intros ]
  | |- accounts (if ?b then _ else _) => destruct b
  | |- accounts (match ?x with _ => _ end) => destruct x
  end.

Lemma accounts_postSegments ch rt segments i n last :
  accounts (postSegments fmt sv ch rt segments i n last).
Proof.
  revert i last. induction segments as [ | segment rest IH ]; intros i last.
  - apply accounts_ret.
  - cbn [postSegments]. destruct (segmentTexts segment) as [segmentText fallbackText].
    destruct (Js.truthy segmentText); cbn [negb]; [ | apply IH ].
    unfold postSegment. repeat first [ apply IH | accounts_step ].
Qed.

Ltac accounts_blocks :=
  repeat first
    [ apply accounts_postSegments
    | accounts_step
    | progress unfold githubCommands, releaseCommand, prReviewCommand,
        issueAnalysisCommand, issueContext, genericApiCommand, unknownCommand,
        fallbackPath, fallbackBody, fallbackCatch, fallbackFinally, intentRouting,
        intentContext, llmQueryPath, threadForQuery, queryStep, postReply,
        afterThinkingMessage, handleSlackMessageEventInternal, postThinkingMessage ].

Lemma accounts_handler event octokit :
  accounts (handleSlackMessageEventInternal cfg fmt sv event octokit).
Proof. accounts_blocks. Qed.

End CaughtErrors.


(** ** The reply and the feedback buttons *)


Section Reply.

Context {Block World : Type}.
Variable cfg : Config.
Variable fmt : Formatting Block.
Variable sv : Services Block World.

Local Abbreviation Event := (Event Block).
Local Abbreviation Trace := (Trace Block).
Local Abbreviation H := (M Block World).
Implicit Types st : State World.

Variables (ch rt ots : string).

Local Abbreviation Shaped := (ShapedTrace cfg fmt sv ch rt ots).
Local Abbreviation shaped := (shapedBlock cfg fmt sv ch rt ots).

Lemma shaped_quiet {A} (m : H A) : emits quiet m -> shaped m.
Proof. intros Hm st. left. apply Hm. Qed.

Lemma Shaped_prepend (pre t : Trace) :
  forallb quiet pre = true -> Shaped t -> Shaped (pre ++ t).
Proof.
  intros Hpre [Hq | (p & ws & thr & input & r & mid & st & post & -> & Hp & Hm & Hpo)].
  - left. rewrite forallb_app, Hpre, Hq. reflexivity.
  - right. exists (pre ++ p), ws, thr, input, r, mid, st, post.
    rewrite <- app_assoc, forallb_app, Hpre, Hp. auto.
Qed.

Lemma Shaped_append (t post : Trace) :
  forallb quiet post = true -> Shaped t -> Shaped (t ++ post).
Proof.
  intros Hpost [Hq | (p & ws & thr & input & r & mid & st & po & -> & Hp & Hm & Hpo)].
  - left. rewrite forallb_app, Hpost, Hq. reflexivity.
  - right. exists p, ws, thr, input, r, mid, st, (po ++ post).
    rewrite forallb_app, Hpo, Hpost. repeat split; auto.
    rewrite <- !app_assoc. cbn [app]. rewrite <- !app_assoc. reflexivity.
Qed.

Lemma shaped_bind_after {A B} (m : H A) (f : A -> H B) :
  emits quiet m -> (forall a, shaped (f a)) -> shaped (bind m f).
Proof.
  intros Hm Hf st. rewrite traceOf_bind.
  destruct (outcomeOf m st); [ | left; apply Hm ].
  apply Shaped_prepend; [ apply Hm | apply Hf ].
Qed.

Lemma shaped_tryCatch {A} site (m : H A) (h : Error -> H A) :
  shaped m -> (forall e, emits quiet (h e)) -> shaped (tryCatch site m h).
Proof.
  intros Hm Hh st. rewrite traceOf_tryCatch.
  destruct (outcomeOf m st) as [a | e]; [ apply Hm | ].
  apply Shaped_append; [ | apply Hm ].
  cbn [forallb]. rewrite Hh. reflexivity.
Qed.

Lemma shaped_tryFinally {A} (m : H A) (c : H unit) :
  shaped m -> emits quiet c -> shaped (tryFinally m c).
Proof.
  intros Hm Hc st. rewrite traceOf_tryFinally.
  apply Shaped_append; [ apply Hc | apply Hm ].
Qed.

Lemma quiet_update ts0 ch0 args : emits quiet (updateOrDeleteThinkingMessage sv ts0 ch0 args).
Proof. apply emits_update; intros; try reflexivity. destruct args; reflexivity. Qed.

(** Step 5d: quiet up to the query; after a reply, the delete and the
    posting of the reply. *)
Lemma shaped_queryStep q ws thr : shaped (queryStep cfg fmt sv q ch rt ots ws thr).
Proof.
  intros st. unfold queryStep. run_norm.
  set (tu := traceOf (updateOrDeleteThinkingMessage sv (thinkingTs st) ch
                        (Some (MsgThinkingIn ws))) st).
  assert (Htu : forallb quiet tu = true) by apply quiet_update.
  destruct (fst (queryLlm sv ws thr (llmInput cfg q) _)) as [r | e].
  - right. run_norm.
    set (td := traceOf (updateOrDeleteThinkingMessage sv (thinkingTs st) ch None) _).
    assert (Htd : forallb quiet td = true) by apply quiet_update.
    eexists (tu ++ [Log Info "[Msg Handler] Querying LLM" None]), ws, thr, _, r, td, _, [].
    rewrite app_nil_r, <- app_assoc, forallb_app, Htu. cbn [app]. repeat split; auto.
  - left. rewrite forallb_app, Htu. reflexivity.
Qed.

Ltac shaped_blocks :=
  repeat first
    [ apply shaped_queryStep
    | apply shaped_quiet; solve [ emits_blocks ]
    | apply shaped_bind_after; [ solve [ emits_blocks ] | intros ]
    | apply shaped_tryCatch; [ | intros; solve [ emits_blocks ] ]
    | apply shaped_tryFinally; [ | solve [ emits_blocks ] ]
    | match goal with
      | |- shapedBlock _ _ _ _ _ _ (if ?b then _ else _) => destruct b
      | |- shapedBlock _ _ _ _ _ _ (match ?x with _ => _ end) => destruct x
      end
    | progress unfold fallbackPath, fallbackBody, llmQueryPath ].

Lemma shaped_fallbackPath q u : shaped (fallbackPath cfg fmt sv q u ch rt ots).
Proof. shaped_blocks. Qed.

(** *** Observations of a trace with quiet parts *)

Lemma quiet_no_feedback (l : Trace) : forallb quiet l = true -> existsb isFeedbackPost l = false.
Proof.
  induction l as [ | ev l IH ]; [ reflexivity | ].
  cbn [forallb existsb]. intros H. apply andb_true_iff in H as [Hev Hl].
  rewrite (IH Hl), orb_false_r. unfold quiet in Hev.
  destruct (isFeedbackPost ev); [ | reflexivity ].
  rewrite andb_false_r in Hev. discriminate.
Qed.

Lemma quiet_no_reply_post (ev : Event) : quiet ev = true -> isReplyPost ev = false.
Proof.
  unfold quiet. destruct (isReplyPost ev); [ | reflexivity ].
  rewrite andb_false_r. discriminate.
Qed.

Lemma quiet_no_llm_reply (ev : Event) : quiet ev = true -> isLlmReply ev = false.
Proof. unfold quiet. destruct (isLlmReply ev); [ discriminate | reflexivity ]. Qed.

Lemma trimmedReplyOf_skip (l t : Trace) :
  forallb (fun ev => negb (isLlmReply ev)) l = true ->
  trimmedReplyOf (l ++ t) = trimmedReplyOf t.
Proof.
  induction l as [ | ev l IH ]; [ reflexivity | ].
  cbn [forallb app]. intros H. apply andb_true_iff in H as [Hev Hl].
  destruct ev; cbn [trimmedReplyOf]; auto.
  destruct r; [ discriminate | auto ].
Qed.

Lemma lastMessageTsFrom_app (a : option string) (x y : Trace) :
  lastMessageTsFrom a (x ++ y) = lastMessageTsFrom (lastMessageTsFrom a x) y.
Proof.
  revert a. induction x as [ | ev x IH ]; intros a; [ reflexivity | ].
  destruct ev; cbn [app lastMessageTsFrom]; auto.
  destruct r; auto. destruct (pm_text args); auto.
Qed.

Lemma lastMessageTsFrom_skip (a : option string) (l : Trace) :
  forallb (fun ev => negb (isReplyPost ev)) l = true -> lastMessageTsFrom a l = a.
Proof.
  induction l as [ | ev l IH ]; [ reflexivity | ].
  cbn [forallb]. intros H. apply andb_true_iff in H as [Hev Hl].
  destruct ev; cbn [lastMessageTsFrom]; auto.
  destruct r; auto. cbn [isReplyPost] in Hev.
  destruct (pm_text args); auto. discriminate.
Qed.

Lemma replyPostsOf_app (x y : Trace) :
  replyPostsOf (x ++ y) = replyPostsOf x ++ replyPostsOf y.
Proof.
  induction x as [ | ev x IH ]; [ reflexivity | ].
  destruct ev; cbn [app replyPostsOf]; auto.
  destruct (pm_text args); cbn [app]; rewrite ?IH; reflexivity.
Qed.

Lemma replyPostsOf_skip (l : Trace) :
  forallb (fun ev => negb (isReplyPost ev)) l = true -> replyPostsOf l = [].
Proof.
  induction l as [ | ev l IH ]; [ reflexivity | ].
  cbn [forallb]. intros H. apply andb_true_iff in H as [Hev Hl].
  destruct ev; cbn [replyPostsOf]; auto.
  cbn [isReplyPost] in Hev. destruct (pm_text args); auto. discriminate.
Qed.

Lemma quiet_parts (l : Trace) :
  forallb quiet l = true ->
  forallb (fun ev => negb (isLlmReply ev)) l = true
  /\ forallb (fun ev => negb (isReplyPost ev)) l = true.
Proof.
  intros H. split; revert H; apply forallb_impl; intros ev Hev.
  - now rewrite (quiet_no_llm_reply ev Hev).
  - now rewrite (quiet_no_reply_post ev Hev).
Qed.

End Reply.


Section PostReply.

Context {Block World : Type}.
Variable cfg : Config.
Variable fmt : Formatting Block.
Variable sv : Services Block World.

Local Abbreviation Event := (Event Block).
Local Abbreviation Trace := (Trace Block).
Local Abbreviation H := (M Block World).
Implicit Types st : State World.

Variables (ch rt ots : string).

(** The post of one segment returns the [lastMessageTs] its trace shows. *)
Lemma postSegment_spec segmentText fallbackText last st :
  outcomeOf (postSegment fmt sv ch rt segmentText fallbackText last) st
  = Returned (lastMessageTsFrom last
                (traceOf (postSegment fmt sv ch rt segmentText fallbackText last) st))
  /\ existsb isFeedbackPost
       (traceOf (postSegment fmt sv ch rt segmentText fallbackText last) st) = false.
Proof.
  unfold postSegment.
  destruct (markdownToRichTextBlock fmt segmentText) as [b | ]; run_norm.
  - destruct (fst (chat_postMessage sv _ (world st))) as [r | e]; run_norm.
    + split; reflexivity.
    + destruct (fst (chat_postMessage sv _ _)) as [r | e']; run_norm; split; reflexivity.
  - destruct (fst (chat_postMessage sv _ (world st))) as [r | e]; run_norm;
      split; reflexivity.
Qed.

Lemma postSegments_spec segments i n last st :
  outcomeOf (postSegments fmt sv ch rt segments i n last) st
  = Returned (lastMessageTsFrom last
                (traceOf (postSegments fmt sv ch rt segments i n last) st))
  /\ existsb isFeedbackPost
       (traceOf (postSegments fmt sv ch rt segments i n last) st) = false.
Proof.
  revert i last st. induction segments as [ | segment rest IH ]; intros i last st.
  - split; reflexivity.
  - cbn [postSegments]. destruct (segmentTexts segment) as [segmentText fallbackText].
    destruct (Js.truthy segmentText); cbn [negb]; [ | apply IH ].
    destruct (postSegment_spec segmentText fallbackText last st) as [Ho Hf].
    rewrite outcomeOf_bind, traceOf_bind, Ho. cbv iota beta.
    set (last' := lastMessageTsFrom last _) in *.
    set (st1 := stateOf (postSegment fmt sv ch rt segmentText fallbackText last) st).
    rewrite outcomeOf_bind, traceOf_bind.
    assert (Hd : exists td,
               outcomeOf (if (1 <? n) && (i <? n - 1) then @emit Block World (Delay 500) else ret tt) st1
               = Returned tt
               /\ stateOf (if (1 <? n) && (i <? n - 1) then @emit Block World (Delay 500) else ret tt) st1
                  = st1
               /\ traceOf (if (1 <? n) && (i <? n - 1) then @emit Block World (Delay 500) else ret tt) st1
                  = td
               /\ (td = [] \/ td = [Delay 500])).
    { destruct (_ && _); eexists; repeat split; auto. }
    destruct Hd as (td & -> & -> & -> & Htd).
    destruct (IH (S i) last' st1) as [Ho' Hf'].
    rewrite Ho'. rewrite !lastMessageTsFrom_app, !existsb_app, Hf, Hf'.
    fold last'. destruct Htd as [-> | ->]; split; reflexivity.
Qed.

(** Steps 5e and 5f: the feedback buttons are posted exactly when the reply
    is at least [MIN_SUBSTANTIVE_RESPONSE_LENGTH] long and the last reply post
    that returned gave a timestamp. *)
Lemma postReply_feedback ws reply st :
  feedbackPosted (traceOf (postReply cfg fmt sv ch rt ots ws reply) st)
  = (MIN_SUBSTANTIVE_RESPONSE_LENGTH cfg <=? String.length reply)
    && Js.truthy_opt (lastMessageTsOf (traceOf (postReply cfg fmt sv ch rt ots ws reply) st)).
Proof.
  unfold feedbackPosted, lastMessageTsOf, postReply.
  destruct (Js.truthy reply) eqn:Hreply; cbn [negb].
  2:{ run_norm. destruct (fst (chat_postMessage sv _ _)); run_norm;
        cbn; rewrite andb_false_r; reflexivity. }
  set (sub := MIN_SUBSTANTIVE_RESPONSE_LENGTH cfg <=? String.length reply).
  set (feedback := fun l : option string =>
         if Js.truthy_opt l && sub
         then tryCatch CatchFeedback
                (bind (postMessage sv (feedbackPost ch rt ots ws)) (fun _ => ret tt))
                (fun e => logError Warn "[Msg Handler] Failed post feedback buttons:" e)
         else ret tt).
  assert (Hfb : forall l (stx : State World),
             existsb isFeedbackPost (traceOf (feedback l) stx) = Js.truthy_opt l && sub
             /\ forall a, lastMessageTsFrom a (traceOf (feedback l) stx) = a).
  { intros l stx. subst feedback. cbv beta.
    destruct (Js.truthy_opt l && sub); [ | split; reflexivity ].
    run_norm. destruct (fst (chat_postMessage sv _ _)); run_norm; split; reflexivity. }
  set (verdict := if sub then log Info "[Msg Handler] Response deemed substantive."
                  else log Info "[Msg Handler] Response deemed non-substantive.").
  assert (Hline : forall stx : State World,
             outcomeOf verdict stx = Returned tt /\ stateOf verdict stx = stx
             /\ exists line, traceOf verdict stx = [Log Info line None]).
  { intros stx. subst verdict. destruct sub; repeat split; eexists; reflexivity. }
  rewrite traceOf_bind.
  change (outcomeOf (log Info "[Msg Handler] LLM raw response length") st)
    with (@Returned unit tt).
  change (traceOf (log Info "[Msg Handler] LLM raw response length") st)
    with [Log (Block := Block) Info "[Msg Handler] LLM raw response length" None].
  change (stateOf (log Info "[Msg Handler] LLM raw response length") st) with st.
  cbv iota. rewrite traceOf_bind.
  destruct (Hline st) as (-> & -> & line & ->).
  rewrite traceOf_bind.
  destruct (extractTextAndCode fmt reply) as [ | segment rest ] eqn:Hseg.
  - assert (Hraw : exists txt blocks,
               rawReplyPost fmt ch rt reply = post ch rt (FromReply txt) blocks
               /\ match blocks with Some (FeedbackBlock _ _) => False | _ => True end).
    { unfold rawReplyPost. destruct (markdownToRichTextBlock fmt reply);
        eexists; eexists; split; try reflexivity; exact I. }
    destruct Hraw as (txt & blocks & -> & Hb).
    rewrite outcomeOf_bind, traceOf_bind, stateOf_bind.
    change (outcomeOf (log Warn ?x) st) with (@Returned unit tt).
    change (stateOf (log Warn ?x) st) with st.
    change (traceOf (log Warn ?x) st) with [Log (Block := Block) Warn x None].
    cbv iota. unfold postMessage.
    rewrite !outcomeOf_call, !traceOf_call, !stateOf_call.
    destruct (fst (chat_postMessage sv _ (world st))) as [l | e].
    + destruct (Hfb l {| world := snd (chat_postMessage sv (post ch rt (FromReply txt) blocks)
                                        (world st));
                         thinkingTs := thinkingTs st |}) as [Hf Hl].
      cbn [app existsb lastMessageTsFrom pm_text post isFeedbackPost pm_blocks].
      rewrite Hl.
      destruct blocks as [[] | ]; try contradiction;
        cbn [orb]; rewrite Hf; apply andb_comm.
    + cbn [app existsb lastMessageTsFrom pm_text post isFeedbackPost pm_blocks Js.truthy_opt].
      rewrite andb_false_r.
      destruct blocks as [[] | ]; try contradiction; reflexivity.
  - destruct (postSegments_spec (segment :: rest) 0 (length (segment :: rest)) None st)
      as [Ho Hf].
    rewrite Ho.
    set (l := lastMessageTsFrom None _) in *.
    destruct (Hfb l (stateOf (postSegments fmt sv ch rt (segment :: rest) 0
                                (length (segment :: rest)) None) st)) as [Hf' Hl].
    cbn [app existsb isFeedbackPost lastMessageTsFrom].
    rewrite existsb_app, lastMessageTsFrom_app, Hf, Hf', Hl.
    fold l. cbn [orb]. apply andb_comm.
Qed.

End PostReply.


Section ReplyObserved.

Context {Block World : Type}.
Variable cfg : Config.
Variable fmt : Formatting Block.
Variable sv : Services Block World.

Local Abbreviation Event := (Event Block).
Local Abbreviation Trace := (Trace Block).
Local Abbreviation H := (M Block World).
Implicit Types st : State World.

Variables (ch rt ots : string).


Lemma postReply_no_llm_reply ws reply st :
  forallb (fun ev : Event => negb (isLlmReply ev))
    (traceOf (postReply cfg fmt sv ch rt ots ws reply) st) = true.
Proof.
  eapply forallb_impl; [ | apply (postReply_footprint cfg fmt sv) ].
  intros ev. destruct ev; cbn; congruence.
Qed.

Local Abbreviation Shaped := (ShapedTrace cfg fmt sv ch rt ots).

(** The three observations on a shaped trace are those of the posting of the
    reply. *)
Lemma Shaped_observed (t : Trace) :
  Shaped t ->
  (trimmedReplyOf t = None /\ feedbackPosted t = false /\ replyPostsOf t = [])
  \/ exists ws reply st,
      trimmedReplyOf t = Some reply
      /\ feedbackPosted t
         = feedbackPosted (traceOf (postReply cfg fmt sv ch rt ots ws reply) st)
      /\ lastMessageTsOf t
         = lastMessageTsOf (traceOf (postReply cfg fmt sv ch rt ots ws reply) st)
      /\ replyPostsOf t
         = replyPostsOf (traceOf (postReply cfg fmt sv ch rt ots ws reply) st).
Proof.
  intros [Hq | (pre & ws & thr & input & r & mid & st & post & -> & Hpre & Hmid & Hpost)].
  - left. destruct (quiet_parts t Hq) as [Hl Hr].
    split; [ | split ].
    + rewrite <- (app_nil_r t). rewrite (trimmedReplyOf_skip _ _ Hl). reflexivity.
    + apply quiet_no_feedback. exact Hq.
    + apply replyPostsOf_skip. exact Hr.
  - right.
    destruct (quiet_parts pre Hpre) as [Hpre1 Hpre2].
    destruct (quiet_parts mid Hmid) as [Hmid1 Hmid2].
    destruct (quiet_parts post Hpost) as [Hpost1 Hpost2].
    eexists ws, _, st. split; [ | split; [ | split ] ].
    + rewrite (trimmedReplyOf_skip _ _ Hpre1). reflexivity.
    + unfold feedbackPosted. rewrite existsb_app. cbn [existsb isFeedbackPost].
      rewrite !existsb_app.
      rewrite (quiet_no_feedback pre Hpre), (quiet_no_feedback mid Hmid),
        (quiet_no_feedback post Hpost), orb_false_r.
      reflexivity.
    + unfold lastMessageTsOf. rewrite lastMessageTsFrom_app.
      cbn [lastMessageTsFrom]. rewrite !lastMessageTsFrom_app.
      rewrite (lastMessageTsFrom_skip _ pre Hpre2), (lastMessageTsFrom_skip _ mid Hmid2).
      apply lastMessageTsFrom_skip. exact Hpost2.
    + rewrite replyPostsOf_app. cbn [replyPostsOf]. rewrite !replyPostsOf_app.
      rewrite (replyPostsOf_skip pre Hpre2), (replyPostsOf_skip mid Hmid2),
        (replyPostsOf_skip post Hpost2), app_nil_r.
      reflexivity.
Qed.

End ReplyObserved.

Section HandlerShape.

Context {Block World : Type}.
Variable cfg : Config.
Variable fmt : Formatting Block.
Variable sv : Services Block World.

Lemma quiet_githubCommands q u ch rt ts :
  emits quiet (githubCommands cfg sv q u ch rt ts).
Proof. emits_blocks. Qed.

Lemma shaped_handler event octokit :
  shapedBlock cfg fmt sv (channel event) (replyTargetOf event) (ts event)
    (handleSlackMessageEventInternal cfg fmt sv event octokit).
Proof.
  unfold handleSlackMessageEventInternal.
  apply shaped_bind_after; [ emits_blocks | intros _ ].
  destruct (negb (Js.truthy (cleanedQueryOf cfg event)));
    [ apply shaped_quiet; emits_blocks | ].
  destruct (isDeleteCommand (cleanedQueryOf cfg event));
    [ apply shaped_quiet; emits_blocks | ].
  apply shaped_bind_after; [ unfold postThinkingMessage; emits_blocks | intros [t | ] ];
    [ | apply shaped_quiet; emits_blocks ].
  apply shaped_bind_after; [ emits_blocks | intros _ ].
  unfold afterThinkingMessage.
  destruct (isPotentialGhCommand cfg (cleanedQueryOf cfg event));
    [ | apply shaped_fallbackPath ].
  destruct (negb (Js.truthy (githubToken cfg))); [ apply shaped_quiet; emits_blocks | ].
  destruct (negb octokit); [ apply shaped_quiet; emits_blocks | ].
  apply shaped_bind_after; [ apply quiet_githubCommands | intros h ].
  destruct (negb h); [ apply shaped_fallbackPath | apply shaped_quiet; emits_blocks ].
Qed.

End HandlerShape.


(** * The claims *)

Section Claims.

Context {Block World : Type}.
Variable cfg : Config.
Variable fmt : Formatting Block.
Variable sv : Services Block World.

Local Abbreviation Event := (Event Block).
Local Abbreviation Trace := (Trace Block).
Implicit Types st : State World.

Lemma afterThinking_fallback event octokit t :
  isPotentialGhCommand cfg (cleanedQueryOf cfg event) = false ->
  afterThinkingMessage cfg fmt sv event octokit t
  = fallbackPath cfg fmt sv (cleanedQueryOf cfg event) (user event) (channel event)
      (replyTargetOf event) (ts event).
Proof. intros H. unfold afterThinkingMessage. rewrite H. reflexivity. Qed.

(** C7. A message whose text is empty once the bot mention is stripped and
    the rest trimmed is ignored: the handler returns after two console lines,
    and nothing is posted, run, classified or asked. *)
Theorem C7_empty_message_is_ignored (event : SlackEvent) (octokit : bool) (w : World) :
  cleanedQueryOf cfg event = "" ->
  run cfg fmt sv event octokit w
  = (Returned tt,
     [Log Info "[Msg Handler] Start" None;
      Log Info "[Msg Handler] Ignoring empty message after mention removal." None]).
Proof.
  intros Hq. unfold run, handleSlackMessageEventInternal.
  rewrite Hq. reflexivity.
Qed.

Lemma delete_command_not_empty q : isDeleteCommand q = true -> Js.truthy q = true.
Proof. destruct q; [ discriminate | reflexivity ]. Qed.

(** C10. A cleaned message whose lower-cased text starts with
    "#delete_last_message", whatever follows and whatever the command prefix
    is, goes to the delete handler and the handler ends there: the trace is
    the call between console lines, with no post, no GitHub check and no
    grammar; the handler returns when the delete handler returns. *)
Theorem C10_delete_command_is_a_prefix_test
    (event : SlackEvent) (octokit : bool) (w : World) :
  Js.startsWith (Js.toLowerCase (cleanedQueryOf cfg event)) "#delete_last_message" = true ->
  let channelId := channel event in
  let replyTarget := replyTargetOf event in
  let r := fst (handleDeleteLastMessageCommand sv channelId replyTarget (botUserId cfg) w) in
  run cfg fmt sv event octokit w
  = (match r with Returned _ => Returned tt | Threw e => Threw e end,
     [Log Info "[Msg Handler] Start" None;
      Log Info "[Msg Handler] Delete command detected." None;
      EvDeleteLast channelId replyTarget (botUserId cfg) r]
     ++ match r with
        | Returned _ => [Log Info "[Msg Handler] Delete handled." None]
        | Threw _ => []
        end).
Proof.
  intros Hd. cbv zeta.
  unfold run, handleSlackMessageEventInternal.
  fold (isDeleteCommand (cleanedQueryOf cfg event)) in Hd.
  rewrite (delete_command_not_empty _ Hd), Hd.
  unfold bind, log, emit, call. cbn [negb world thinkingTs].
  destruct (handleDeleteLastMessageCommand sv (channel event) (replyTargetOf event)
              (botUserId cfg) w) as [[[] | e] w']; reflexivity.
Qed.

(** C5, as the code has it. When the classifier throws on the non-command
    path, the handler does not go on to the LLM: the [catch] clause logs the
    error, the thinking message becomes the error notice with the error's
    message (when the event names a channel), and no workspace is resolved,
    no mapping is read or stored, no thread is created and no query is made;
    the handler itself returns normally. *)
Theorem C5_classifier_failure_ends_in_error_notice
    (event : SlackEvent) (octokit : bool) (w w1 w2 : World) (t : string) (e : Error) :
  ThinkingPosted cfg sv event w t w1 ->
  isPotentialGhCommand cfg (cleanedQueryOf cfg event) = false ->
  detectIntentAndWorkspace sv (cleanedQueryOf cfg event) w1 = (Threw e, w2) ->
  let tr := snd (run cfg fmt sv event octokit w) in
  fst (run cfg fmt sv event octokit w) = Returned tt
  /\ In (Log Err "[Msg Handler Error - Intent/LLM Path]" (Some e)) tr
  /\ never isDetermineWorkspace tr /\ never isGetMapping tr
  /\ never isStoreMapping tr /\ never isCreateThread tr /\ never isLlmQuery tr
  /\ (Js.truthy (channel event) = true -> updatesOf tr = [MsgOops (message e)]).
Proof.
  intros Hposted Hcmd Hdet tr. subst tr.
  pose proof Hposted as (_ & _ & _ & Ht).
  rewrite (run_after_thinking cfg fmt sv event octokit w w1 t Hposted). cbn [fst snd].
  rewrite (afterThinking_fallback event octokit t Hcmd).
  destruct (fallbackPath_detect_throws cfg fmt sv (cleanedQueryOf cfg event) (user event)
              (channel event) (replyTargetOf event) (ts event) w1 w2 t e Ht Hdet)
    as [Ho Htr].
  cbv zeta in Ho, Htr. rewrite Ho, Htr.
  set (tu := traceOf (updateOrDeleteThinkingMessage sv t (channel event)
                        (Some (MsgOops (message e)))) _).
  assert (Hfp : forallb (ofKinds [KLog; KCaught; KChatUpdate; KChatDelete]) tu = true)
    by apply update_footprint.
  split; [ reflexivity | ].
  split; [ cbn; auto 10 | ].
  assert (Hnever : forall kind : Event -> bool,
             (forall ev, ofKinds [KLog; KCaught; KChatUpdate; KChatDelete; KPostMessage;
                                  KDetectIntent] ev = true -> kind ev = false) ->
             never kind
               (Log Info "[Msg Handler] Start" None
                :: EvPostMessage (thinkingPost event) (Returned (Some t))
                :: ([Log Info "[Msg Handler] No command matched. Proceeding with Intent Detection -> Routing -> LLM query." None;
                     Log Info "[Msg Handler] Running Intent Detection..." None;
                     EvDetectIntent (cleanedQueryOf cfg event) (Threw e);
                     Caught CatchFallbackPath e;
                     Log Err "[Msg Handler Error - Intent/LLM Path]" (Some e)]
                    ++ tu ++ [Log Info "[Msg Handler - Fallback Path] Finished processing." None]))).
  { intros kind Hk. eapply ofKinds_never; [ exact Hk | ].
    assert (Hfp' : forallb (ofKinds [KLog; KCaught; KChatUpdate; KChatDelete;
                                     KPostMessage; KDetectIntent]) tu = true).
    { revert Hfp. apply forallb_impl. intros ev. destruct ev; cbn; congruence. }
    cbn [forallb app]. rewrite forallb_app, Hfp'. reflexivity. }
  repeat split; try (apply Hnever; by_kind).
  intros Hch. cbn [updatesOf app]. rewrite updatesOf_app.
  subst tu. rewrite (proj2 (update_observed sv t (channel event) _ _ Ht Hch)).
  reflexivity.
Qed.

(** C3. In a conversation whose stored mapping is for workspace W, a message
    on the fallback path that resolves to W again is asked in the stored
    thread: the LLM is queried with W and the stored thread slug, and the run
    makes no thread creation call and no mapping write. *)
Theorem C3_same_workspace_reuses_thread
    (event : SlackEvent) (octokit : bool) (w w1 w2 w3 w4 : World) (t : string)
    (ir : IntentResult) (W : string) (m : Mapping) :
  ThinkingPosted cfg sv event w t w1 ->
  isPotentialGhCommand cfg (cleanedQueryOf cfg event) = false ->
  detectIntentAndWorkspace sv (cleanedQueryOf cfg event) w1 = (Returned ir, w2) ->
  routingApplies cfg ir = false ->
  determineWorkspace sv (suggestedWorkspace ir) (user event) (channel event) w2
  = (Returned W, w3) ->
  Js.truthy W = true ->
  getAnythingLLMThreadMapping sv (channel event) (replyTargetOf event) w3
  = (Returned (Some m), w4) ->
  anythingllm_workspace_slug m = W ->
  let tr := snd (run cfg fmt sv event octokit w) in
  (exists r, In (EvQueryLlm W (anythingllm_thread_slug m)
                   (llmInput cfg (cleanedQueryOf cfg event)) r) tr)
  /\ never isCreateThread tr /\ never isStoreMapping tr.
Proof.
  intros Hposted Hcmd Hdet Hroute Hws HW Hmap Heq tr. subst tr.
  rewrite (run_after_thinking cfg fmt sv event octokit w w1 t Hposted). cbn [snd].
  rewrite (afterThinking_fallback event octokit t Hcmd).
  set (q := cleanedQueryOf cfg event) in *.
  destruct (fallbackPath_trace cfg fmt sv q (user event) (channel event)
              (replyTargetOf event) (ts event) {| world := w1; thinkingTs := t |})
    as (tl & -> & Htl).
  destruct (fallbackBody_to_thread cfg fmt sv q (user event) (channel event)
              (replyTargetOf event) (ts event) w1 w2 w3 t ir W Hdet Hroute Hws HW)
    as (line & ->).
  rewrite (traceOf_bind_returned _
             (threadForQuery_reuse sv (channel event) (replyTargetOf event) W m w3 w4 t
                Hmap Heq)).
  set (tq := traceOf (queryStep cfg fmt sv q (channel event) (replyTargetOf event)
                        (ts event) W (anythingllm_thread_slug m)) _).
  assert (Hq : forallb (ofKinds queryKinds) tq = true) by apply queryStep_footprint.
  split.
  - destruct (queryStep_queries cfg fmt sv q (channel event) (replyTargetOf event)
                (ts event) W (anythingllm_thread_slug m) {| world := w4; thinkingTs := t |})
      as [r Hr].
    exists r. fold tq in Hr. cbn [app]. repeat apply in_cons.
    apply in_or_app. left. exact Hr.
  - assert (Hnever : forall kind : Event -> bool,
               (forall ev, ofKinds (KGetMapping :: KDetermineWorkspace :: KDetectIntent
                                    :: queryKinds) ev = true -> kind ev = false) ->
               never kind
                 (Log Info "[Msg Handler] Start" None
                  :: EvPostMessage (thinkingPost event) (Returned (Some t))
                  :: Log Info "[Msg Handler] No command matched. Proceeding with Intent Detection -> Routing -> LLM query." None
                  :: ([Log Info "[Msg Handler] Running Intent Detection..." None;
                       EvDetectIntent q (Returned ir);
                       Log Info line None;
                       Log Info "[Msg Handler] Determining workspace for LLM query..." None;
                       EvDetermineWorkspace (suggestedWorkspace ir) (user event)
                         (channel event) (Returned W);
                       Log Info "[Msg Handler] Final workspace determined for LLM" None]
                      ++ [Log Info "[Msg Handler] Checking/Updating thread mapping for LLM query..." None;
                          EvGetMapping (channel event) (replyTargetOf event)
                            (Returned (Some m));
                          Log Info "[Msg Handler] Using existing thread mapping for LLM" None]
                      ++ tq) ++ tl)).
    { intros kind Hk. eapply ofKinds_never; [ exact Hk | ].
      assert (Hweak : forall l : Trace, forallb (ofKinds queryKinds) l = true ->
                forallb (ofKinds (KGetMapping :: KDetermineWorkspace :: KDetectIntent
                                  :: queryKinds)) l = true).
      { intros l. apply forallb_impl. intros ev. destruct ev; cbn; congruence. }
      cbn [forallb app]. rewrite !forallb_app, (Hweak _ Hq), (Hweak _ Htl).
      reflexivity. }
    split; apply Hnever; by_kind.
Qed.

(** The issue command with a mapping for the conversation: the stored thread
    is handed on whatever the workspace is, and nothing is created or stored. *)
Lemma issueContext_keeps_stored_thread u ch rt (explicitWs : option string) (m : Mapping)
    (w w' : World) (t : string) :
  getAnythingLLMThreadMapping sv ch rt w = (Returned (Some m), w') ->
  Js.truthy (anythingllm_thread_slug m) = true ->
  Js.truthy (Js.opt_or_else explicitWs (anythingllm_workspace_slug m)) = true ->
  issueContext sv u ch rt explicitWs {| world := w; thinkingTs := t |}
  = (Returned (Js.opt_or_else explicitWs (anythingllm_workspace_slug m),
               anythingllm_thread_slug m),
     {| world := w'; thinkingTs := t |},
     [EvGetMapping ch rt (Returned (Some m));
      Log Info "[Msg Handler - Issue Cmd] Using context" None]).
Proof.
  intros Hmap Hthr Hws. unfold issueContext, bind, call, log, emit, ret.
  cbn [world thinkingTs]. rewrite Hmap. cbn [app]. rewrite Hthr, Hws. reflexivity.
Qed.

(** C4. On the non-command path, once the thinking message is posted (in a
    channel), the run releases it exactly once: among the updates to a final
    text and the deletes of that message there is exactly one call, so never
    an update to a final text and a delete as well. *)
Theorem C4_thinking_message_is_released_once
    (event : SlackEvent) (octokit : bool) (w w1 : World) (t : string) :
  ThinkingPosted cfg sv event w t w1 ->
  isPotentialGhCommand cfg (cleanedQueryOf cfg event) = false ->
  Js.truthy (channel event) = true ->
  releases (channel event) t (snd (run cfg fmt sv event octokit w)) = 1.
Proof.
  intros Hposted Hcmd Hch.
  pose proof Hposted as (_ & _ & _ & Ht).
  rewrite (run_after_thinking cfg fmt sv event octokit w w1 t Hposted). cbn [snd].
  rewrite (afterThinking_fallback event octokit t Hcmd).
  rewrite !(releases_cons (channel event) t). cbn [isRelease Nat.add].
  apply (fallbackPath_releases_once cfg fmt sv); auto.
Qed.

(** C9, as the code has it. Every error a [catch] clause of the handler
    receives is followed at once by a [console.warn] or [console.error] that
    carries it, except the three the source swallows without a line: a failed
    update or delete of the thinking message that Slack reports as
    message_not_found or cant_update_message, a failed retry of a segment
    without blocks, and a failed post of the error notice. *)
Theorem C9_caught_errors_are_logged_or_swallowed_by_design
    (event : SlackEvent) (octokit : bool) (w : World) :
  everyCaughtLogged swallowedSilently (snd (run cfg fmt sv event octokit w)) = true.
Proof. rewrite run_trace. apply accounts_handler. Qed.

(** C6, as the code has it. The feedback buttons are posted, as a message of
    their own after the reply, exactly when a query returned, the trimmed
    reply is at least [MIN_SUBSTANTIVE_RESPONSE_LENGTH] long (equal counts)
    and the last reply post that returned gave a message timestamp. *)
Theorem C6_feedback_needs_length_and_a_posted_reply
    (event : SlackEvent) (octokit : bool) (w : World) :
  let tr := snd (run cfg fmt sv event octokit w) in
  feedbackPosted tr
  = match trimmedReplyOf tr with
    | Some reply =>
        (MIN_SUBSTANTIVE_RESPONSE_LENGTH cfg <=? String.length reply)
        && Js.truthy_opt (lastMessageTsOf tr)
    | None => false
    end.
Proof.
  cbv zeta. rewrite run_trace.
  destruct (Shaped_observed cfg fmt sv (channel event) (replyTargetOf event) (ts event) _
              (shaped_handler cfg fmt sv event octokit {| world := w; thinkingTs := "" |}))
    as [(Hr & Hf & _) | (ws & reply & st & Hr & Hf & Hl & _)].
  - rewrite Hr, Hf. reflexivity.
  - rewrite Hr, Hf, Hl. apply postReply_feedback.
Qed.


End Claims.


(** * Further properties *)

(** ** What a match captures *)

Section CaptureFacts.

Import Regex.

(** A pattern without groups hands the captures on as they are, and a pattern
    that is not nullable consumes input. *)
Lemma iterate_captureFree {R} (m : string -> Captures -> Cont R -> option R) :
  (forall s caps k c, m s caps k = Some c ->
     exists s', k s' caps = Some c /\ String.length s' <= String.length s) ->
  forall fuel s caps k c,
    iterate m fuel s caps k = Some c ->
    exists s', k s' caps = Some c /\ String.length s' <= String.length s.
Proof.
  intros Hm. induction fuel as [ | fuel IH ]; intros s caps k c H.
  - exists s. split; [ exact H | lia ].
  - cbn [iterate] in H.
    destruct (m s caps _) as [c0 | ] eqn:E.
    + injection H as ->. apply Hm in E as (s1 & E & Hlen).
      destruct (String.length s1 <? String.length s) eqn:Hlt; [ | discriminate ].
      apply IH in E as (s2 & E & Hlen2). exists s2. split; [ exact E | lia ].
    + exists s. split; [ exact H | lia ].
Qed.

Lemma rmatch_captureFree {R} (r : regex) :
  captureFree r = true ->
  forall s caps (k : Cont R) c,
    rmatch r s caps k = Some c ->
    exists s', k s' caps = Some c
               /\ String.length s' <= String.length s
               /\ (nullable r = false -> String.length s' < String.length s).
Proof.
  induction r as [ | p | r1 IH1 r2 IH2 | r1 IH1 r2 IH2 | r IH | name r IH | ];
    cbn [captureFree nullable]; intros Hfree s caps k c H.
  - exists s. repeat split; [ exact H | lia | discriminate ].
  - cbn [rmatch] in H. destruct s as [ | x s ]; [ discriminate | ].
    destruct (p x); [ | discriminate ].
    exists s. cbn [String.length]. repeat split; [ exact H | lia | lia ].
  - apply andb_true_iff in Hfree as [F1 F2]. cbn [rmatch] in H.
    apply (IH1 F1) in H as (s1 & H & L1 & N1).
    apply (IH2 F2) in H as (s2 & H & L2 & N2).
    exists s2. repeat split; [ exact H | lia | ].
    intros Hn. apply andb_false_iff in Hn as [Hn | Hn]; [ specialize (N1 Hn) | specialize (N2 Hn) ]; lia.
  - apply andb_true_iff in Hfree as [F1 F2]. cbn [rmatch] in H.
    destruct (rmatch r1 s caps k) as [c0 | ] eqn:E.
    + injection H as ->. apply (IH1 F1) in E as (s1 & E & L1 & N1).
      exists s1. repeat split; [ exact E | lia | ].
      intros Hn. apply orb_false_iff in Hn as [Hn _]. auto.
    + apply (IH2 F2) in H as (s2 & H & L2 & N2).
      exists s2. repeat split; [ exact H | lia | ].
      intros Hn. apply orb_false_iff in Hn as [_ Hn]. auto.
  - cbn [rmatch] in H.
    apply (iterate_captureFree (rmatch r)) in H as (s' & H & L).
    + exists s'. repeat split; [ exact H | exact L | discriminate ].
    + intros s0 caps0 k0 c0 H0. apply (IH Hfree) in H0 as (s1 & H0 & L1 & _). eauto.
  - discriminate.
  - cbn [rmatch] in H. destruct s; [ | discriminate ].
    exists "". repeat split; [ exact H | lia | discriminate ].
Qed.

Lemma take_truthy (n : nat) (s : string) :
  0 < n -> 0 < String.length s -> Js.truthy (Js.take n s) = true.
Proof.
  intros Hn Hs. destruct n as [ | n ]; [ lia | ].
  destruct s as [ | c s ]; [ cbn in Hs; lia | reflexivity ].
Qed.

(** A group around a pattern without groups that is not nullable captures a
    string that is not empty. *)
Lemma rmatch_group {R} (name : string) (r : regex) s caps (k : Cont R) c :
  captureFree r = true -> nullable r = false ->
  rmatch (Group name r) s caps k = Some c ->
  exists s' v, k s' ((name, v) :: caps) = Some c /\ Js.truthy v = true.
Proof.
  intros Hfree Hnull H. cbn [rmatch] in H.
  apply (rmatch_captureFree r Hfree) in H as (s' & H & L & N).
  specialize (N Hnull).
  exists s', (Js.take (String.length s - String.length s') s).
  split; [ exact H | apply take_truthy; lia ].
Qed.

Lemma length_app (a b : string) :
  String.length (a ++ b)%string = String.length a + String.length b.
Proof. induction a as [ | c a IH ]; cbn; [ reflexivity | rewrite IH; reflexivity ]. Qed.

Lemma take_app (v s' : string) :
  Js.take (String.length (v ++ s')%string - String.length s') (v ++ s')%string = v.
Proof.
  assert (E : String.length (v ++ s')%string - String.length s' = String.length v).
  { rewrite length_app. lia. }
  rewrite E. clear E. unfold Js.take.
  induction v as [ | c v IH ]; cbn [String.append String.length String.substring].
  - destruct s'; reflexivity.
  - rewrite IH. reflexivity.
Qed.

Lemma rmatch_char {R} (p : ascii -> bool) (s : string) caps (k : Cont R) :
  rmatch (Char p) s caps k
  = match s with
    | String c s' => if p c then k s' caps else None
    | EmptyString => None
    end.
Proof. reflexivity. Qed.

Lemma iterate_class {R} (p : ascii -> bool) :
  forall fuel s caps (k : Cont R) c,
    iterate (rmatch (Char p)) fuel s caps k = Some c ->
    exists v s', s = (v ++ s')%string /\ allOf p v = true /\ k s' caps = Some c.
Proof.
  induction fuel as [ | fuel IH ]; intros s caps k c H.
  - exists "", s. auto.
  - cbn [iterate] in H. rewrite rmatch_char in H. destruct s as [ | x s ].
    + exists "", "". auto.
    + destruct (p x) eqn:Hx.
      * cbn [String.length] in H.
        rewrite (proj2 (Nat.ltb_lt _ _) (Nat.lt_succ_diag_r _)) in H.
        destruct (iterate (rmatch (Char p)) fuel s caps k) as [c0 | ] eqn:E.
        -- injection H as ->. apply IH in E as (v & s' & -> & Hv & E).
           exists (String x v), s'. cbn [allOf String.append]. rewrite Hx, Hv. auto.
        -- exists "", (String x s). auto.
      * exists "", (String x s). auto.
Qed.

(** [(?<name>[class]+)] captures a string of the class that is not empty. *)
Lemma rmatch_group_class {R} (name : string) (p : ascii -> bool) s caps (k : Cont R) c :
  rmatch (Group name (Plus (Char p))) s caps k = Some c ->
  exists v s', k s' ((name, v) :: caps) = Some c
               /\ Js.truthy v = true /\ allOf p v = true.
Proof.
  intros H. cbn [rmatch Plus] in H.
  destruct s as [ | x s ]; [ discriminate | ].
  destruct (p x) eqn:Hx; [ | discriminate ].
  apply iterate_class in H as (v & s' & -> & Hv & H).
  exists (String x v), s'. split; [ | split ].
  - rewrite <- (take_app (String x v) s'). exact H.
  - reflexivity.
  - cbn [allOf]. rewrite Hx, Hv. reflexivity.
Qed.

(** [parseInt] of a string of digits that is not empty is a number. *)
Lemma digitsValue_seen (s : string) (acc : Z) : exists n, Js.digitsValue s acc true = Some n.
Proof.
  revert acc. induction s as [ | c s IH ]; intros acc; cbn [Js.digitsValue]; eauto.
  destruct (Js.isDigit c); eauto.
Qed.

Lemma digit_starts_number (c : ascii) :
  Js.isDigit c = true ->
  Js.isWhiteSpace c = false /\ c <> "-"%char /\ c <> "+"%char.
Proof.
  destruct c as [[] [] [] [] [] [] [] []]; vm_compute; intros H;
    first [ discriminate H | repeat split; discriminate ].
Qed.

Lemma parseInt_digits (v : string) :
  Js.truthy v = true -> allOf Js.isDigit v = true -> exists n, Js.parseInt v = Some n.
Proof.
  destruct v as [ | c v ]; [ discriminate | ]. intros _ H. cbn [allOf] in H.
  apply andb_true_iff in H as [Hc _].
  destruct (digit_starts_number c Hc) as (Hws & Hminus & Hplus).
  unfold Js.parseInt. cbn [Js.trimStart]. rewrite Hws.
  assert (E : Js.digitsValue (String c v) 0 false
              = Js.digitsValue v (10 * 0 + Z.of_nat (Js.code c - 48))%Z true).
  { cbn [Js.digitsValue]. rewrite Hc. reflexivity. }
  destruct (digitsValue_seen v (10 * 0 + Z.of_nat (Js.code c - 48))%Z) as [n Hn].
  exists (Js.toNumber n). rewrite <- E in Hn.
  destruct c as [[] [] [] [] [] [] [] []];
    first [ congruence | cbv beta iota; rewrite Hn; reflexivity ].
Qed.

End CaptureFacts.


Section MatchedCommands.

Import Regex.

Variable cfg : Config.

Lemma captureFree_litCI (p : string) : captureFree (litCI p) = true.
Proof. induction p as [ | c p IH ]; [ reflexivity | exact IH ]. Qed.

Lemma rmatch_empty {R} (s : string) caps (k : Cont R) : rmatch Empty s caps k = k s caps.
Proof. reflexivity. Qed.

Lemma rmatch_eos {R} (s : string) caps (k : Cont R) :
  rmatch Eos s caps k = match s with EmptyString => k s caps | String _ _ => None end.
Proof. reflexivity. Qed.

Ltac invert_step H :=
  lazymatch type of H with
  | rmatch (Group _ (Plus (Char _))) _ _ _ = Some _ =>
      apply rmatch_group_class in H as (? & ? & H & ? & ?)
  | rmatch (Group _ _) _ _ _ = Some _ =>
      apply rmatch_group in H as (? & ? & H & ?); [ | reflexivity | reflexivity ]
  | rmatch (litCI (COMMAND_PREFIX _)) _ _ _ = Some _ =>
      apply rmatch_captureFree in H as (? & H & _ & _); [ | apply captureFree_litCI ]
  | rmatch (Seq _ _) _ _ _ = Some _ =>
      first [ apply rmatch_captureFree in H as (? & H & _ & _); [ | reflexivity ]
            | rewrite rmatch_seq in H ]
  | rmatch (Alt _ _) _ _ _ = Some _ =>
      first [ apply rmatch_captureFree in H as (? & H & _ & _); [ | reflexivity ]
            | rewrite rmatch_alt in H;
              let E := fresh "E" in
              destruct (rmatch _ _ _ _) eqn:E in H;
              [ injection H as ->; rename E into H | clear E ] ]
  | rmatch Eos ?s _ _ = Some _ =>
      rewrite rmatch_eos in H; destruct s; [ | discriminate H ]
  | rmatch Empty _ _ _ = Some _ => rewrite rmatch_empty in H
  | rmatch _ _ _ _ = Some _ =>
      apply rmatch_captureFree in H as (? & H & _ & _); [ | reflexivity ]
  end;
  cbv beta in H.

Ltac invert_match H :=
  unfold matchAnchored, Patterns.RELEASE_REGEX, Patterns.PR_REVIEW_REGEX,
    Patterns.ISSUE_ANALYSIS_REGEX, Patterns.GENERIC_API_REGEX, Patterns.CMD_PREFIX,
    Patterns.digit, Patterns.wordDotDash, Patterns.wordDash, Patterns.dot, Opt in H;
  cbn [seqs] in H;
  repeat invert_step H;
  injection H as <-.

(** A text that matches the PR review pattern has an owner, a repository, a
    number and a workspace: the test of line 164 passes. *)
Lemma pr_review_params (q : string) (groups : Captures) :
  matchAnchored (Patterns.PR_REVIEW_REGEX cfg) q = Some groups ->
  exists o r n w, prReviewParams groups = Some (o, r, n, w).
Proof.
  intros H. invert_match H.
  match goal with
  | Hd : allOf Js.isDigit ?v = true, Ht : Js.truthy ?v = true |- _ =>
      destruct (parseInt_digits v Ht Hd) as [n Hn]
  end.
  unfold prReviewParams, parseIntOpt. cbn [group String.eqb Ascii.eqb Bool.eqb].
  rewrite Hn.
  repeat match goal with Ht : Js.truthy _ = true |- _ => rewrite Ht; clear Ht end.
  cbn [andb]. eauto.
Qed.

(** A text that matches the issue pattern has an issue number: the test of
    line 182 passes. *)
Lemma issue_number_parsed (q : string) (groups : Captures) :
  matchAnchored (Patterns.ISSUE_ANALYSIS_REGEX cfg) q = Some groups ->
  exists n, parseIntOpt (group "issue_number" groups) = Some n.
Proof.
  intros H. invert_match H;
    match goal with
    | Hd : allOf Js.isDigit ?v = true, Ht : Js.truthy ?v = true |- _ =>
        destruct (parseInt_digits v Ht Hd) as [n Hn]
    end;
    unfold parseIntOpt; cbn [group String.eqb Ascii.eqb Bool.eqb]; eauto.
Qed.

(** A text that matches the release pattern names a repository and a text
    that matches the API pattern has a query: the tests of lines 152 and 229
    pass. *)
Lemma release_repo_id (q : string) (groups : Captures) :
  matchAnchored (Patterns.RELEASE_REGEX cfg) q = Some groups ->
  exists v, requiredGroup "repo_id" (Patterns.RELEASE_REGEX cfg) q = Some v.
Proof.
  intros H. unfold requiredGroup. rewrite H. invert_match H.
  cbn [group String.eqb Ascii.eqb Bool.eqb].
  match goal with Ht : Js.truthy _ = true |- _ => rewrite Ht end. eauto.
Qed.

Lemma api_query_captured (q : string) (groups : Captures) :
  matchAnchored (Patterns.GENERIC_API_REGEX cfg) q = Some groups ->
  exists v, requiredGroup "api_query" (Patterns.GENERIC_API_REGEX cfg) q = Some v.
Proof.
  intros H. unfold requiredGroup. rewrite H. invert_match H.
  cbn [group String.eqb Ascii.eqb Bool.eqb].
  match goal with Ht : Js.truthy _ = true |- _ => rewrite Ht end. eauto.
Qed.

End MatchedCommands.


(** ** The patterns and the prefix test *)

Section PrefixFacts.

Import Regex.

Variable cfg : Config.

Lemma lower_of_canon (x : ascii) : Js.lowerChar (Js.canonChar x) = Js.lowerChar x.
Proof. destruct x as [[] [] [] [] [] [] [] []]; reflexivity. Qed.

Lemma lower_idempotent (x : ascii) : Js.lowerChar (Js.lowerChar x) = Js.lowerChar x.
Proof. destruct x as [[] [] [] [] [] [] [] []]; reflexivity. Qed.

Lemma toLowerCase_idempotent (s : string) :
  Js.toLowerCase (Js.toLowerCase s) = Js.toLowerCase s.
Proof.
  induction s as [ | c s IH ]; [ reflexivity | ].
  cbn [Js.toLowerCase]. rewrite lower_idempotent, IH. reflexivity.
Qed.

(** A prefix of a lower-cased string is in lower case. *)
Lemma prefix_of_lower (p s : string) :
  String.prefix p (Js.toLowerCase s) = true -> Js.toLowerCase p = p.
Proof.
  revert s. induction p as [ | c p IH ]; intros s H; [ reflexivity | ].
  destruct s as [ | x s ]; [ discriminate | ].
  cbn [Js.toLowerCase String.prefix] in *.
  destruct (ascii_dec c (Js.lowerChar x)) as [-> | ]; [ | discriminate ].
  rewrite lower_idempotent, (IH s H). reflexivity.
Qed.

(** A literal found without regard to case is found in the lower-cased text. *)
Lemma stripCI_prefix (p s s' : string) :
  stripCI p s = Some s' -> String.prefix (Js.toLowerCase p) (Js.toLowerCase s) = true.
Proof.
  revert s. induction p as [ | c p IH ]; intros s H.
  - destruct s; reflexivity.
  - destruct s as [ | x s ]; [ discriminate | ]. cbn [stripCI] in H.
    destruct (Ascii.eqb _ _) eqn:E; [ | discriminate ].
    apply Ascii.eqb_eq in E. cbn [Js.toLowerCase String.prefix].
    rewrite <- (lower_of_canon c), <- E, lower_of_canon.
    destruct (ascii_dec _ _) as [ _ | Hne ]; [ | contradiction Hne; reflexivity ].
    apply (IH s H).
Qed.

Lemma accepted_has_prefix (rest : regex) (q : string) (groups : Captures) :
  matchAnchored (Seq (Patterns.CMD_PREFIX cfg) rest) q = Some groups ->
  exists s', stripCI (COMMAND_PREFIX cfg) q = Some s'.
Proof.
  unfold matchAnchored, Patterns.CMD_PREFIX. rewrite rmatch_seq, rmatch_litCI.
  destruct (stripCI _ _) as [s' | ]; [ eauto | discriminate ].
Qed.

Lemma accepted_is_potential (r : regex) (q : string) :
  In r [Patterns.RELEASE_REGEX cfg; Patterns.PR_REVIEW_REGEX cfg;
        Patterns.ISSUE_ANALYSIS_REGEX cfg; Patterns.GENERIC_API_REGEX cfg] ->
  Js.toLowerCase (COMMAND_PREFIX cfg) = COMMAND_PREFIX cfg ->
  accepts r q = true ->
  isPotentialGhCommand cfg q = true.
Proof.
  intros Hr Hlow. unfold accepts.
  destruct (matchAnchored r q) as [groups | ] eqn:H; [ intros _ | discriminate ].
  assert (Hs : exists s', stripCI (COMMAND_PREFIX cfg) q = Some s').
  { cbn [In] in Hr. destruct Hr as [<- | [<- | [<- | [<- | []]]]];
      eapply accepted_has_prefix; exact H. }
  destruct Hs as [s' Hs]. unfold isPotentialGhCommand, Js.startsWith.
  rewrite <- Hlow. apply (stripCI_prefix _ _ _ Hs).
Qed.

End PrefixFacts.


(** ** Invariants of every run *)

(** The rules of [emits] with the branch conditions kept and the test on each
    event left to [tac]. *)
Ltac emits_case :=
  match goal with
  | |- emits _ (if negb ?b then _ else _) => destruct b eqn:?; cbn [negb]
  | |- emits _ (if ?a && ?b then _ else _) =>
      destruct a eqn:?; destruct b eqn:?; cbn [negb andb]
  | |- emits _ (if ?b then _ else _) => destruct b eqn:?
  | |- emits _ (match ?x with _ => _ end) => destruct x eqn:?
  end.

Ltac emits_rule tac :=
  match goal with
  | |- emits _ (ret _) => apply emits_ret
  | |- emits _ (throw _) => apply emits_throw
  | |- emits _ (emit _) => apply emits_emit; tac
  | |- emits _ (log _ _) => apply emits_emit; tac
  | |- emits _ (logError _ _ _) => apply emits_emit; tac
  | |- emits _ (call _ _) => apply emits_call; intros; tac
  | |- emits _ (postMessage _ _) => apply emits_call; intros; tac
  | |- emits _ getThinkingTs => apply emits_get
  | |- emits _ (setThinkingTs _) => apply emits_set
  | |- emits _ (bind _ _) => apply emits_bind; [ | intros ]
  | |- emits _ (tryCatch _ _ _) => apply emits_tryCatch; [ | intros; tac | intros ]
  | |- emits _ (tryFinally _ _) => apply emits_tryFinally
  | |- emits _ (updateOrDeleteThinkingMessage _ _ _ _) =>
      apply emits_update; intros; tac
  | |- emits _ (postSegments _ _ _ _ _ _ _ _) => apply emits_postSegments; intros; tac
  end.

Ltac emits_unfold :=
  progress unfold handleSlackMessageEventInternal, postThinkingMessage,
    afterThinkingMessage, githubCommands, releaseCommand, prReviewCommand,
    issueAnalysisCommand, issueContext, genericApiCommand, unknownCommand,
    fallbackPath, fallbackBody, fallbackCatch, fallbackFinally, intentRouting,
    intentContext, llmQueryPath, threadForQuery, queryStep, postReply.

Ltac emits_all tac := repeat first [ emits_rule tac | emits_case | emits_unfold ].

Section Invariants.

Context {Block World : Type}.
Variable cfg : Config.
Variable fmt : Formatting Block.
Variable sv : Services Block World.

Local Abbreviation Event := (Event Block).
Local Abbreviation Trace := (Trace Block).
Implicit Types st : State World.

Lemma handler_inConversation event octokit :
  emits (inConversation (channel event) (replyTargetOf event))
    (handleSlackMessageEventInternal cfg fmt sv event octokit).
Proof.
  emits_all ltac:(unfold rawReplyPost; try destruct (markdownToRichTextBlock _ _);
                  destruct_all (option (Blocks Block));
                  cbn; rewrite ?String.eqb_refl; reflexivity).
Qed.

(** What the set-up of the issue command hands to the executor is never
    empty. *)
Lemma issueContext_names u ch rt explicitWs st llmWs llmThread :
  outcomeOf (issueContext sv u ch rt explicitWs) st = Returned (llmWs, llmThread) ->
  Js.truthy llmWs = true /\ Js.truthy llmThread = true.
Proof.
  unfold issueContext. rewrite outcomeOf_bind.
  destruct (outcomeOf (call _ _) st) as [mapping | ]; [ | discriminate ].
  rewrite outcomeOf_bind.
  destruct (outcomeOf _ _) as [[ws thr] | ]; [ | discriminate ].
  destruct (Js.truthy thr) eqn:Hthr; destruct (Js.truthy ws) eqn:Hws; cbn [negb andb];
    run_norm; try discriminate.
  - intros [= <- <-]. auto.
  - destruct (fst (createNewAnythingLLMThread sv ws _)) as [newThread | ];
      [ | discriminate ].
    destruct (Js.truthy newThread) eqn:Hnew; cbn [negb]; run_norm; [ | discriminate ].
    destruct (fst (storeAnythingLLMThreadMapping sv ch rt ws newThread _));
      [ | discriminate ].
    intros [= <- <-]. auto.
Qed.

Lemma prReviewParams_names groups o r n w :
  prReviewParams groups = Some (o, r, n, w) ->
  Js.truthy o = true /\ Js.truthy r = true /\ Js.truthy w = true.
Proof.
  unfold prReviewParams.
  destruct (Regex.group "owner" groups) as [o' | ]; [ | discriminate ].
  destruct (Regex.group "repo" groups) as [r' | ]; [ | discriminate ].
  destruct (parseIntOpt _) as [n' | ]; [ | discriminate ].
  destruct (Regex.group "workspace_slug" groups) as [w' | ]; [ | discriminate ].
  destruct (Js.truthy o') eqn:Ho; destruct (Js.truthy r') eqn:Hr;
    destruct (Js.truthy w') eqn:Hw; cbn [andb]; try discriminate.
  intros [= <- <- <- <-]. auto.
Qed.

Ltac names_given :=
  cbn [namesGiven];
  repeat match goal with
         | H : Js.truthy _ = true |- _ => rewrite H
         | H : prReviewParams _ = Some _ |- _ =>
             apply prReviewParams_names in H as (? & ? & ?)
         end;
  reflexivity.

Lemma afterThinking_namesGiven event octokit t :
  Js.truthy t = true ->
  emits namesGiven (afterThinkingMessage cfg fmt sv event octokit t).
Proof.
  intros Ht. unfold afterThinkingMessage, githubCommands, issueAnalysisCommand.
  repeat first
    [ match goal with
      | |- emits _ (bind (issueContext _ _ _ _ _) _) =>
          apply emits_bind_outcome
            with (P := fun ctx => Js.truthy (fst ctx) = true /\ Js.truthy (snd ctx) = true);
          [ | intros ? [? ?]; apply issueContext_names
            | intros [? ?] [? ?]; cbn [fst snd] in * ]
      end
    | emits_rule names_given | emits_case | emits_unfold ].
Qed.

Lemma handler_namesGiven event octokit :
  emits namesGiven (handleSlackMessageEventInternal cfg fmt sv event octokit).
Proof.
  unfold handleSlackMessageEventInternal, postThinkingMessage.
  repeat first
    [ match goal with
      | |- emits _ (bind (tryCatch CatchInitialPost _ _) _) =>
          apply emits_bind_outcome
            with (P := fun o => match o with Some t => Js.truthy t = true | None => True end);
          [ | intros st o; rewrite outcomeOf_tryCatch, outcomeOf_bind;
              destruct (outcomeOf _ st) as [[t | ] | ];
              [ destruct (Js.truthy t) eqn:Et | | ]; run_norm;
              intros [= <-]; auto
            | intros [t | ] Ht ]
      | |- emits _ (afterThinkingMessage _ _ _ _ _ _) =>
          apply afterThinking_namesGiven; assumption
      end
    | emits_rule names_given | emits_case ].
Qed.

Lemma prReviewCommand_no_format_notice q ch rt ts h :
  emits (fun ev => negb (isFormatNotice ev)) (prReviewCommand cfg sv q ch rt ts h).
Proof.
  unfold prReviewCommand. destruct h; cbn [negb]; [ apply emits_ret | ].
  destruct (Regex.matchAnchored _ q) as [groups | ] eqn:Hm; [ | apply emits_ret ].
  destruct (pr_review_params cfg q groups Hm) as (o & r & n & w & ->).
  emits_all reflexivity.
Qed.

Lemma issueAnalysisCommand_no_format_notice q u ch rt ts h :
  emits (fun ev => negb (isFormatNotice ev)) (issueAnalysisCommand cfg sv q u ch rt ts h).
Proof.
  unfold issueAnalysisCommand. destruct h; cbn [negb]; [ apply emits_ret | ].
  destruct (Regex.matchAnchored _ q) as [groups | ] eqn:Hm; [ | apply emits_ret ].
  destruct (issue_number_parsed cfg q groups Hm) as (n & ->).
  emits_all ltac:(try destruct_all Msg; reflexivity).
Qed.

Lemma handler_no_format_notice event octokit :
  emits (fun ev => negb (isFormatNotice ev))
    (handleSlackMessageEventInternal cfg fmt sv event octokit).
Proof.
  unfold handleSlackMessageEventInternal, postThinkingMessage, afterThinkingMessage,
    githubCommands.
  repeat first
    [ apply prReviewCommand_no_format_notice
    | apply issueAnalysisCommand_no_format_notice
    | emits_rule reflexivity | emits_case
    | progress unfold releaseCommand, genericApiCommand, unknownCommand,
        fallbackPath, fallbackBody, fallbackCatch, fallbackFinally, intentRouting,
        intentContext, llmQueryPath, threadForQuery, queryStep, postReply ].
Qed.

Lemma preview_truthy (s : string) : Js.truthy s = true -> Js.truthy (preview s) = true.
Proof. destruct s as [ | c s ]; [ discriminate | reflexivity ]. Qed.

Lemma segmentTexts_truthy (segment : Segment) :
  Js.truthy (fst (segmentTexts segment)) = true ->
  Js.truthy (snd (segmentTexts segment)) = true.
Proof.
  unfold segmentTexts. destruct (Js.truthy (Js.trim (content segment))) eqn:Hb;
    [ | discriminate ].
  destruct (seg_type segment); cbn [fst snd]; intros _;
    [ apply preview_truthy; exact Hb | reflexivity ].
Qed.

Lemma postSegments_hasText ch rt segments i n last :
  emits hasText (postSegments fmt sv ch rt segments i n last).
Proof.
  revert i last. induction segments as [ | segment rest IH ]; intros i last.
  - apply emits_ret.
  - cbn [postSegments]. pose proof (segmentTexts_truthy segment) as Hfb.
    destruct (segmentTexts segment) as [segmentText fallbackText]. cbn [fst snd] in Hfb.
    destruct (Js.truthy segmentText) eqn:Hs; cbn [negb]; [ | apply IH ].
    specialize (Hfb eq_refl).
    apply emits_bind; [ | intros last' ].
    + unfold postSegment.
      emits_all ltac:(cbn [hasText pm_text post]; first [ assumption | reflexivity ]).
    + apply emits_bind; [ | intros _; apply IH ].
      destruct (_ && _); [ apply emits_emit; reflexivity | apply emits_ret ].
Qed.

Lemma handler_hasText event octokit :
  emits hasText (handleSlackMessageEventInternal cfg fmt sv event octokit).
Proof.
  repeat first
    [ apply postSegments_hasText
    | match goal with
      | |- emits _ (postMessage _ (rawReplyPost _ _ _ _)) =>
          apply emits_call; intros; unfold rawReplyPost;
          destruct (markdownToRichTextBlock _ _); cbn [hasText pm_text post];
          first [ apply preview_truthy; assumption | assumption ]
      end
    | emits_rule ltac:(try destruct_all Msg; reflexivity) | emits_case | emits_unfold ].
Qed.

End Invariants.


(** ** What the handler throws *)

Section Throws.

Context {Block World : Type}.
Variable cfg : Config.
Variable fmt : Formatting Block.
Variable sv : Services Block World.

Local Abbreviation Event := (Event Block).
Local Abbreviation Trace := (Trace Block).
Local Abbreviation H := (M Block World).
Implicit Types st : State World.

Lemma neverThrows_ret {A} (a : A) : neverThrows (ret a : H A).
Proof. intros st. eexists. reflexivity. Qed.

Lemma neverThrows_emit ev : neverThrows (emit ev : H unit).
Proof. intros st. eexists. reflexivity. Qed.

Lemma neverThrows_get : neverThrows (getThinkingTs : H string).
Proof. intros st. eexists. reflexivity. Qed.

Lemma neverThrows_set v : neverThrows (setThinkingTs v : H unit).
Proof. intros st. eexists. reflexivity. Qed.

Lemma neverThrows_bind {A B} (m : H A) (f : A -> H B) :
  neverThrows m -> (forall a, neverThrows (f a)) -> neverThrows (bind m f).
Proof.
  intros Hm Hf st. rewrite outcomeOf_bind.
  destruct (Hm st) as [a ->]. apply Hf.
Qed.

Lemma neverThrows_tryCatch {A} site (m : H A) (h : Error -> H A) :
  (forall e, neverThrows (h e)) -> neverThrows (tryCatch site m h).
Proof.
  intros Hh st. rewrite outcomeOf_tryCatch.
  destruct (outcomeOf m st) as [a | e]; [ eauto | apply Hh ].
Qed.

Lemma neverThrows_tryFinally {A} (m : H A) (c : H unit) :
  neverThrows m -> neverThrows c -> neverThrows (tryFinally m c).
Proof.
  intros Hm Hc st. rewrite outcomeOf_tryFinally.
  destruct (Hc (stateOf m st)) as [u ->]. apply Hm.
Qed.

Lemma neverThrows_update ts ch args :
  neverThrows (updateOrDeleteThinkingMessage sv ts ch args).
Proof. intros st. rewrite update_outcome. eauto. Qed.

Ltac neverThrows_step :=
  match goal with
  | |- neverThrows (ret _) => apply neverThrows_ret
  | |- neverThrows (emit _) => apply neverThrows_emit
  | |- neverThrows (log _ _) => apply neverThrows_emit
  | |- neverThrows (logError _ _ _) => apply neverThrows_emit
  | |- neverThrows getThinkingTs => apply neverThrows_get
  | |- neverThrows (setThinkingTs _) => apply neverThrows_set
  | |- neverThrows (updateOrDeleteThinkingMessage _ _ _ _) => apply neverThrows_update
  | |- neverThrows (bind _ _) => apply neverThrows_bind; [ | intros ]
  | |- neverThrows (tryCatch _ _ _) => apply neverThrows_tryCatch; intros
  | |- neverThrows (tryFinally _ _) => apply neverThrows_tryFinally
  | |- neverThrows (if ?b then _ else _) => destruct b
  | |- neverThrows (match ?x with _ => _ end) => destruct x
  end.

(** The fallback path catches everything. *)
Lemma fallbackPath_neverThrows q u ch rt ots :
  neverThrows (fallbackPath cfg fmt sv q u ch rt ots).
Proof. unfold fallbackPath, fallbackCatch, fallbackFinally. repeat neverThrows_step. Qed.

Lemma postThinkingMessage_neverThrows ch rt :
  neverThrows (postThinkingMessage sv ch rt).
Proof. unfold postThinkingMessage. repeat neverThrows_step. Qed.

Lemma endsInThrow_app (e : Error) (a b : Trace) : endsInThrow e b -> endsInThrow e (a ++ b).
Proof.
  intros (t0 & ev & -> & Hev). exists (a ++ t0), ev. rewrite app_assoc. auto.
Qed.

Lemma through_never {A} (m : H A) : neverThrows m -> throwsOnlyThrough m.
Proof. intros Hm st e He. destruct (Hm st) as [a Ha]. congruence. Qed.

Lemma through_bind {A B} (m : H A) (f : A -> H B) :
  throwsOnlyThrough m -> (forall a, throwsOnlyThrough (f a)) ->
  throwsOnlyThrough (bind m f).
Proof.
  intros Hm Hf st e. rewrite outcomeOf_bind, traceOf_bind.
  destruct (outcomeOf m st) as [a | e'] eqn:Ho.
  - intros He. apply endsInThrow_app. apply (Hf a _ _ He).
  - intros [= ->]. apply (Hm st e Ho).
Qed.

Lemma through_call {A} (svc : World -> Outcome A * World) (ev : Outcome A -> Event) :
  (forall e, letsThrough e (ev (Threw e))) -> throwsOnlyThrough (call svc ev).
Proof.
  intros Hev st e. rewrite outcomeOf_call, traceOf_call. intros ->.
  exists [], (ev (Threw e)). auto.
Qed.

Lemma through_executor (c : Command) :
  isIssueAnalysis c = false ->
  throwsOnlyThrough (call (runCommand sv c) (EvCommand c) : H bool).
Proof. intros Hc. apply through_call. intros e. right. eauto. Qed.

Ltac through_step :=
  match goal with
  | |- throwsOnlyThrough (call (runCommand _ _) _) => apply through_executor; reflexivity
  | |- throwsOnlyThrough (call (handleDeleteLastMessageCommand _ _ _ _) _) =>
      apply through_call; intros; left; eauto
  | |- throwsOnlyThrough (bind _ _) => apply through_bind; [ | intros ]
  | |- throwsOnlyThrough (if ?b then _ else _) => destruct b
  | |- throwsOnlyThrough (match ?x with _ => _ end) => destruct x
  | |- throwsOnlyThrough (let '(_, _) := ?x in _) => destruct x
  | |- throwsOnlyThrough _ =>
      apply through_never;
      first [ apply fallbackPath_neverThrows | apply postThinkingMessage_neverThrows
            | repeat neverThrows_step ]
  end.

Lemma handler_throwsOnlyThrough event octokit :
  throwsOnlyThrough (handleSlackMessageEventInternal cfg fmt sv event octokit).
Proof.
  unfold handleSlackMessageEventInternal, afterThinkingMessage, githubCommands,
    releaseCommand, prReviewCommand, issueAnalysisCommand, genericApiCommand,
    unknownCommand.
  repeat through_step.
Qed.

End Throws.


(** ** Threads and their mappings *)

Section Threads.

Context {Block World : Type}.
Variable cfg : Config.
Variable fmt : Formatting Block.
Variable sv : Services Block World.

Local Abbreviation Event := (Event Block).
Local Abbreviation Trace := (Trace Block).
Local Abbreviation H := (M Block World).
Implicit Types st : State World.

Variables (ch rt : string).

Local Abbreviation stored := (threadsStored (Block := Block) ch rt).
Local Abbreviation stores := (storesThreads (Block := Block) (World := World) ch rt).

Lemma stored_app_upto (n : nat) (a b : Trace) :
  List.length a <= n -> stored a = true -> stored b = true -> stored (a ++ b) = true.
Proof.
  revert a. induction n as [ | n IH ]; intros a Hlen Ha Hb.
  - destruct a; [ exact Hb | cbn in Hlen; lia ].
  - destruct a as [ | ev a ]; [ exact Hb | ].
    cbn [List.length] in Hlen.
    destruct ev; cbn [app threadsStored] in *;
      try (apply IH; [ lia | assumption | assumption ]); try discriminate.
    destruct r as [thread | e]; [ | apply IH; [ lia | assumption | assumption ] ].
    destruct (Js.truthy thread); [ | apply IH; [ lia | assumption | assumption ] ].
    destruct a as [ | ev' a ]; [ discriminate | ].
    destruct ev'; try discriminate. cbn [app].
    apply andb_true_iff in Ha as [Hkey Ha]. rewrite Hkey. cbn [andb].
    apply IH; [ cbn [List.length] in Hlen; lia | assumption | assumption ].
Qed.

Lemma stored_app (a b : Trace) : stored a = true -> stored b = true -> stored (a ++ b) = true.
Proof. apply (stored_app_upto (List.length a)). lia. Qed.

Lemma stores_ret {A} (a : A) : stores (ret a : H A).
Proof. intros st. reflexivity. Qed.

Lemma stores_throw {A} (e : Error) : stores (throw e : H A).
Proof. intros st. reflexivity. Qed.

Lemma stores_get : stores (getThinkingTs : H string).
Proof. intros st. reflexivity. Qed.

Lemma stores_set v : stores (setThinkingTs v : H unit).
Proof. intros st. reflexivity. Qed.

Lemma stores_emit (ev : Event) :
  isCreateThread ev = false -> isStoreMapping ev = false -> stores (emit ev : H unit).
Proof. intros H1 H2 st. rewrite traceOf_emit. destruct ev; try reflexivity; discriminate. Qed.

Lemma stores_call {A} (svc : World -> Outcome A * World) (ev : Outcome A -> Event) :
  (forall r, isCreateThread (ev r) = false) -> (forall r, isStoreMapping (ev r) = false) ->
  stores (call svc ev).
Proof.
  intros H1 H2 st. rewrite traceOf_call.
  specialize (H1 (fst (svc (world st)))). specialize (H2 (fst (svc (world st)))).
  destruct (ev _); try reflexivity; discriminate.
Qed.

Lemma stores_bind {A B} (m : H A) (f : A -> H B) :
  stores m -> (forall a, stores (f a)) -> stores (bind m f).
Proof.
  intros Hm Hf st. rewrite traceOf_bind.
  destruct (outcomeOf m st); [ apply stored_app; [ apply Hm | apply Hf ] | apply Hm ].
Qed.

Lemma stores_tryCatch {A} site (m : H A) (h : Error -> H A) :
  stores m -> (forall e, stores (h e)) -> stores (tryCatch site m h).
Proof.
  intros Hm Hh st. rewrite traceOf_tryCatch.
  destruct (outcomeOf m st) as [a | e]; [ apply Hm | ].
  apply stored_app; [ apply Hm | ]. cbn [threadsStored]. apply Hh.
Qed.

Lemma stores_tryFinally {A} (m : H A) (c : H unit) :
  stores m -> stores c -> stores (tryFinally m c).
Proof.
  intros Hm Hc st. rewrite traceOf_tryFinally. apply stored_app; [ apply Hm | apply Hc ].
Qed.

(** The two places that create a thread (lines 207-210 and 328-331): the
    thread is created, tested, and stored. *)
Lemma stores_created {A} (ws : string) (e : string -> Error) (k : string -> H A) :
  (forall thr, stores (k thr)) ->
  stores (bind (call (createNewAnythingLLMThread sv ws) (EvCreateThread ws))
            (fun thr =>
               if negb (Js.truthy thr) then throw (e thr)
               else bind (call (storeAnythingLLMThreadMapping sv ch rt ws thr)
                            (EvStoreMapping ch rt ws thr))
                      (fun _ => k thr))).
Proof.
  intros Hk st. rewrite traceOf_bind, outcomeOf_call, traceOf_call.
  destruct (fst (createNewAnythingLLMThread sv ws (world st))) as [thr | err];
    [ | reflexivity ].
  destruct (Js.truthy thr) eqn:Hthr; cbn [negb app threadsStored]; rewrite Hthr.
  - rewrite traceOf_bind, outcomeOf_call, traceOf_call.
    destruct (fst (storeAnythingLLMThreadMapping sv ch rt ws thr _));
      cbn [app]; rewrite !String.eqb_refl; cbn [andb]; [ apply Hk | reflexivity ].
  - reflexivity.
Qed.

End Threads.

Ltac stores_step :=
  match goal with
  | |- storesThreads _ _ (ret _) => apply stores_ret
  | |- storesThreads _ _ (throw _) => apply stores_throw
  | |- storesThreads _ _ (emit _) => apply stores_emit; reflexivity
  | |- storesThreads _ _ (log _ _) => apply stores_emit; reflexivity
  | |- storesThreads _ _ (logError _ _ _) => apply stores_emit; reflexivity
  | |- storesThreads _ _ (bind (call (createNewAnythingLLMThread _ _) _) _) =>
      apply stores_created; intros
  | |- storesThreads _ _ (call _ _) => apply stores_call; intros; reflexivity
  | |- storesThreads _ _ (postMessage _ _) => apply stores_call; intros; reflexivity
  | |- storesThreads _ _ getThinkingTs => apply stores_get
  | |- storesThreads _ _ (setThinkingTs _) => apply stores_set
  | |- storesThreads _ _ (bind _ _) => apply stores_bind; [ | intros ]
  | |- storesThreads _ _ (tryCatch _ _ _) => apply stores_tryCatch; [ | intros ]
  | |- storesThreads _ _ (tryFinally _ _) => apply stores_tryFinally
  | |- storesThreads _ _ (if ?b then _ else _) => destruct b
  | |- storesThreads _ _ (match ?x with _ => _ end) => destruct x
  | |- storesThreads _ _ (let '(_, _) := ?x in _) => destruct x
  end.

Section ThreadsOfTheHandler.

Context {Block World : Type}.
Variable cfg : Config.
Variable fmt : Formatting Block.
Variable sv : Services Block World.

Lemma stores_update ch rt ts ch0 args :
  storesThreads ch rt (updateOrDeleteThinkingMessage sv ts ch0 args).
Proof. unfold updateOrDeleteThinkingMessage. repeat stores_step. Qed.

Lemma stores_postSegments ch rt ch0 rt0 segments i n last :
  storesThreads ch rt (postSegments fmt sv ch0 rt0 segments i n last).
Proof.
  revert i last. induction segments as [ | segment rest IH ]; intros i last.
  - apply stores_ret.
  - cbn [postSegments]. destruct (segmentTexts segment) as [segmentText fallbackText].
    destruct (Js.truthy segmentText); cbn [negb]; [ | apply IH ].
    unfold postSegment. repeat first [ apply IH | stores_step ].
Qed.

Lemma handler_storesThreads event octokit :
  storesThreads (channel event) (replyTargetOf event)
    (handleSlackMessageEventInternal cfg fmt sv event octokit).
Proof.
  repeat first
    [ apply stores_update | apply stores_postSegments | stores_step | emits_unfold ].
Qed.

End ThreadsOfTheHandler.


(** ** The course of the fallback path *)

Ltac app_norm :=
  repeat first [ rewrite app_nil_r | rewrite <- app_assoc | progress cbn [app] ].

Section Course.

Context {Block World : Type}.
Variable cfg : Config.
Variable fmt : Formatting Block.
Variable sv : Services Block World.

Local Abbreviation Event := (Event Block).
Local Abbreviation Trace := (Trace Block).
Local Abbreviation H := (M Block World).
Implicit Types st : State World.

Variables (q u ch rt ots : string).

Local Abbreviation Body := (BodyRun cfg fmt sv q ch rt ots).

Lemma queryStep_run ws thr : Body (queryStep cfg fmt sv q ch rt ots ws thr).
Proof.
  intros st. right. unfold queryStep, QueryThrew, QueryReturned. run_norm.
  destruct (fst (queryLlm sv ws thr _ _)) as [r | e].
  - right. run_norm. exists ws, thr, r, []. do 3 eexists.
    split; [ reflexivity | ]. split; [ | split; [ reflexivity | ] ].
    + rewrite (keeps_postReply cfg fmt sv ch rt ots ws _ _). reflexivity.
    + cbn [app]. reflexivity.
  - left. exists ws, thr, e, []. eexists.
    split; [ reflexivity | ]. split; [ reflexivity | ]. split; [ reflexivity | ].
    cbn [app]. reflexivity.
Qed.

Lemma body_throw (e : Error) : Body (throw e).
Proof. intros st. left. split; [ eexists; reflexivity | split; reflexivity ]. Qed.

(** A step of the set-up in front of a body: it writes set-up events only and
    leaves the thinking message alone. *)
Lemma body_after_setup {A} (m : H A) (f : A -> H unit) (P : A -> Prop) :
  emits (ofKinds setupKinds) m -> keeps m ->
  (forall st a, outcomeOf m st = Returned a -> P a) ->
  (forall a, P a -> Body (f a)) ->
  Body (bind m f).
Proof.
  intros Hm Hk HP Hf st. specialize (Hm st). specialize (Hk st).
  unfold EndsBeforeQuery, QueryThrew, QueryReturned.
  rewrite outcomeOf_bind, stateOf_bind, traceOf_bind.
  destruct (outcomeOf m st) as [a | e] eqn:Ho.
  - destruct (Hf a (HP st a Ho) (stateOf m st))
      as [(He & Hts & Htr) | [(ws & thr & e & pre & st0 & He & Hts & Hpre & Htr)
                             | (ws & thr & r & pre & st0 & st1 & st2 & He & Hts & Hpre & Htr)]].
    + left. split; [ exact He | ]. split; [ congruence | ].
      rewrite forallb_app, Hm, Htr. reflexivity.
    + right. left. exists ws, thr, e, (traceOf m st ++ pre), st0.
      split; [ exact He | ]. split; [ congruence | ].
      split; [ rewrite forallb_app, Hm, Hpre; reflexivity | ].
      rewrite Htr, Hk, <- app_assoc. reflexivity.
    + right. right. exists ws, thr, r, (traceOf m st ++ pre), st0, st1, st2.
      split; [ exact He | ]. split; [ exact Hts | ].
      split; [ rewrite forallb_app, Hm, Hpre; reflexivity | ].
      rewrite Htr, Hk, <- app_assoc. reflexivity.
  - left. split; [ eauto | ]. split; [ exact Hk | exact Hm ].
Qed.

Lemma body_after_setup_any {A} (m : H A) (f : A -> H unit) :
  emits (ofKinds setupKinds) m -> keeps m -> (forall a, Body (f a)) -> Body (bind m f).
Proof.
  intros Hm Hk Hf. apply (body_after_setup m f (fun _ => True)); auto.
Qed.

Lemma intentRouting_setup ir : emits (ofKinds setupKinds) (intentRouting cfg sv ch ir).
Proof. intros st. rewrite intentRouting_trace. destruct (routingApplies cfg ir); reflexivity. Qed.

Lemma intentRouting_keeps ir : keeps (intentRouting cfg sv ch ir).
Proof. intros st. rewrite intentRouting_state. reflexivity. Qed.

Lemma threadForQuery_setup ws : emits (ofKinds setupKinds) (threadForQuery sv ch rt ws).
Proof. emits_blocks. Qed.

(** The body of the [try] goes one of the three ways. *)
Lemma fallbackBody_run : Body (fallbackBody cfg fmt sv q u ch rt ots).
Proof.
  unfold fallbackBody.
  apply body_after_setup_any; [ emits_blocks | apply keeps_emit | intros _ ].
  apply body_after_setup_any; [ emits_blocks | apply keeps_call | intros ir ].
  apply (body_after_setup _ _ (fun handled => handled = false));
    [ apply intentRouting_setup | apply intentRouting_keeps | | ].
  { intros st handled. rewrite intentRouting_outcome.
    destruct (routingApplies cfg ir); congruence. }
  intros handled ->. cbn [negb]. unfold llmQueryPath.
  apply body_after_setup_any; [ emits_blocks | apply keeps_emit | intros _ ].
  apply body_after_setup_any; [ emits_blocks | apply keeps_call | intros ws ].
  destruct (Js.truthy ws); cbn [negb]; [ | apply body_throw ].
  apply body_after_setup_any; [ emits_blocks | apply keeps_emit | intros _ ].
  apply body_after_setup_any;
    [ apply threadForQuery_setup | apply keeps_threadForQuery | intros thr ].
  apply queryStep_run.
Qed.

(** The fallback path around its body: the [catch] clause, then the
    [finally] clause, which has nothing left to delete. *)
Lemma fallbackPath_tail st (t : string) (alive : bool) :
  Js.truthy t = true ->
  let body := fallbackBody cfg fmt sv q u ch rt ots in
  thinkingTs (stateOf body st) = (if alive then t else "") ->
  (forall a, outcomeOf body st = Returned a -> alive = false) ->
  outcomeOf (fallbackPath cfg fmt sv q u ch rt ots) st = Returned tt
  /\ traceOf (fallbackPath cfg fmt sv q u ch rt ots) st
     = Log Info "[Msg Handler] No command matched. Proceeding with Intent Detection -> Routing -> LLM query." None
       :: traceOf body st
       ++ pathTail sv ch rt t alive (outcomeOf body st) (stateOf body st).
Proof.
  intros Ht body Hts Hret. subst body. split.
  { destruct (fallbackPath_neverThrows cfg fmt sv q u ch rt ots st) as [[] Ho]. exact Ho. }
  unfold fallbackPath, pathTail. run_norm. f_equal.
  destruct (outcomeOf (fallbackBody cfg fmt sv q u ch rt ots) st) as [a | e] eqn:Ho.
  - rewrite (Hret a eq_refl) in Hts. unfold fallbackFinally. run_norm. rewrite Hts.
    cbn [Js.truthy String.eqb negb]. run_norm. reflexivity.
  - clear Hret. unfold fallbackCatch, fallbackFinally. run_norm. rewrite Hts.
    destruct alive.
    + rewrite Ht. run_norm. cbn [Js.truthy String.eqb negb]. run_norm.
      app_norm. reflexivity.
    + cbn [Js.truthy String.eqb negb]. run_norm.
      destruct (fst (chat_postMessage sv _ _));
        repeat (progress (run_norm; rewrite ?Hts;
                          cbn [thinkingTs Js.truthy String.eqb negb]));
        app_norm; reflexivity.
Qed.

(** The course of the fallback path from a state in which the thinking
    message is there. *)
Lemma fallbackPath_course st :
  Js.truthy (thinkingTs st) = true ->
  let body := fallbackBody cfg fmt sv q u ch rt ots in
  exists alive,
    outcomeOf (fallbackPath cfg fmt sv q u ch rt ots) st = Returned tt
    /\ traceOf (fallbackPath cfg fmt sv q u ch rt ots) st
       = Log Info "[Msg Handler] No command matched. Proceeding with Intent Detection -> Routing -> LLM query." None
         :: traceOf body st
         ++ pathTail sv ch rt (thinkingTs st) alive (outcomeOf body st) (stateOf body st)
    /\ ((alive = true /\ (EndsBeforeQuery body st \/ QueryThrew cfg sv q ch body st))
        \/ (alive = false /\ QueryReturned cfg fmt sv q ch rt ots body st)).
Proof.
  intros Ht body. subst body.
  destruct (fallbackBody_run st) as [HA | [HB | HC]].
  - exists true. pose proof HA as ((e & He) & Hts & _).
    destruct (fallbackPath_tail st (thinkingTs st) true Ht Hts) as [Ho Htr].
    { intros a Ha. congruence. }
    split; [ exact Ho | ]. split; [ exact Htr | ]. left. auto.
  - exists true. pose proof HB as (ws & thr & e & pre & st0 & He & Hts & _).
    destruct (fallbackPath_tail st (thinkingTs st) true Ht Hts) as [Ho Htr].
    { intros a Ha. congruence. }
    split; [ exact Ho | ]. split; [ exact Htr | ]. left. auto.
  - exists false. pose proof HC as (ws & thr & r & pre & st0 & st1 & st2 & _ & Hts & _).
    destruct (fallbackPath_tail st (thinkingTs st) false Ht Hts) as [Ho Htr].
    { reflexivity. }
    split; [ exact Ho | ]. split; [ exact Htr | ]. right. auto.
Qed.

End Course.


(** ** What a trace shows, part by part *)

Section Collecting.

Context {Block World : Type}.
Variable sv : Services Block World.

Local Abbreviation Event := (Event Block).
Local Abbreviation Trace := (Trace Block).
Implicit Types st : State World.

Lemma collect_app {X} (pick : Event -> option X) (a b : Trace) :
  collect pick (a ++ b) = collect pick a ++ collect pick b.
Proof. apply flat_map_app. Qed.

Lemma collect_cons {X} (pick : Event -> option X) (ev : Event) (t : Trace) :
  collect pick (ev :: t)
  = match pick ev with Some x => x :: collect pick t | None => collect pick t end.
Proof. unfold collect. cbn [flat_map]. destruct (pick ev); reflexivity. Qed.

Lemma collect_none {X} (pick : Event -> option X) (ok : Event -> bool) (t : Trace) :
  (forall ev, ok ev = true -> pick ev = None) ->
  forallb ok t = true -> collect pick t = [].
Proof.
  intros Hok. induction t as [ | ev t IH ]; [ reflexivity | ].
  cbn [forallb]. intros H. apply andb_true_iff in H as [Hev Ht].
  rewrite collect_cons, (Hok ev Hev). auto.
Qed.

Lemma updatesOf_quiet (ok : Event -> bool) (t : Trace) :
  (forall ev, ok ev = true -> isChatUpdate ev = false) ->
  forallb ok t = true -> updatesOf t = [].
Proof.
  intros Hok. induction t as [ | ev t IH ]; [ reflexivity | ].
  cbn [forallb]. intros H. apply andb_true_iff in H as [Hev Ht].
  specialize (Hok ev Hev). destruct ev; cbn [updatesOf]; auto. discriminate.
Qed.

Lemma never_of (ok kind : Event -> bool) (t : Trace) :
  (forall ev, ok ev = true -> kind ev = false) -> forallb ok t = true -> never kind t.
Proof. intros Hok. apply forallb_impl. intros ev Hev. now rewrite (Hok ev Hev). Qed.

Lemma never_In (kind : Event -> bool) (t : Trace) (ev : Event) :
  never kind t -> In ev t -> kind ev = false.
Proof.
  intros Hn Hin. unfold never in Hn. rewrite forallb_forall in Hn.
  specialize (Hn ev Hin). destruct (kind ev); [ discriminate | reflexivity ].
Qed.

Lemma In_not_never (kind : Event -> bool) (t : Trace) (ev : Event) :
  never kind t -> kind ev = true -> ~ In ev t.
Proof. intros Hn Hk Hin. rewrite (never_In kind t ev Hn Hin) in Hk. discriminate. Qed.

(** The helper on a message that is there, part by part. *)
Lemma update_parts ts ch args st :
  Js.truthy ts = true -> Js.truthy ch = true ->
  let t := traceOf (updateOrDeleteThinkingMessage sv ts ch args) st in
  updatesOf t = match args with Some txt => [txt] | None => [] end
  /\ deletesOf t = match args with Some _ => [] | None => [(ch, ts)] end
  /\ postsOf t = [] /\ queriesOf t = [] /\ replyPostsOf t = []
  /\ never isLlmQuery t /\ never isPathCatch t.
Proof.
  intros Hts Hch t.
  assert (N : never isLlmQuery t /\ never isPathCatch t).
  { split; apply emits_update; intros; try reflexivity; destruct args; reflexivity. }
  subst t.
  destruct (update_trace sv ts ch args st Hts Hch) as (r & tl & E & Htl).
  rewrite E in *. clear E.
  assert (U : updatesOf tl = []).
  { revert Htl. apply updatesOf_quiet. intros ev. destruct ev; cbn; congruence. }
  assert (C : forall X (pick : Event -> option X),
             (forall lvl l e, pick (Log lvl l e) = None) ->
             (forall s e, pick (Caught s e) = None) -> collect pick tl = []).
  { intros X pick H1 H2. revert Htl. apply collect_none.
    intros ev. destruct ev; cbn; congruence || auto. }
  assert (R : replyPostsOf tl = []).
  { apply replyPostsOf_skip. revert Htl. apply forallb_impl.
    intros ev. destruct ev; cbn; congruence. }
  unfold deletesOf, postsOf, queriesOf.
  rewrite !collect_cons, !C by reflexivity.
  destruct args; cbn [updatesOf replyPostsOf]; rewrite ?U, ?R; tauto.
Qed.

End Collecting.

(** An event of a kind the trace never has is not in it. *)
Ltac not_in N H := exfalso; refine (In_not_never _ _ _ N _ H); reflexivity.


(** ** The fallback path, run by run *)

Section FallbackRuns.

Context {Block World : Type}.
Variable cfg : Config.
Variable fmt : Formatting Block.
Variable sv : Services Block World.

Local Abbreviation Event := (Event Block).
Local Abbreviation Trace := (Trace Block).
Implicit Types st : State World.

Lemma setup_silent (t : Trace) :
  forallb (ofKinds setupKinds) t = true -> Silent t /\ postsOf t = [].
Proof.
  intros H. split; [ split | ].
  - revert H. apply updatesOf_quiet. by_kind.
  - revert H. apply collect_none. by_kind.
  - revert H. apply never_of. by_kind.
  - revert H. apply never_of. by_kind.
  - apply replyPostsOf_skip. revert H. apply forallb_impl. by_kind.
  - revert H. apply collect_none. by_kind.
Qed.

Lemma postSegments_no_path_catch ch rt segments i n last :
  emits (fun ev => negb (isPathCatch ev)) (postSegments fmt sv ch rt segments i n last).
Proof.
  revert i last. induction segments as [ | segment rest IH ]; intros i last.
  - apply emits_ret.
  - cbn [postSegments]. destruct (segmentTexts segment) as [segmentText fallbackText].
    destruct (Js.truthy segmentText); cbn [negb]; [ | apply IH ].
    unfold postSegment. repeat first [ apply IH | emits_rule reflexivity | emits_case ].
Qed.

Lemma postReply_silent ch rt ots ws reply st :
  let t := traceOf (postReply cfg fmt sv ch rt ots ws reply) st in
  updatesOf t = [] /\ deletesOf t = [] /\ never isLlmQuery t /\ never isPathCatch t.
Proof.
  intros t. subst t.
  pose proof (postReply_footprint cfg fmt sv ch rt ots ws reply st) as H.
  repeat split.
  - revert H. apply updatesOf_quiet. by_kind.
  - revert H. apply collect_none. by_kind.
  - revert H. apply never_of. by_kind.
  - assert (E : emits (fun ev => negb (isPathCatch ev))
                  (postReply cfg fmt sv ch rt ots ws reply)).
    { unfold postReply.
      repeat first [ apply postSegments_no_path_catch | emits_rule reflexivity | emits_case ]. }
    apply E.
Qed.

(** One run of the fallback path once the thinking message is posted. *)
Lemma fallback_run (event : SlackEvent) (octokit : bool) (w w1 : World) (t : string) :
  ThinkingPosted cfg sv event w t w1 ->
  isPotentialGhCommand cfg (cleanedQueryOf cfg event) = false ->
  let st1 := {| world := w1; thinkingTs := t |} in
  let body := fallbackBody cfg fmt sv (cleanedQueryOf cfg event) (user event)
                (channel event) (replyTargetOf event) (ts event) in
  exists alive,
    run cfg fmt sv event octokit w
    = (Returned tt,
       Log Info "[Msg Handler] Start" None
       :: EvPostMessage (thinkingPost event) (Returned (Some t))
       :: Log Info "[Msg Handler] No command matched. Proceeding with Intent Detection -> Routing -> LLM query." None
       :: traceOf body st1
       ++ pathTail sv (channel event) (replyTargetOf event) t alive
            (outcomeOf body st1) (stateOf body st1))
    /\ ((alive = true
         /\ (EndsBeforeQuery body st1
             \/ QueryThrew cfg sv (cleanedQueryOf cfg event) (channel event) body st1))
        \/ (alive = false
            /\ QueryReturned cfg fmt sv (cleanedQueryOf cfg event) (channel event)
                 (replyTargetOf event) (ts event) body st1)).
Proof.
  intros Hposted Hcmd st1 body.
  pose proof Hposted as (_ & _ & _ & Ht).
  rewrite (run_after_thinking cfg fmt sv event octokit w w1 t Hposted).
  rewrite (afterThinking_fallback cfg fmt sv event octokit t Hcmd).
  destruct (fallbackPath_course cfg fmt sv (cleanedQueryOf cfg event) (user event)
              (channel event) (replyTargetOf event) (ts event) st1 Ht)
    as (alive & Ho & Htr & Hcases).
  exists alive. fold st1. rewrite Ho, Htr. split; [ reflexivity | exact Hcases ].
Qed.

Lemma postsOf_cons (ev : Event) (t : Trace) :
  postsOf (ev :: t)
  = match ev with EvPostMessage args _ => args :: postsOf t | _ => postsOf t end.
Proof. unfold postsOf. rewrite collect_cons. destruct ev; reflexivity. Qed.

Lemma deletesOf_cons (ev : Event) (t : Trace) :
  deletesOf (ev :: t)
  = match ev with EvChatDelete c ts _ => (c, ts) :: deletesOf t | _ => deletesOf t end.
Proof. unfold deletesOf. rewrite collect_cons. destruct ev; reflexivity. Qed.

Lemma queriesOf_cons (ev : Event) (t : Trace) :
  queriesOf (ev :: t)
  = match ev with
    | EvQueryLlm ws thr input _ => (ws, thr, input) :: queriesOf t
    | _ => queriesOf t
    end.
Proof. unfold queriesOf. rewrite collect_cons. destruct ev; reflexivity. Qed.

Lemma postsOf_app (a b : Trace) : postsOf (a ++ b) = postsOf a ++ postsOf b.
Proof. apply collect_app. Qed.

Lemma deletesOf_app (a b : Trace) : deletesOf (a ++ b) = deletesOf a ++ deletesOf b.
Proof. apply collect_app. Qed.

Lemma queriesOf_app (a b : Trace) : queriesOf (a ++ b) = queriesOf a ++ queriesOf b.
Proof. apply collect_app. Qed.

Lemma queriesOf_never (t : Trace) : never isLlmQuery t -> queriesOf t = [].
Proof.
  apply collect_none. intros ev. destruct ev; cbn; congruence.
Qed.

(** Computes what a trace shows from what its parts show. *)
Ltac projections :=
  repeat first
    [ rewrite updatesOf_app | rewrite postsOf_app | rewrite deletesOf_app
    | rewrite queriesOf_app | rewrite postsOf_cons | rewrite deletesOf_cons
    | rewrite queriesOf_cons | progress cbn [updatesOf app]
    | match goal with
      | H : updatesOf ?x = _ |- context [updatesOf ?x] => rewrite H
      | H : postsOf ?x = _ |- context [postsOf ?x] => rewrite H
      | H : deletesOf ?x = _ |- context [deletesOf ?x] => rewrite H
      | H : queriesOf ?x = _ |- context [queriesOf ?x] => rewrite H
      | H : never isLlmQuery ?x |- context [queriesOf ?x] => rewrite (queriesOf_never x H)
      end ].

(** X13. A run of the fallback path that does not get as far as asking the LLM
    tells the user: the thinking message becomes the error notice with the
    message of the error, the error is logged, and nothing else is posted or
    deleted. *)
Theorem run_without_query_ends_in_the_error_notice
    (event : SlackEvent) (octokit : bool) (w w1 : World) (t : string) :
  ThinkingPosted cfg sv event w t w1 ->
  isPotentialGhCommand cfg (cleanedQueryOf cfg event) = false ->
  Js.truthy (channel event) = true ->
  let tr := snd (run cfg fmt sv event octokit w) in
  never isLlmQuery tr ->
  exists e,
    fst (run cfg fmt sv event octokit w) = Returned tt
    /\ updatesOf tr = [MsgOops (message e)]
    /\ In (Log Err "[Msg Handler Error - Intent/LLM Path]" (Some e)) tr
    /\ postsOf tr = [thinkingPost event]
    /\ deletesOf tr = [].
Proof.
  intros Hposted Hcmd Hch tr. subst tr.
  pose proof Hposted as (_ & _ & _ & Ht).
  destruct (fallback_run event octokit w w1 t Hposted Hcmd) as (alive & -> & Hcases).
  cbn [fst snd]. intros Hnever.
  apply never_cons in Hnever as [_ Hnever]. apply never_cons in Hnever as [_ Hnever].
  apply never_cons in Hnever as [_ Hnever]. apply never_app in Hnever as [Hbody _].
  destruct Hcases as [[-> [HA | HB]] | [-> HC]].
  - destruct HA as ((e & He) & _ & Hsetup). rewrite He. exists e.
    destruct (setup_silent _ Hsetup) as [[U D _ _ _] P].
    destruct (update_parts sv t (channel event) (Some (MsgOops (message e)))
                (stateOf (fallbackBody cfg fmt sv (cleanedQueryOf cfg event) (user event)
                            (channel event) (replyTargetOf event) (ts event))
                   {| world := w1; thinkingTs := t |}) Ht Hch)
      as (U' & D' & P' & _).
    unfold pathTail. split; [ reflexivity | ].
    split; [ | split; [ | split ] ].
    + projections. reflexivity.
    + do 3 right. apply in_or_app. right. right. left. reflexivity.
    + projections. reflexivity.
    + projections. reflexivity.
  - exfalso. destruct HB as (ws & thr & e & pre & st0 & _ & _ & _ & Htr).
    rewrite Htr in Hbody. apply never_app in Hbody as [_ Hbody].
    apply never_app in Hbody as [_ Hbody]. discriminate Hbody.
  - exfalso. destruct HC as (ws & thr & r & pre & st0 & st1 & st2 & _ & _ & _ & Htr).
    rewrite Htr in Hbody. apply never_app in Hbody as [_ Hbody].
    apply never_app in Hbody as [_ Hbody]. discriminate Hbody.
Qed.

(** X14. When the query throws, the thinking message, which said which
    workspace is asked, becomes the error notice with the message of the
    error; nothing is deleted and nothing else is posted. *)
Theorem failed_query_is_reported_in_the_thinking_message
    (event : SlackEvent) (octokit : bool) (w w1 : World) (t : string)
    (workspace thread input : string) (e : Error) :
  ThinkingPosted cfg sv event w t w1 ->
  isPotentialGhCommand cfg (cleanedQueryOf cfg event) = false ->
  Js.truthy (channel event) = true ->
  let tr := snd (run cfg fmt sv event octokit w) in
  In (EvQueryLlm workspace thread input (Threw e)) tr ->
  fst (run cfg fmt sv event octokit w) = Returned tt
  /\ updatesOf tr = [MsgThinkingIn workspace; MsgOops (message e)]
  /\ queriesOf tr = [(workspace, thread, input)]
  /\ postsOf tr = [thinkingPost event]
  /\ deletesOf tr = [].
Proof.
  intros Hposted Hcmd Hch tr. subst tr.
  pose proof Hposted as (_ & _ & _ & Ht).
  destruct (fallback_run event octokit w w1 t Hposted Hcmd) as (alive & -> & Hcases).
  cbn [fst snd]. intros Hin.
  destruct Hin as [Hin | [Hin | [Hin | Hin]]]; try discriminate Hin.
  apply in_app_or in Hin.
  set (body := fallbackBody cfg fmt sv (cleanedQueryOf cfg event) (user event)
                 (channel event) (replyTargetOf event) (ts event)) in *.
  set (st1 := {| world := w1; thinkingTs := t |}) in *.
  assert (Htail : forall alive o st', ~ In (EvQueryLlm workspace thread input (Threw e))
                    (pathTail sv (channel event) (replyTargetOf event) t alive o st')).
  { intros al o st'. unfold pathTail. intros H. apply in_app_or in H as [H | H].
    - destruct o as [ | e0 ]; [ destruct H | ].
      destruct H as [H | [H | H]]; try discriminate H.
      destruct al.
      + destruct (update_parts sv t (channel event) (Some (MsgOops (message e0))) st' Ht Hch)
          as (_ & _ & _ & _ & _ & N & _).
        not_in N H.
      + destruct H as [H | H]; [ discriminate H | ].
        destruct (fst (chat_postMessage sv _ _)); [ destruct H | ].
        destruct H as [H | []]. discriminate H.
    - destruct H as [H | []]. discriminate H. }
  destruct Hin as [Hin | Hin]; [ | destruct (Htail _ _ _ Hin) ].
  destruct Hcases as [[-> [HA | HB]] | [-> HC]].
  - exfalso. destruct HA as (_ & _ & Hsetup).
    destruct (setup_silent _ Hsetup) as [[_ _ N _ _] _].
    not_in N Hin.
  - destruct HB as (ws & thr & e0 & pre & st0 & He & _ & Hsetup & Htr).
    destruct (setup_silent _ Hsetup) as [[U D N _ _] P].
    destruct (update_parts sv t (channel event) (Some (MsgThinkingIn ws)) st0 Ht Hch)
      as (U1 & D1 & P1 & Q1 & _ & N1 & _).
    cbn [thinkingTs st1] in Htr. rewrite Htr in Hin |- *. rewrite He.
    apply in_app_or in Hin as [Hin | Hin]; [ not_in N Hin | ].
    apply in_app_or in Hin as [Hin | Hin]; [ not_in N1 Hin | ].
    destruct Hin as [Hin | [Hin | []]]; [ discriminate Hin | ].
    injection Hin as -> -> <- ->.
    destruct (update_parts sv t (channel event) (Some (MsgOops (message e)))
                (stateOf body st1) Ht Hch) as (U2 & D2 & P2 & Q2 & _).
    unfold pathTail. split; [ reflexivity | ].
    split; [ | split; [ | split ] ].
    + projections. reflexivity.
    + projections. reflexivity.
    + projections. reflexivity.
    + projections. reflexivity.
  - exfalso.
    destruct HC as (ws & thr & r & pre & st0 & st1' & st2 & _ & _ & Hsetup & Htr).
    destruct (setup_silent _ Hsetup) as [[_ _ N _ _] _].
    destruct (update_parts sv t (channel event) (Some (MsgThinkingIn ws)) st0 Ht Hch)
      as (_ & _ & _ & _ & _ & N1 & _).
    destruct (update_parts sv t (channel event) None st1' Ht Hch)
      as (_ & _ & _ & _ & _ & N2 & _).
    destruct (postReply_silent (channel event) (replyTargetOf event) (ts event) ws
                (match r with Some s => Js.trim s | None => "" end) st2)
      as (_ & _ & N3 & _).
    cbn [thinkingTs st1] in Htr. rewrite Htr in Hin.
    apply in_app_or in Hin as [Hin | Hin]; [ not_in N Hin | ].
    apply in_app_or in Hin as [Hin | Hin]; [ not_in N1 Hin | ].
    apply in_app_or in Hin as [Hin | Hin].
    { destruct Hin as [Hin | [Hin | []]]; discriminate Hin. }
    apply in_app_or in Hin as [Hin | Hin]; [ not_in N2 Hin | ].
    not_in N3 Hin.
Qed.

Lemma trimmedReplyOf_none (t : Trace) :
  forallb (fun ev => negb (isLlmReply ev)) t = true -> trimmedReplyOf t = None.
Proof.
  intros H. rewrite <- (app_nil_r t). rewrite (trimmedReplyOf_skip t [] H). reflexivity.
Qed.

Lemma no_query_no_reply (t : Trace) :
  never isLlmQuery t -> forallb (fun ev => negb (isLlmReply ev)) t = true.
Proof. apply forallb_impl. intros ev. destruct ev; cbn; congruence. Qed.

(** The tail of the fallback path has no query and no reply post. *)
Lemma pathTail_calm ch rt (t : string) (alive : bool) (o : Outcome unit) st :
  Js.truthy t = true -> Js.truthy ch = true ->
  never isLlmQuery (pathTail sv ch rt t alive o st).
Proof.
  intros Ht Hch. unfold pathTail. apply never_app. split; [ | reflexivity ].
  destruct o as [ | e ]; [ reflexivity | ].
  apply never_cons. split; [ reflexivity | ]. apply never_cons. split; [ reflexivity | ].
  destruct alive.
  - apply (update_parts sv t ch (Some (MsgOops (message e))) st Ht Hch).
  - destruct (fst (chat_postMessage sv _ _)); reflexivity.
Qed.

(** X15. When the query returns, the thinking message, which said which
    workspace is asked, is deleted before anything of the reply is posted:
    the run makes one query, one update and one delete, and up to the delete
    the only message posted is the thinking message. *)
Theorem thinking_message_is_deleted_before_the_reply
    (event : SlackEvent) (octokit : bool) (w w1 : World) (t reply : string) :
  ThinkingPosted cfg sv event w t w1 ->
  isPotentialGhCommand cfg (cleanedQueryOf cfg event) = false ->
  Js.truthy (channel event) = true ->
  let tr := snd (run cfg fmt sv event octokit w) in
  trimmedReplyOf tr = Some reply ->
  exists workspace thread r pre d post,
    tr = pre ++ EvChatDelete (channel event) t d :: post
    /\ In (EvQueryLlm workspace thread (llmInput cfg (cleanedQueryOf cfg event))
             (Returned r)) pre
    /\ postsOf pre = [thinkingPost event]
    /\ queriesOf tr = [(workspace, thread, llmInput cfg (cleanedQueryOf cfg event))]
    /\ updatesOf tr = [MsgThinkingIn workspace]
    /\ deletesOf tr = [(channel event, t)].
Proof.
  intros Hposted Hcmd Hch tr. subst tr.
  pose proof Hposted as (_ & _ & _ & Ht).
  destruct (fallback_run event octokit w w1 t Hposted Hcmd) as (alive & -> & Hcases).
  cbn [fst snd].
  set (body := fallbackBody cfg fmt sv (cleanedQueryOf cfg event) (user event)
                 (channel event) (replyTargetOf event) (ts event)) in *.
  set (st1 := {| world := w1; thinkingTs := t |}) in *.
  pose proof (pathTail_calm (channel event) (replyTargetOf event) t alive
                (outcomeOf body st1) (stateOf body st1) Ht Hch) as Ntail.
  cbn [trimmedReplyOf].
  destruct Hcases as [[-> [HA | HB]] | [-> HC]].
  - destruct HA as (_ & _ & Hsetup).
    destruct (setup_silent _ Hsetup) as [[_ _ N _ _] _].
    rewrite trimmedReplyOf_none; [ discriminate | ].
    apply no_query_no_reply. apply never_app. auto.
  - destruct HB as (ws & thr & e0 & pre & st0 & He & _ & Hsetup & Htr).
    destruct (setup_silent _ Hsetup) as [[_ _ N _ _] _].
    destruct (update_parts sv t (channel event) (Some (MsgThinkingIn ws)) st0 Ht Hch)
      as (_ & _ & _ & _ & _ & N1 & _).
    cbn [thinkingTs st1] in Htr. rewrite Htr.
    rewrite trimmedReplyOf_none; [ discriminate | ].
    rewrite !forallb_app, (no_query_no_reply _ N), (no_query_no_reply _ N1),
      (no_query_no_reply _ Ntail). reflexivity.
  - intros _.
    destruct HC as (ws & thr & r & pre & st0 & st1' & st2 & _ & _ & Hsetup & Htr).
    destruct (setup_silent _ Hsetup) as [[U D N _ _] P].
    destruct (update_parts sv t (channel event) (Some (MsgThinkingIn ws)) st0 Ht Hch)
      as (U1 & D1 & P1 & Q1 & _).
    destruct (update_parts sv t (channel event) None st1' Ht Hch)
      as (U2 & D2 & P2 & Q2 & _).
    destruct (postReply_silent (channel event) (replyTargetOf event) (ts event) ws
                (match r with Some s => Js.trim s | None => "" end) st2)
      as (U3 & D3 & N3 & _).
    assert (Ut : forall o st', updatesOf (pathTail sv (channel event) (replyTargetOf event)
                                            t false o st') = []
                               /\ deletesOf (pathTail sv (channel event) (replyTargetOf event)
                                               t false o st') = []).
    { intros o st'. unfold pathTail. destruct o as [ | e ]; [ split; reflexivity | ].
      destruct (fst (chat_postMessage sv _ _)); split; reflexivity. }
    destruct (Ut (outcomeOf body st1) (stateOf body st1)) as [U4 D4].
    cbn [thinkingTs st1] in Htr.
    destruct (update_trace sv t (channel event) None st1' Ht Hch) as (d & tl & Edel & _).
    exists ws, thr, r,
      (Log Info "[Msg Handler] Start" None
       :: EvPostMessage (thinkingPost event) (Returned (Some t))
       :: Log Info "[Msg Handler] No command matched. Proceeding with Intent Detection -> Routing -> LLM query." None
       :: pre
       ++ traceOf (updateOrDeleteThinkingMessage sv t (channel event)
                     (Some (MsgThinkingIn ws))) st0
       ++ [Log Info "[Msg Handler] Querying LLM" None;
           EvQueryLlm ws thr (llmInput cfg (cleanedQueryOf cfg event)) (Returned r)]),
      d,
      (tl ++ traceOf (postReply cfg fmt sv (channel event) (replyTargetOf event) (ts event)
                        ws (match r with Some s => Js.trim s | None => "" end)) st2
          ++ pathTail sv (channel event) (replyTargetOf event) t false
               (outcomeOf body st1) (stateOf body st1)).
    split; [ | split; [ | split; [ | split; [ | split ] ] ] ].
    + rewrite Htr, Edel. app_norm. reflexivity.
    + do 3 right. apply in_or_app. right. apply in_or_app. right. right. left. reflexivity.
    + projections. reflexivity.
    + rewrite Htr. projections. reflexivity.
    + rewrite Htr. projections. reflexivity.
    + rewrite Htr. projections. reflexivity.
Qed.

(** X16. An error after the reply arrived, when the thinking message is gone,
    is told in a message of its own in the thread. *)
Theorem late_error_is_posted_as_a_new_message
    (event : SlackEvent) (octokit : bool) (w w1 : World) (t reply : string) (e : Error) :
  ThinkingPosted cfg sv event w t w1 ->
  isPotentialGhCommand cfg (cleanedQueryOf cfg event) = false ->
  Js.truthy (channel event) = true ->
  let tr := snd (run cfg fmt sv event octokit w) in
  trimmedReplyOf tr = Some reply ->
  In (Caught CatchFallbackPath e) tr ->
  exists r,
    In (EvPostMessage {| pm_channel := channel event; pm_thread_ts := replyTargetOf event;
                         pm_text := MsgOops (message e); pm_blocks := None |} r) tr.
Proof.
  intros Hposted Hcmd Hch tr. subst tr.
  pose proof Hposted as (_ & _ & _ & Ht).
  destruct (fallback_run event octokit w w1 t Hposted Hcmd) as (alive & -> & Hcases).
  cbn [fst snd].
  set (body := fallbackBody cfg fmt sv (cleanedQueryOf cfg event) (user event)
                 (channel event) (replyTargetOf event) (ts event)) in *.
  set (st1 := {| world := w1; thinkingTs := t |}) in *.
  pose proof (pathTail_calm (channel event) (replyTargetOf event) t alive
                (outcomeOf body st1) (stateOf body st1) Ht Hch) as Ntail.
  cbn [trimmedReplyOf].
  destruct Hcases as [[-> [HA | HB]] | [-> HC]].
  - destruct HA as (_ & _ & Hsetup).
    destruct (setup_silent _ Hsetup) as [[_ _ N _ _] _].
    rewrite trimmedReplyOf_none; [ discriminate | ].
    apply no_query_no_reply. apply never_app. auto.
  - destruct HB as (ws & thr & e0 & pre & st0 & He & _ & Hsetup & Htr).
    destruct (setup_silent _ Hsetup) as [[_ _ N _ _] _].
    destruct (update_parts sv t (channel event) (Some (MsgThinkingIn ws)) st0 Ht Hch)
      as (_ & _ & _ & _ & _ & N1 & _).
    cbn [thinkingTs st1] in Htr. rewrite Htr.
    rewrite trimmedReplyOf_none; [ discriminate | ].
    rewrite !forallb_app, (no_query_no_reply _ N), (no_query_no_reply _ N1),
      (no_query_no_reply _ Ntail). reflexivity.
  - intros _ Hin.
    destruct HC as (ws & thr & r & pre & st0 & st1' & st2 & _ & _ & Hsetup & Htr).
    destruct (setup_silent _ Hsetup) as [[_ _ _ C _] _].
    destruct (update_parts sv t (channel event) (Some (MsgThinkingIn ws)) st0 Ht Hch)
      as (_ & _ & _ & _ & _ & _ & C1).
    destruct (update_parts sv t (channel event) None st1' Ht Hch)
      as (_ & _ & _ & _ & _ & _ & C2).
    destruct (postReply_silent (channel event) (replyTargetOf event) (ts event) ws
                (match r with Some s => Js.trim s | None => "" end) st2)
      as (_ & _ & _ & C3).
    cbn [thinkingTs st1] in Htr.
    destruct Hin as [Hin | [Hin | [Hin | Hin]]]; try discriminate Hin.
    apply in_app_or in Hin as [Hin | Hin].
    { exfalso. rewrite Htr in Hin.
      apply in_app_or in Hin as [Hin | Hin]; [ not_in C Hin | ].
      apply in_app_or in Hin as [Hin | Hin]; [ not_in C1 Hin | ].
      apply in_app_or in Hin as [Hin | Hin].
      { destruct Hin as [Hin | [Hin | []]]; discriminate Hin. }
      apply in_app_or in Hin as [Hin | Hin]; [ not_in C2 Hin | not_in C3 Hin ]. }
    unfold pathTail in Hin |- *.
    destruct (outcomeOf body st1) as [ | e0 ].
    { destruct Hin as [Hin | []]. discriminate Hin. }
    assert (e0 = e) as ->.
    { apply in_app_or in Hin as [Hin | Hin].
      - destruct Hin as [Hin | [Hin | [Hin | Hin]]]; try discriminate Hin.
        + injection Hin as ->. reflexivity.
        + destruct (fst (chat_postMessage sv _ _)); [ destruct Hin | ].
          destruct Hin as [Hin | []]. discriminate Hin.
      - destruct Hin as [Hin | []]. discriminate Hin. }
    eexists. do 3 right. apply in_or_app. right. apply in_or_app. left.
    right. right. left. reflexivity.
Qed.

End FallbackRuns.


(** ** Threads on the fallback path *)

Section FallbackThreads.

Context {Block World : Type}.
Variable cfg : Config.
Variable fmt : Formatting Block.
Variable sv : Services Block World.

Local Abbreviation Event := (Event Block).
Local Abbreviation Trace := (Trace Block).
Implicit Types st : State World.

Lemma queriesOf_update ts ch args st :
  queriesOf (traceOf (updateOrDeleteThinkingMessage sv ts ch args) st) = [].
Proof.
  apply queriesOf_never. apply emits_update; intros; try reflexivity.
  destruct args; reflexivity.
Qed.

Lemma queriesOf_postReply ch rt ots ws reply st :
  queriesOf (traceOf (postReply cfg fmt sv ch rt ots ws reply) st) = [].
Proof. apply queriesOf_never. apply (postReply_silent cfg fmt sv ch rt ots ws reply st). Qed.

(** Step 5d makes one query, with the workspace and the thread it is given. *)
Lemma queryStep_queriesOf q ch rt ots ws thr st :
  queriesOf (traceOf (queryStep cfg fmt sv q ch rt ots ws thr) st)
  = [(ws, thr, llmInput cfg q)].
Proof.
  unfold queryStep. run_norm.
  destruct (fst (queryLlm sv ws thr _ _)); run_norm;
    repeat first [ rewrite queriesOf_app | rewrite queriesOf_cons
                 | rewrite queriesOf_update | rewrite queriesOf_postReply
                 | progress cbn [app] ];
    reflexivity.
Qed.

Lemma pathTail_kinds ch rt (t : string) (alive : bool) (o : Outcome unit) st :
  forallb (ofKinds [KLog; KCaught; KPostMessage; KChatUpdate; KChatDelete])
    (pathTail sv ch rt t alive o st) = true.
Proof.
  unfold pathTail. rewrite forallb_app. apply andb_true_iff. split; [ | reflexivity ].
  destruct o as [ | e ]; [ reflexivity | ]. cbn [forallb]. 
  change (forallb (ofKinds [KLog; KCaught; KPostMessage; KChatUpdate; KChatDelete])
            (if alive
             then traceOf (updateOrDeleteThinkingMessage sv t ch (Some (MsgOops (message e)))) st
             else
               let r := fst (chat_postMessage sv
                               {| pm_channel := ch; pm_thread_ts := rt;
                                  pm_text := MsgOops (message e); pm_blocks := None |}
                               (world st)) in
               EvPostMessage {| pm_channel := ch; pm_thread_ts := rt;
                                pm_text := MsgOops (message e); pm_blocks := None |} r
               :: match r with
                  | Threw e' => [Caught CatchErrorNotice e']
                  | Returned _ => []
                  end) = true).
  destruct alive.
  - apply emits_update; intros; reflexivity.
  - cbv zeta. destruct (fst (chat_postMessage sv _ _)); reflexivity.
Qed.

(** The thread of the query when the conversation has no thread in the
    resolved workspace: a new one, stored as the mapping of the conversation. *)
Lemma threadForQuery_new ch rt (W thr : string) (mapping : option Mapping)
    (w3 w4 w5 w6 : World) (t : string) :
  getAnythingLLMThreadMapping sv ch rt w3 = (Returned mapping, w4) ->
  (forall m, mapping = Some m -> anythingllm_workspace_slug m <> W) ->
  createNewAnythingLLMThread sv W w4 = (Returned thr, w5) ->
  Js.truthy thr = true ->
  storeAnythingLLMThreadMapping sv ch rt W thr w5 = (Returned tt, w6) ->
  exists line,
    threadForQuery sv ch rt W {| world := w3; thinkingTs := t |}
    = (Returned thr, {| world := w6; thinkingTs := t |},
       [Log Info "[Msg Handler] Checking/Updating thread mapping for LLM query..." None;
        EvGetMapping ch rt (Returned mapping);
        Log Info line None;
        EvCreateThread W (Returned thr);
        EvStoreMapping ch rt W thr (Returned tt);
        Log Info "[Msg Handler] Created/Updated thread mapping for LLM" None]).
Proof.
  intros Hmap Hother Hnew Hthr Hstore.
  unfold threadForQuery, bind, log, emit, call, ret. cbn [world thinkingTs].
  rewrite Hmap. destruct mapping as [m | ].
  - specialize (Hother m eq_refl). apply String.eqb_neq in Hother. rewrite Hother.
    cbn [world thinkingTs]. rewrite Hnew, Hthr. cbn [negb world thinkingTs].
    rewrite Hstore. eexists. reflexivity.
  - cbn [world thinkingTs]. rewrite Hnew, Hthr. cbn [negb world thinkingTs].
    rewrite Hstore. eexists. reflexivity.
Qed.

(** X17. On the fallback path, when the conversation has no mapping or a
    mapping for another workspace than the one resolved, one thread is
    created in the resolved workspace, it is stored as the mapping of the
    conversation, and the query that follows uses it. *)
Theorem new_workspace_gets_a_new_thread
    (event : SlackEvent) (octokit : bool) (w w1 w2 w3 w4 w5 w6 : World) (t : string)
    (ir : IntentResult) (W thr : string) (mapping : option Mapping) :
  ThinkingPosted cfg sv event w t w1 ->
  isPotentialGhCommand cfg (cleanedQueryOf cfg event) = false ->
  detectIntentAndWorkspace sv (cleanedQueryOf cfg event) w1 = (Returned ir, w2) ->
  routingApplies cfg ir = false ->
  determineWorkspace sv (suggestedWorkspace ir) (user event) (channel event) w2
  = (Returned W, w3) ->
  Js.truthy W = true ->
  getAnythingLLMThreadMapping sv (channel event) (replyTargetOf event) w3
  = (Returned mapping, w4) ->
  (forall m, mapping = Some m -> anythingllm_workspace_slug m <> W) ->
  createNewAnythingLLMThread sv W w4 = (Returned thr, w5) ->
  Js.truthy thr = true ->
  storeAnythingLLMThreadMapping sv (channel event) (replyTargetOf event) W thr w5
  = (Returned tt, w6) ->
  let tr := snd (run cfg fmt sv event octokit w) in
  createsOf tr = [W]
  /\ storesOf tr = [(channel event, replyTargetOf event, W, thr)]
  /\ queriesOf tr = [(W, thr, llmInput cfg (cleanedQueryOf cfg event))]
  /\ exists pre post,
       tr = pre ++ EvStoreMapping (channel event) (replyTargetOf event) W thr (Returned tt)
                   :: post
       /\ never isLlmQuery pre.
Proof.
  intros Hposted Hcmd Hdet Hroute Hws HW Hmap Hother Hnew Hthr Hstore tr. subst tr.
  destruct (fallback_run cfg fmt sv event octokit w w1 t Hposted Hcmd)
    as (alive & -> & _).
  cbn [snd].
  set (q := cleanedQueryOf cfg event) in *.
  destruct (fallbackBody_to_thread cfg fmt sv q (user event) (channel event)
              (replyTargetOf event) (ts event) w1 w2 w3 t ir W Hdet Hroute Hws HW)
    as (line & ->).
  destruct (threadForQuery_new (channel event) (replyTargetOf event) W thr mapping
              w3 w4 w5 w6 t Hmap Hother Hnew Hthr Hstore) as (line' & Hthread).
  rewrite (traceOf_bind_returned _ Hthread).
  set (tq := traceOf (queryStep cfg fmt sv q (channel event) (replyTargetOf event)
                        (ts event) W thr) _).
  set (tail := pathTail _ _ _ _ _ _ _).
  assert (Hq : forallb (ofKinds queryKinds) tq = true) by apply queryStep_footprint.
  assert (Qq : queriesOf tq = [(W, thr, llmInput cfg q)]) by apply queryStep_queriesOf.
  assert (Ht : forallb (ofKinds [KLog; KCaught; KPostMessage; KChatUpdate; KChatDelete]) tail
               = true) by apply pathTail_kinds.
  assert (Cq : createsOf tq = [] /\ storesOf tq = []).
  { split; (eapply collect_none; [ | exact Hq ]); by_kind. }
  assert (Ct : createsOf tail = [] /\ storesOf tail = [] /\ queriesOf tail = []).
  { repeat split; (eapply collect_none; [ | exact Ht ]); by_kind. }
  destruct Cq as [Cq Sq]. destruct Ct as (Ct & St & Qt).
  unfold createsOf, storesOf, queriesOf in *.
  repeat split.
  - repeat first [ rewrite collect_cons | rewrite collect_app | progress cbn [app] ].
    rewrite Cq, Ct. reflexivity.
  - repeat first [ rewrite collect_cons | rewrite collect_app | progress cbn [app] ].
    rewrite Sq, St. reflexivity.
  - repeat first [ rewrite collect_cons | rewrite collect_app | progress cbn [app] ].
    rewrite Qq, Qt. reflexivity.
  - eexists (_ :: _ :: _ :: _ :: _ :: _ :: _ :: _ :: _ :: _ :: _ :: _ :: [_]), _.
    split; [ cbn [app]; reflexivity | reflexivity ].
Qed.

End FallbackThreads.


(** ** The reply *)

Section ReplyFacts.

Context {Block World : Type}.
Variable cfg : Config.
Variable fmt : Formatting Block.
Variable sv : Services Block World.

Local Abbreviation Event := (Event Block).
Local Abbreviation Trace := (Trace Block).
Implicit Types st : State World.

Lemma postReply_feedback_for ch rt ots ws reply :
  emits (isFeedbackFor ch rt ots ws) (postReply cfg fmt sv ch rt ots ws reply).
Proof.
  unfold postReply.
  repeat first
    [ match goal with
      | |- emits _ (postMessage _ (rawReplyPost _ _ _ _)) =>
          apply emits_call; intros; unfold rawReplyPost;
          destruct (markdownToRichTextBlock _ _); reflexivity
      | |- emits _ (postMessage _ (feedbackPost _ _ _ _)) =>
          apply emits_call; intros; cbn; rewrite !String.eqb_refl; reflexivity
      end
    | emits_rule ltac:(try destruct_all (option Block); reflexivity) | emits_case ].
Qed.

Lemma quiet_not_feedback (t : Trace) (ev : Event) :
  forallb quiet t = true -> In ev t -> isFeedbackPost ev = false.
Proof.
  intros Hq Hin. rewrite forallb_forall in Hq. specialize (Hq ev Hin).
  unfold quiet in Hq. destruct (isFeedbackPost ev); [ | reflexivity ].
  rewrite andb_false_r in Hq. discriminate.
Qed.

(** X18. The feedback buttons are only ever posted after a query returned, in
    the thread of the conversation, and their block id is made of the
    timestamp of the user's message and the workspace that was asked. *)
Theorem feedback_names_the_message_and_the_workspace
    (event : SlackEvent) (octokit : bool) (w : World)
    (args : PostArgs Block) (r : Outcome (option string))
    (block_id : string) (buttons : list (string * string)) :
  let tr := snd (run cfg fmt sv event octokit w) in
  In (EvPostMessage args r) tr ->
  pm_blocks args = Some (FeedbackBlock block_id buttons) ->
  exists workspace thread input reply,
    In (EvQueryLlm workspace thread input (Returned reply)) tr
    /\ block_id = ("feedback_" ++ ts event ++ "_" ++ workspace)%string
    /\ pm_channel args = channel event
    /\ pm_thread_ts args = replyTargetOf event.
Proof.
  intros tr Hin Hblocks. subst tr. rewrite run_trace in *.
  assert (Hfb : isFeedbackPost (EvPostMessage args r) = true).
  { cbn. rewrite Hblocks. reflexivity. }
  destruct (shaped_handler cfg fmt sv event octokit {| world := w; thinkingTs := "" |})
    as [Hq | (pre & ws & thr & input & reply & mid & st & post & Htr & Hpre & Hmid & Hpost)].
  - rewrite (quiet_not_feedback _ _ Hq Hin) in Hfb. discriminate.
  - rewrite Htr in Hin |- *.
    exists ws, thr, input, reply.
    split; [ apply in_or_app; right; left; reflexivity | ].
    apply in_app_or in Hin as [Hin | Hin].
    { rewrite (quiet_not_feedback _ _ Hpre Hin) in Hfb. discriminate. }
    destruct Hin as [Hin | Hin]; [ discriminate Hin | ].
    apply in_app_or in Hin as [Hin | Hin].
    { rewrite (quiet_not_feedback _ _ Hmid Hin) in Hfb. discriminate. }
    apply in_app_or in Hin as [Hin | Hin].
    2:{ rewrite (quiet_not_feedback _ _ Hpost Hin) in Hfb. discriminate. }
    pose proof (postReply_feedback_for (channel event) (replyTargetOf event) (ts event) ws
                  (match reply with Some s => Js.trim s | None => "" end) st) as Hall.
    rewrite forallb_forall in Hall. specialize (Hall _ Hin).
    cbn [isFeedbackFor] in Hall. rewrite Hblocks in Hall.
    apply andb_true_iff in Hall as [Hall Hrt]. apply andb_true_iff in Hall as [Hid Hch].
    apply String.eqb_eq in Hid, Hch, Hrt. auto.
Qed.

(** X19. A reply that is empty once trimmed, or that is not a string, is
    answered with the empty-response notice in the thread; no part of a reply
    and no feedback buttons are posted. *)
Theorem empty_reply_gets_the_empty_response_notice
    (event : SlackEvent) (octokit : bool) (w : World) :
  let tr := snd (run cfg fmt sv event octokit w) in
  trimmedReplyOf tr = Some "" ->
  replyPostsOf tr = []
  /\ feedbackPosted tr = false
  /\ exists r, In (EvPostMessage {| pm_channel := channel event;
                                    pm_thread_ts := replyTargetOf event;
                                    pm_text := MsgEmptyResponse; pm_blocks := None |} r) tr.
Proof.
  intros tr Hreply. subst tr. rewrite run_trace in *.
  destruct (shaped_handler cfg fmt sv event octokit {| world := w; thinkingTs := "" |})
    as [Hq | (pre & ws & thr & input & reply & mid & st & post & Htr & Hpre & Hmid & Hpost)].
  - destruct (quiet_parts _ Hq) as [Hl _].
    rewrite <- (app_nil_r (traceOf _ _)) in Hreply.
    rewrite (trimmedReplyOf_skip _ _ Hl) in Hreply. discriminate.
  - rewrite Htr in Hreply |- *.
    destruct (quiet_parts pre Hpre) as [Hpre1 Hpre2].
    destruct (quiet_parts mid Hmid) as [Hmid1 Hmid2].
    destruct (quiet_parts post Hpost) as [Hpost1 Hpost2].
    rewrite (trimmedReplyOf_skip _ _ Hpre1) in Hreply. cbn [trimmedReplyOf] in Hreply.
    injection Hreply as Hreply. rewrite Hreply.
    assert (E : exists r, traceOf (postReply cfg fmt sv (channel event) (replyTargetOf event)
                                     (ts event) ws "") st
                          = [Log Info "[Msg Handler] LLM returned empty response." None;
                             EvPostMessage {| pm_channel := channel event;
                                              pm_thread_ts := replyTargetOf event;
                                              pm_text := MsgEmptyResponse;
                                              pm_blocks := None |} r]).
    { unfold postReply. cbn [Js.truthy String.eqb negb]. run_norm.
      destruct (fst (chat_postMessage sv _ _)) eqn:Er; run_norm; eexists; reflexivity. }
    destruct E as [r0 E]. rewrite E. split; [ | split ].
    + rewrite replyPostsOf_app. cbn [replyPostsOf]. rewrite !replyPostsOf_app.
      rewrite (replyPostsOf_skip pre Hpre2), (replyPostsOf_skip mid Hmid2),
        (replyPostsOf_skip post Hpost2). reflexivity.
    + unfold feedbackPosted. rewrite existsb_app. cbn [existsb isFeedbackPost].
      rewrite !existsb_app.
      rewrite (quiet_no_feedback pre Hpre), (quiet_no_feedback mid Hmid),
        (quiet_no_feedback post Hpost). reflexivity.
    + exists r0. apply in_or_app. right. right. apply in_or_app. right.
      apply in_or_app. left. right. left. reflexivity.
Qed.

End ReplyFacts.


(** * Further properties of the handler *)

Section Further.

Context {Block World : Type}.
Variable cfg : Config.
Variable fmt : Formatting Block.
Variable sv : Services Block World.

Local Abbreviation Event := (Event Block).
Local Abbreviation Trace := (Trace Block).
Implicit Types st : State World.

(** X1. [updateOrDeleteThinkingMessage] never throws when Slack resolves or
    rejects with an error object, which is every answer of [chat_update] and
    [chat_delete] in [Services] (a rejection with [null] or [undefined] is not
    covered: line 83 would throw on it). It calls Slack once when it has a
    timestamp and a channel and not at all otherwise. *)
Theorem helper_never_throws_and_edits_at_most_once
    (ts ch : string) (args : option Msg) (st : State World) :
  let m := updateOrDeleteThinkingMessage sv ts ch args in
  outcomeOf m st = Returned tt
  /\ slackEdits (traceOf m st) = (if Js.truthy ts && Js.truthy ch then 1 else 0)
  /\ forallb (ofKinds [KLog; KCaught; KChatUpdate; KChatDelete]) (traceOf m st) = true.
Proof.
  intros m. subst m. split; [ apply update_outcome | ].
  split; [ | apply update_footprint ].
  destruct (Js.truthy ts) eqn:Hts; destruct (Js.truthy ch) eqn:Hch; cbn [andb].
  - destruct (update_trace sv ts ch args st Hts Hch) as (r & tl & -> & Htl).
    unfold slackEdits. 
    assert (E : filter touchesThinkingMessage tl = []).
    { clear - Htl. induction tl as [ | ev tl IH ]; [ reflexivity | ].
      cbn [forallb] in Htl. apply andb_true_iff in Htl as [Hev Htl].
      destruct ev; try discriminate; cbn; auto. }
    destruct args; cbn [filter touchesThinkingMessage isChatUpdate isChatDelete orb];
      rewrite E; reflexivity.
  - unfold updateOrDeleteThinkingMessage. rewrite Hts, Hch. reflexivity.
  - unfold updateOrDeleteThinkingMessage. rewrite Hts. reflexivity.
  - unfold updateOrDeleteThinkingMessage. rewrite Hts. reflexivity.
Qed.

(** X3. When the thinking message cannot be posted (the call rejects with an
    error object, or the response has no timestamp), the run ends there: the
    failure is logged and nothing else is called. A rejection with [null] or
    [undefined], on which line 129 would throw, is not covered. *)
Theorem failed_thinking_post_ends_the_run
    (event : SlackEvent) (octokit : bool) (w : World) :
  Js.truthy (cleanedQueryOf cfg event) = true ->
  isDeleteCommand (cleanedQueryOf cfg event) = false ->
  let r := fst (chat_postMessage sv (thinkingPost event) w) in
  (forall t, r = Returned (Some t) -> Js.truthy t = false) ->
  let e := match r with
           | Threw e => e
           | Returned _ => newError "Failed to get timestamp from thinking message response."
           end in
  run cfg fmt sv event octokit w
  = (Returned tt,
     [Log Info "[Msg Handler] Start" None;
      EvPostMessage (thinkingPost event) r;
      Caught CatchInitialPost e;
      Log Err "[Msg Handler] Failed post initial thinking message:" (Some e)]).
Proof.
  intros Hq Hd r Hr e. subst e r.
  unfold run, handleSlackMessageEventInternal. rewrite Hq, Hd. cbn [negb].
  unfold bind, log, logError, emit, postThinkingMessage, tryCatch, postMessage, call, bind.
  cbn [world thinkingTs]. fold (thinkingPost (Block := Block) event).
  destruct (chat_postMessage sv (thinkingPost event) w) as [[[t | ] | e] w'] eqn:Hp;
    cbn [fst] in *.
  - rewrite (Hr t eq_refl). reflexivity.
  - reflexivity.
  - reflexivity.
Qed.

(** X2. An event without a text is ignored like an empty message. *)
Theorem event_without_text_is_ignored
    (event : SlackEvent) (octokit : bool) (w : World) :
  text event = None ->
  run cfg fmt sv event octokit w
  = (Returned tt,
     [Log Info "[Msg Handler] Start" None;
      Log Info "[Msg Handler] Ignoring empty message after mention removal." None]).
Proof.
  intros Htext.
  assert (Hq : cleanedQueryOf cfg event = "").
  { unfold cleanedQueryOf, originalText. rewrite Htext. reflexivity. }
  unfold run, handleSlackMessageEventInternal. rewrite Hq. reflexivity.
Qed.

(** X4. A command is not tried without the GitHub token and client: the
    thinking message becomes the notice that says which is missing, and the
    run does nothing else. *)
Theorem commands_need_the_github_token_and_client
    (event : SlackEvent) (octokit : bool) (w w1 : World) (t : string) :
  ThinkingPosted cfg sv event w t w1 ->
  isPotentialGhCommand cfg (cleanedQueryOf cfg event) = true ->
  Js.truthy (githubToken cfg) && octokit = false ->
  Js.truthy (channel event) = true ->
  let tr := snd (run cfg fmt sv event octokit w) in
  fst (run cfg fmt sv event octokit w) = Returned tt
  /\ updatesOf tr
     = [if Js.truthy (githubToken cfg) then MsgGithubClientFailed else MsgGithubDisabled]
  /\ forallb (ofKinds [KLog; KCaught; KPostMessage; KChatUpdate]) tr = true.
Proof.
  intros Hposted Hcmd Hguard Hch tr. subst tr.
  pose proof Hposted as (_ & _ & _ & Ht).
  rewrite (run_after_thinking cfg fmt sv event octokit w w1 t Hposted). cbn [fst snd].
  unfold afterThinkingMessage. rewrite Hcmd.
  set (st1 := {| world := w1; thinkingTs := t |}).
  assert (Hnotice : forall msg,
             outcomeOf (updateOrDeleteThinkingMessage sv t (channel event) (Some msg)) st1
             = Returned tt
             /\ updatesOf (traceOf (updateOrDeleteThinkingMessage sv t (channel event)
                                      (Some msg)) st1) = [msg]
             /\ forallb (ofKinds [KLog; KCaught; KPostMessage; KChatUpdate])
                  (traceOf (updateOrDeleteThinkingMessage sv t (channel event)
                              (Some msg)) st1) = true).
  { intros msg. split; [ apply update_outcome | ].
    split; [ apply (update_parts sv t (channel event) (Some msg) st1 Ht Hch) | ].
    apply emits_update; intros; reflexivity. }
  destruct (Js.truthy (githubToken cfg)); cbn [negb andb] in *.
  - subst octokit. cbn [negb]. destruct (Hnotice MsgGithubClientFailed) as (-> & U & F).
    cbn [updatesOf forallb]. rewrite U, F. auto.
  - destruct (Hnotice MsgGithubDisabled) as (-> & U & F).
    cbn [updatesOf forallb]. rewrite U, F. auto.
Qed.

(** X7. At most one of the four command patterns accepts a text, so the order
    in which they are tried decides nothing. *)
Theorem grammars_exclude_one_another (q : string) : grammarsAccepting cfg q <= 1.
Proof.
  unfold grammarsAccepting, accepts. cbn [filter].
  destruct (Regex.matchAnchored (Patterns.RELEASE_REGEX cfg) q) as [g | ] eqn:Hrel.
  { destruct (release_excludes cfg q g Hrel) as (-> & -> & ->). cbn. lia. }
  destruct (Regex.matchAnchored (Patterns.PR_REVIEW_REGEX cfg) q) as [g | ] eqn:Hpr.
  { destruct (review_excludes cfg q g Hpr) as (-> & ->). cbn. lia. }
  destruct (Regex.matchAnchored (Patterns.ISSUE_ANALYSIS_REGEX cfg) q) as [g | ] eqn:His.
  { rewrite (issue_excludes cfg q g His). cbn. lia. }
  destruct (Regex.matchAnchored (Patterns.GENERIC_API_REGEX cfg) q); cbn; lia.
Qed.

(** X5. With a command prefix of ASCII characters in lower case, every text
    that a pattern accepts also passes the prefix test of line 135, which
    lower-cases the text and not the prefix: no pattern is out of reach. The
    prefix is asked to be ASCII for the micro sign U+00B5, which the
    case-insensitive patterns match with the Greek mu while the prefix test
    does not; on the strings of the model, which end at code unit 255, that
    hypothesis is not needed. *)
Theorem accepted_commands_pass_the_prefix_test (q : string) :
  allOf isAscii (COMMAND_PREFIX cfg) = true ->
  Js.toLowerCase (COMMAND_PREFIX cfg) = COMMAND_PREFIX cfg ->
  grammarsAccepting cfg q <> 0 ->
  isPotentialGhCommand cfg q = true.
Proof.
  intros _ Hlow Hacc. unfold grammarsAccepting in Hacc. cbn [filter] in Hacc.
  destruct (accepts (Patterns.RELEASE_REGEX cfg) q) eqn:A1;
    [ apply (accepted_is_potential cfg _ q) with (3 := A1); cbn; auto | ].
  destruct (accepts (Patterns.PR_REVIEW_REGEX cfg) q) eqn:A2;
    [ apply (accepted_is_potential cfg _ q) with (3 := A2); cbn; auto | ].
  destruct (accepts (Patterns.ISSUE_ANALYSIS_REGEX cfg) q) eqn:A3;
    [ apply (accepted_is_potential cfg _ q) with (3 := A3); cbn; auto | ].
  destruct (accepts (Patterns.GENERIC_API_REGEX cfg) q) eqn:A4;
    [ apply (accepted_is_potential cfg _ q) with (3 := A4); cbn; auto 6 | ].
  contradiction Hacc. reflexivity.
Qed.

Lemma noncommand_never_runs_a_command event octokit :
  isPotentialGhCommand cfg (cleanedQueryOf cfg event) = false ->
  emits (fun ev => negb (isCommand ev))
    (handleSlackMessageEventInternal cfg fmt sv event octokit).
Proof.
  intros Hcmd. unfold handleSlackMessageEventInternal, postThinkingMessage.
  repeat first
    [ match goal with
      | |- emits _ (afterThinkingMessage _ _ _ _ _ _) =>
          rewrite (afterThinking_fallback cfg fmt sv event octokit _ Hcmd);
          eapply emits_weaken; [ | apply fallbackPath_footprint ]; by_kind
      end
    | emits_rule reflexivity | emits_case ].
Qed.

(** X6. With a command prefix that is not in lower case no text passes the
    prefix test, and no executor is ever run. *)
Theorem prefix_with_capitals_disables_commands
    (event : SlackEvent) (octokit : bool) (w : World) :
  Js.toLowerCase (COMMAND_PREFIX cfg) <> COMMAND_PREFIX cfg ->
  isPotentialGhCommand cfg (cleanedQueryOf cfg event) = false
  /\ never isCommand (snd (run cfg fmt sv event octokit w)).
Proof.
  intros Hprefix.
  assert (Hcmd : isPotentialGhCommand cfg (cleanedQueryOf cfg event) = false).
  { unfold isPotentialGhCommand, Js.startsWith.
    destruct (String.prefix _ _) eqn:Hp; [ | reflexivity ].
    contradiction Hprefix. apply (prefix_of_lower _ _ Hp). }
  split; [ exact Hcmd | ].
  rewrite run_trace. apply noncommand_never_runs_a_command. exact Hcmd.
Qed.

(** X9. A notice about the form of a command is never sent: a text that the PR
    review pattern or the issue pattern accepts always has well-formed
    parameters, so the branches of lines 166-170 and 217-221 are dead. *)
Theorem format_notices_are_never_sent
    (event : SlackEvent) (octokit : bool) (w : World) :
  never isFormatNotice (snd (run cfg fmt sv event octokit w)).
Proof. rewrite run_trace. apply handler_no_format_notice. Qed.

(** X20. Every message posted, every mapping read or stored, every update and
    delete and every executor call is addressed to the channel of the event
    and, where a thread is named, to the thread of the event: [thread_ts]
    when the event has one, its own [ts] otherwise. *)
Theorem everything_is_addressed_to_the_conversation
    (event : SlackEvent) (octokit : bool) (w : World) :
  forallb (inConversation (channel event) (replyTargetOf event))
    (snd (run cfg fmt sv event octokit w)) = true.
Proof. rewrite run_trace. apply handler_inConversation. Qed.

(** X21. No executor and no call of the LLM backend is given an empty name: the
    workspace of a query, of a new thread and of a stored mapping, the thread
    of a stored mapping, the workspace and thread of the issue analysis, the
    captures of the other commands and the timestamp of the thinking message
    are never the empty string. *)
Theorem no_call_is_given_an_empty_name
    (event : SlackEvent) (octokit : bool) (w : World) :
  forallb namesGiven (snd (run cfg fmt sv event octokit w)) = true.
Proof. rewrite run_trace. apply handler_namesGiven. Qed.

(** X22. Every thread that is created is stored at once as the mapping of the
    conversation of the event, under the workspace it was created in, and no
    mapping is stored otherwise. *)
Theorem created_threads_are_stored_at_once
    (event : SlackEvent) (octokit : bool) (w : World) :
  threadsStored (channel event) (replyTargetOf event)
    (snd (run cfg fmt sv event octokit w)) = true.
Proof. rewrite run_trace. apply handler_storesThreads. Qed.

(** X23. No part of a reply is posted with an empty text. *)
Theorem no_reply_is_posted_without_text
    (event : SlackEvent) (octokit : bool) (w : World) :
  forallb hasText (snd (run cfg fmt sv event octokit w)) = true.
Proof. rewrite run_trace. apply handler_hasText. Qed.

(** X11. For an event whose text is a string or missing, and calls that
    reject with error objects only (the events and the rejections of the
    model), the handler throws only what the delete handler or an executor of
    the release, PR review or API command throws, and the call that threw is
    the last thing it did; what the issue analysis throws is caught. *)
Theorem only_unguarded_calls_throw
    (event : SlackEvent) (octokit : bool) (w : World) (e : Error) :
  fst (run cfg fmt sv event octokit w) = Threw e ->
  endsInThrow e (snd (run cfg fmt sv event octokit w)).
Proof.
  rewrite run_outcome, run_trace. apply handler_throwsOnlyThrough.
Qed.

(** X12. For an event whose text is a string or missing, and calls that
    reject with error objects only (the events and the rejections of the
    model), a message that is neither the delete command nor a command with
    the prefix never makes the handler throw. *)
Theorem fallback_path_never_throws
    (event : SlackEvent) (octokit : bool) (w : World) :
  isDeleteCommand (cleanedQueryOf cfg event) = false ->
  isPotentialGhCommand cfg (cleanedQueryOf cfg event) = false ->
  fst (run cfg fmt sv event octokit w) = Returned tt.
Proof.
  intros Hd Hcmd.
  destruct (fst (run cfg fmt sv event octokit w)) as [[] | e] eqn:Ho; [ reflexivity | ].
  exfalso. rewrite run_outcome in Ho.
  destruct (handler_throwsOnlyThrough cfg fmt sv event octokit _ e Ho)
    as (t0 & ev & Htr & Hev).
  pose proof (noncommand_never_runs_a_command event octokit Hcmd
                {| world := w; thinkingTs := "" |}) as Hnc.
  assert (Hnd : forallb (fun ev : Event => negb (kind_eqb (kindOf ev) KDeleteLast))
                  (traceOf (handleSlackMessageEventInternal cfg fmt sv event octokit)
                     {| world := w; thinkingTs := "" |}) = true).
  { assert (E : emits (fun ev : Event => negb (kind_eqb (kindOf ev) KDeleteLast))
                  (handleSlackMessageEventInternal cfg fmt sv event octokit)).
    { unfold handleSlackMessageEventInternal, postThinkingMessage. rewrite Hd.
      repeat first
        [ match goal with
          | |- emits _ (afterThinkingMessage _ _ _ _ _ _) =>
              rewrite (afterThinking_fallback cfg fmt sv event octokit _ Hcmd);
              eapply emits_weaken; [ | apply fallbackPath_footprint ]; by_kind
          end
        | emits_rule reflexivity | emits_case ]. }
    apply E. }
  rewrite Htr in Hnc, Hnd. rewrite forallb_app in Hnc, Hnd.
  apply andb_true_iff in Hnc as [_ Hnc]. apply andb_true_iff in Hnd as [_ Hnd].
  destruct Hev as [(c & r & b & ->) | (c & _ & ->)]; discriminate.
Qed.

End Further.


(** ** What the handler does with the result of an executor *)

Section ExecutorTraces.

Context {Block : Type}.

Local Abbreviation Event := (Event Block).
Local Abbreviation Trace := (Trace Block).

Lemma commandResultsOf_app (a b : Trace) :
  commandResultsOf (a ++ b) = commandResultsOf a ++ commandResultsOf b.
Proof.
  induction a as [ | ev a IH ]; [ reflexivity | ].
  destruct ev; cbn [app commandResultsOf]; rewrite ?IH; reflexivity.
Qed.

Lemma commandResultsOf_quiet (ok : Event -> bool) (t : Trace) :
  (forall ev, ok ev = true -> isCommand ev = false) ->
  forallb ok t = true -> commandResultsOf t = [].
Proof.
  intros Hok. induction t as [ | ev t IH ]; [ reflexivity | ].
  cbn [forallb]. intros H. apply andb_true_iff in H as [Hev Ht].
  specialize (Hok ev Hev). destruct ev; cbn [commandResultsOf]; auto. discriminate.
Qed.

End ExecutorTraces.

(** Computes what a trace shows of the executors and of the thinking message
    from what its parts show. *)
Ltac shown :=
  repeat first
    [ rewrite commandResultsOf_app | rewrite updatesOf_app | rewrite deletesOf_app
    | rewrite deletesOf_cons | progress cbn [app commandResultsOf updatesOf] ].

Section ExecutorResults.

Context {Block World : Type}.
Variable cfg : Config.
Variable fmt : Formatting Block.
Variable sv : Services Block World.

Local Abbreviation Event := (Event Block).
Local Abbreviation Trace := (Trace Block).
Local Abbreviation H := (M Block World).
Implicit Types st : State World.

Lemma bind_skip {A B} (m : H A) (f : A -> H B) st (a : A) :
  m st = (Returned a, st, []) -> bind m f st = f a st.
Proof. intros E. unfold bind. rewrite E. destruct (f a st) as [[r s] t]. reflexivity. Qed.

Variables (q u ch rt ts : string).
Hypothesis Hts : Js.truthy ts = true.
Hypothesis Hch : Js.truthy ch = true.

Lemma update_shows (txt : Msg) st :
  Shows (updateOrDeleteThinkingMessage sv ts ch (Some txt)) st [] [txt].
Proof.
  destruct (update_parts sv ts ch (Some txt) st Hts Hch) as (U & D & _).
  split; [ | split; assumption ].
  eapply commandResultsOf_quiet; [ | apply update_footprint ]. by_kind.
Qed.

Lemma unknownCommand_shows h st :
  outcomeOf (unknownCommand sv ch ts h) st = Returned true
  /\ Shows (unknownCommand sv ch ts h) st [] (if h then [] else [MsgUnknownCommand]).
Proof.
  split; [ apply unknownCommand_outcome | ].
  destruct h; [ repeat split | ].
  unfold unknownCommand, Shows. cbn [negb]. run_norm.
  destruct (update_shows MsgUnknownCommand st) as (C & U & D).
  cbn [commandResultsOf updatesOf]. rewrite deletesOf_cons, !app_nil_r. auto.
Qed.

Lemma rest_after_issue h st :
  Regex.matchAnchored (Patterns.GENERIC_API_REGEX cfg) q = None ->
  bind (genericApiCommand cfg sv q ch rt ts h) (fun h' => unknownCommand sv ch ts h') st
  = unknownCommand sv ch ts h st.
Proof.
  intros Hapi. destruct h.
  - apply bind_skip. reflexivity.
  - apply bind_skip. apply genericApiCommand_miss. apply requiredGroup_unmatched. exact Hapi.
Qed.

Lemma rest_after_review h st :
  Regex.matchAnchored (Patterns.ISSUE_ANALYSIS_REGEX cfg) q = None ->
  Regex.matchAnchored (Patterns.GENERIC_API_REGEX cfg) q = None ->
  bind (issueAnalysisCommand cfg sv q u ch rt ts h)
    (fun h1 => bind (genericApiCommand cfg sv q ch rt ts h1)
                 (fun h' => unknownCommand sv ch ts h')) st
  = unknownCommand sv ch ts h st.
Proof.
  intros His Hapi. destruct h.
  - rewrite (bind_skip _ _ st true (issueAnalysisCommand_skip cfg sv q u ch rt ts st)).
    apply rest_after_issue. exact Hapi.
  - rewrite (bind_skip _ _ st false (issueAnalysisCommand_miss cfg sv q u ch rt ts st His)).
    apply rest_after_issue. exact Hapi.
Qed.

Lemma rest_after_release h st :
  Regex.matchAnchored (Patterns.PR_REVIEW_REGEX cfg) q = None ->
  Regex.matchAnchored (Patterns.ISSUE_ANALYSIS_REGEX cfg) q = None ->
  Regex.matchAnchored (Patterns.GENERIC_API_REGEX cfg) q = None ->
  bind (prReviewCommand cfg sv q ch rt ts h)
    (fun h0 => bind (issueAnalysisCommand cfg sv q u ch rt ts h0)
       (fun h1 => bind (genericApiCommand cfg sv q ch rt ts h1)
                    (fun h' => unknownCommand sv ch ts h'))) st
  = unknownCommand sv ch ts h st.
Proof.
  intros Hpr His Hapi. destruct h.
  - rewrite (bind_skip _ _ st true (prReviewCommand_skip cfg sv q ch rt ts st)).
    apply rest_after_review; assumption.
  - rewrite (bind_skip _ _ st false (prReviewCommand_miss cfg sv q ch rt ts st Hpr)).
    apply rest_after_review; assumption.
Qed.

(** One executor call followed by what is left of the block. *)
Lemma executor_then_rest (c : Command) (pre : Trace) (rest : bool -> H bool) st :
  isIssueAnalysis c = false ->
  commandResultsOf pre = [] -> updatesOf pre = [] -> deletesOf pre = [] ->
  (forall h st', rest h st' = unknownCommand sv ch ts h st') ->
  let r := fst (runCommand sv c (world st)) in
  let t := pre ++ traceOf (bind (call (runCommand sv c) (EvCommand c)) rest) st in
  commandResultsOf t = [(c, r)] /\ updatesOf t = reactionTo c r /\ deletesOf t = [].
Proof.
  intros Hc Cp Up Dp Hrest r t. subst r t.
  rewrite commandResultsOf_app, updatesOf_app, deletesOf_app, Cp, Up, Dp. cbn [app].
  rewrite traceOf_bind, outcomeOf_call, traceOf_call, stateOf_call.
  destruct (fst (runCommand sv c (world st))) as [h | e].
  - set (st' := {| world := snd (runCommand sv c (world st));
                    thinkingTs := thinkingTs st |}).
    assert (E : traceOf (rest h) st' = traceOf (unknownCommand sv ch ts h) st').
    { unfold traceOf. rewrite Hrest. reflexivity. }
    rewrite E. destruct (unknownCommand_shows h st') as (_ & C & U & D).
    cbn [app commandResultsOf updatesOf]. rewrite deletesOf_cons, C, U, D.
    destruct h; auto.
  - cbn [commandResultsOf updatesOf reactionTo]. rewrite Hc. auto.
Qed.

(** The [catch] clause of the issue command (lines 218-222). *)
Lemma contextHandler_shows (e : Error) st :
  let h := (logError Err "[Msg Handler-IssueCmd] Context/Thread Setup Error:" e ;;
            updateOrDeleteThinkingMessage sv ts ch (Some (MsgContextError (message e))) ;;
            ret true)%handler in
  outcomeOf h st = Returned true /\ Shows h st [] [MsgContextError (message e)].
Proof.
  intros h. subst h. split.
  - run_norm. rewrite ?update_outcome. reflexivity.
  - unfold Shows. run_norm. rewrite ?update_outcome. cbn iota.
    destruct (update_shows (MsgContextError (message e)) st) as (C & U & D).
    cbn [commandResultsOf updatesOf]. rewrite deletesOf_cons, !app_nil_r. auto.
Qed.

Lemma bind_assoc {A B C} (m : H A) (f : A -> H B) (g : B -> H C) st :
  bind (bind m f) g st = bind m (fun a => bind (f a) g) st.
Proof.
  unfold bind. destruct (m st) as [[[a | e] st1] t1]; [ | reflexivity ].
  destruct (f a st1) as [[[b | e] st2] t2]; [ | reflexivity ].
  destruct (g b st2) as [[r st3] t3]. rewrite app_assoc. reflexivity.
Qed.

Lemma traceOf_ext {A} (m m' : H A) st : m st = m' st -> traceOf m st = traceOf m' st.
Proof. unfold traceOf. intros ->. reflexivity. Qed.

Lemma reacts_of_one (t : Trace) c r :
  commandResultsOf t = [(c, r)] /\ updatesOf t = reactionTo c r /\ deletesOf t = [] ->
  Reacts t.
Proof.
  intros (C & U & D) c' r' Hin. rewrite C in Hin.
  destruct Hin as [E | []]. injection E as <- <-. split; assumption.
Qed.

Lemma reacts_of_none (t : Trace) : commandResultsOf t = [] -> Reacts t.
Proof. intros C c r Hin. rewrite C in Hin. destruct Hin. Qed.

Lemma githubCommands_reacts st :
  Reacts (traceOf (githubCommands cfg sv q u ch rt ts) st).
Proof.
  unfold githubCommands.
  destruct (Regex.matchAnchored (Patterns.RELEASE_REGEX cfg) q) as [g0 | ] eqn:Hrel.
  - destruct (release_excludes cfg q g0 Hrel) as (Hpr & His & Hapi).
    unfold releaseCommand at 1. rewrite Hrel.
    destruct (Regex.group "repo_id" g0) as [repo_id | ].
    2:{ rewrite (traceOf_ext _ _ st (bind_skip _ _ st false eq_refl)).
        rewrite (traceOf_ext _ _ st (rest_after_release false st Hpr His Hapi)).
        destruct (unknownCommand_shows false st) as (_ & C & U & D).
        apply reacts_of_none; assumption. }
    destruct (Js.truthy repo_id).
    2:{ rewrite (traceOf_ext _ _ st (bind_skip _ _ st false eq_refl)).
        rewrite (traceOf_ext _ _ st (rest_after_release false st Hpr His Hapi)).
        destruct (unknownCommand_shows false st) as (_ & C & U & D).
        apply reacts_of_none; assumption. }
    rewrite (traceOf_ext _ _ st (bind_assoc _ _ _ st)).
    rewrite traceOf_bind. unfold log. rewrite outcomeOf_emit, traceOf_emit, stateOf_emit.
    eapply reacts_of_one. apply executor_then_rest; try reflexivity.
    intros h st'. apply rest_after_release; assumption.
  - rewrite (traceOf_ext _ _ st
               (bind_skip _ _ st false
                  (releaseCommand_miss cfg sv q ch rt ts st
                     (requiredGroup_unmatched _ _ _ Hrel)))).
    destruct (Regex.matchAnchored (Patterns.PR_REVIEW_REGEX cfg) q) as [g1 | ] eqn:Hpr.
    + destruct (review_excludes cfg q g1 Hpr) as (His & Hapi).
      destruct (pr_review_params cfg q g1 Hpr) as (o & r & n & w & Hparams).
      unfold prReviewCommand at 1. cbn [negb]. rewrite Hpr, Hparams.
      rewrite (traceOf_ext _ _ st (bind_assoc _ _ _ st)).
      rewrite traceOf_bind. unfold log.
      rewrite outcomeOf_emit, traceOf_emit, stateOf_emit.
      eapply reacts_of_one. apply executor_then_rest; try reflexivity.
      intros h st'. apply rest_after_review; assumption.
    + rewrite (traceOf_ext _ _ st
                 (bind_skip _ _ st false (prReviewCommand_miss cfg sv q ch rt ts st Hpr))).
      destruct (Regex.matchAnchored (Patterns.ISSUE_ANALYSIS_REGEX cfg) q)
        as [g2 | ] eqn:His.
      * pose proof (issue_excludes cfg q g2 His) as Hapi.
        destruct (issue_number_parsed cfg q g2 His) as (n & Hn).
        unfold issueAnalysisCommand at 1. cbn [negb]. rewrite His, Hn.
        set (ictx := issueContext sv u ch rt (Regex.group "workspace_slug" g2)).
        pose proof (issueContext_footprint sv u ch rt
                      (Regex.group "workspace_slug" g2) st) as F.
        fold ictx in F.
        assert (C1 : commandResultsOf (traceOf ictx st) = [])
          by (eapply commandResultsOf_quiet; [ | exact F ]; by_kind).
        assert (U1 : updatesOf (traceOf ictx st) = [])
          by (eapply updatesOf_quiet; [ | exact F ]; by_kind).
        assert (D1 : deletesOf (traceOf ictx st) = [])
          by (eapply collect_none; [ | exact F ]; by_kind).
        rewrite (traceOf_ext _ _ st (bind_assoc _ _ _ st)), traceOf_bind. unfold log.
        rewrite outcomeOf_emit, traceOf_emit, stateOf_emit.
        rewrite traceOf_bind, outcomeOf_tryCatch, traceOf_tryCatch, stateOf_tryCatch.
        rewrite !outcomeOf_bind, !traceOf_bind, !stateOf_bind.
        destruct (outcomeOf ictx st) as [[ws th] | e] eqn:Ho.
        -- rewrite outcomeOf_call, traceOf_call, stateOf_call.
           set (c := IssueAnalysis (issueOwner cfg g2) (issueRepo g2) n (issuePrompt g2)
                       rt ch ts ws th).
           destruct (fst (runCommand sv c (world (stateOf ictx st)))) as [h | e].
           ++ set (st' := {| world := _; thinkingTs := _ |}).
              rewrite (traceOf_ext _ _ st' (rest_after_issue h st' Hapi)).
              destruct (unknownCommand_shows h st') as (_ & C & U & D).
              apply (reacts_of_one _ c (Returned h)).
              shown. rewrite C1, U1, D1, C, U, D. destruct h; repeat split.
           ++ set (st' := {| world := _; thinkingTs := _ |}).
              destruct (contextHandler_shows e st') as (O & C & U & D).
              cbv zeta in O, C, U, D. rewrite O.
              set (st2 := stateOf _ st').
              rewrite (traceOf_ext _ _ st2 (rest_after_issue true st2 Hapi)).
              destruct (unknownCommand_shows true st2) as (_ & C2 & U2 & D2).
              apply (reacts_of_one _ c (Threw e)).
              shown. rewrite C1, U1, D1, C, U, D, C2, U2, D2. repeat split.
        -- destruct (contextHandler_shows e (stateOf ictx st)) as (O & C & U & D).
           cbv zeta in O, C, U, D. rewrite O.
           set (st2 := stateOf _ (stateOf ictx st)).
           rewrite (traceOf_ext _ _ st2 (rest_after_issue true st2 Hapi)).
           destruct (unknownCommand_shows true st2) as (_ & C2 & U2 & D2).
           apply reacts_of_none. shown. rewrite C1, C, C2. reflexivity.
      * rewrite (traceOf_ext _ _ st
                   (bind_skip _ _ st false
                      (issueAnalysisCommand_miss cfg sv q u ch rt ts st His))).
        destruct (requiredGroup "api_query" (Patterns.GENERIC_API_REGEX cfg) q)
          as [api_query | ] eqn:Hapi.
        -- unfold requiredGroup in Hapi. unfold genericApiCommand at 1. cbn [negb].
           destruct (Regex.matchAnchored (Patterns.GENERIC_API_REGEX cfg) q)
             as [g3 | ]; [ | discriminate ].
           destruct (Regex.group "api_query" g3) as [v | ]; [ | discriminate ].
           destruct (Js.truthy v); [ | discriminate ].
           rewrite (traceOf_ext _ _ st (bind_assoc _ _ _ st)).
           rewrite traceOf_bind. unfold log.
           rewrite outcomeOf_emit, traceOf_emit, stateOf_emit.
           eapply reacts_of_one. apply executor_then_rest; reflexivity.
        -- rewrite (traceOf_ext _ _ st
                      (bind_skip _ _ st false
                         (genericApiCommand_miss cfg sv q ch rt ts st Hapi))).
           destruct (unknownCommand_shows false st) as (_ & C & U & D).
           apply reacts_of_none; assumption.
Qed.

End ExecutorResults.

Section ExecutorRuns.

Context {Block World : Type}.
Variable cfg : Config.
Variable fmt : Formatting Block.
Variable sv : Services Block World.

Lemma afterThinking_reacts (event : SlackEvent) (octokit : bool) (ts : string)
    (st : State World) :
  Js.truthy ts = true -> Js.truthy (channel event) = true ->
  Reacts (traceOf (afterThinkingMessage cfg fmt sv event octokit ts) st).
Proof.
  intros Hts Hch. unfold afterThinkingMessage.
  destruct (isPotentialGhCommand cfg (cleanedQueryOf cfg event)).
  - destruct (negb (Js.truthy (githubToken cfg)));
      [ apply reacts_of_none; apply update_shows; assumption | ].
    destruct (negb octokit); [ apply reacts_of_none; apply update_shows; assumption | ].
    rewrite traceOf_bind.
    pose proof (githubCommands_handled cfg sv (cleanedQueryOf cfg event) (user event)
                  (channel event) (replyTargetOf event) ts st) as Hh.
    pose proof (githubCommands_reacts cfg sv (cleanedQueryOf cfg event) (user event)
                  (channel event) (replyTargetOf event) ts Hts Hch st) as R.
    destruct (outcomeOf _ st) as [b | e]; [ | exact R ].
    rewrite (Hh b eq_refl). cbn [negb]. unfold log. rewrite traceOf_emit.
    intros c r Hin. revert Hin. shown. rewrite !app_nil_r. apply R.
  - apply reacts_of_none. eapply commandResultsOf_quiet; [ | apply fallbackPath_footprint ].
    by_kind.
Qed.

(** X10. After the call of an executor the handler touches the thinking message
    only as the result asks: it leaves it alone when the executor says the
    command is handled, updates it to the unknown-command notice when the
    executor says it is not, updates it to the set-up error when the issue
    analysis throws, and leaves it alone when another executor throws. It
    never deletes it. *)
Theorem executor_result_decides_the_notice
    (event : SlackEvent) (octokit : bool) (w w1 : World) (t : string) :
  ThinkingPosted cfg sv event w t w1 ->
  Js.truthy (channel event) = true ->
  let tr := snd (run cfg fmt sv event octokit w) in
  forall c r, In (c, r) (commandResultsOf tr) ->
    updatesOf tr = reactionTo c r /\ deletesOf tr = [].
Proof.
  intros Hposted Hc tr. subst tr.
  rewrite (run_after_thinking cfg fmt sv event octokit w w1 t Hposted). cbn [snd].
  pose proof Hposted as (_ & _ & _ & Ht).
  intros c r. shown.
  apply (afterThinking_reacts event octokit t _ Ht Hc).
Qed.

End ExecutorRuns.


(** ** The routing of the commands *)

Section Routing.

Context {Block World : Type}.
Variable cfg : Config.
Variable fmt : Formatting Block.
Variable sv : Services Block World.

Local Abbreviation Event := (Event Block).
Local Abbreviation Trace := (Trace Block).
Implicit Types st : State World.

(** The routing ends in the unknown command exactly when none of the four
    patterns accepts the text: a text that a pattern accepts always has the
    captures the handler asks for. *)
Lemma firstMatch_unrecognized (q : string) :
  firstMatch cfg q = Unrecognized <-> grammarsAccepting cfg q = 0.
Proof.
  unfold firstMatch, grammarsAccepting, accepts. cbn [filter]. split.
  - destruct (requiredGroup "repo_id" _ q) eqn:Hrel; [ discriminate | ].
    destruct (Regex.matchAnchored (Patterns.RELEASE_REGEX cfg) q) as [g | ] eqn:Mrel.
    { destruct (release_repo_id cfg q g Mrel) as [v Hv]. congruence. }
    destruct (Regex.matchAnchored (Patterns.PR_REVIEW_REGEX cfg) q); [ discriminate | ].
    destruct (Regex.matchAnchored (Patterns.ISSUE_ANALYSIS_REGEX cfg) q); [ discriminate | ].
    destruct (requiredGroup "api_query" _ q) eqn:Hapi; [ discriminate | ].
    destruct (Regex.matchAnchored (Patterns.GENERIC_API_REGEX cfg) q) as [g | ] eqn:Mapi.
    { destruct (api_query_captured cfg q g Mapi) as [v Hv]. congruence. }
    reflexivity.
  - destruct (Regex.matchAnchored (Patterns.RELEASE_REGEX cfg) q) eqn:Mrel;
      [ discriminate | ].
    destruct (Regex.matchAnchored (Patterns.PR_REVIEW_REGEX cfg) q) eqn:Mpr;
      [ discriminate | ].
    destruct (Regex.matchAnchored (Patterns.ISSUE_ANALYSIS_REGEX cfg) q) eqn:Mis;
      [ discriminate | ].
    destruct (Regex.matchAnchored (Patterns.GENERIC_API_REGEX cfg) q) eqn:Mapi;
      [ discriminate | ].
    intros _.
    rewrite (requiredGroup_unmatched _ _ _ Mrel), (requiredGroup_unmatched _ _ _ Mapi).
    reflexivity.
Qed.

(** What step 4 does once the thinking message is posted and the token and the
    client are there. *)
Lemma run_routed (event : SlackEvent) (w w1 : World) (t : string) :
  isPotentialGhCommand cfg (cleanedQueryOf cfg event) = true ->
  ThinkingPosted cfg sv event w t w1 ->
  Js.truthy (githubToken cfg) = true ->
  Js.truthy (channel event) = true ->
  routedAs cfg (channel event) (replyTargetOf event) t
    (firstMatch cfg (cleanedQueryOf cfg event)) (snd (run cfg fmt sv event true w)).
Proof.
  intros Hcmd Hposted Htoken Hch.
  pose proof Hposted as (_ & _ & _ & Ht).
  rewrite (run_after_thinking cfg fmt sv event true w w1 t Hposted). cbn [snd].
  unfold afterThinkingMessage. rewrite Hcmd, Htoken. cbn [negb].
  set (st1 := {| world := w1; thinkingTs := t |}).
  set (q := cleanedQueryOf cfg event) in *.
  pose proof (githubCommands_routed cfg sv q (user event) (channel event)
                (replyTargetOf event) t Ht Hch st1) as Hrouted.
  pose proof (githubCommands_handled cfg sv q (user event) (channel event)
                (replyTargetOf event) t st1) as Hhandled.
  rewrite traceOf_bind.
  set (tg := traceOf (githubCommands cfg sv q (user event) (channel event)
                        (replyTargetOf event) t) st1) in *.
  assert (Hsame : forall tl : Trace,
             commandsOf tl = [] -> updatesOf tl = [] ->
             routedAs cfg (channel event) (replyTargetOf event) t (firstMatch cfg q)
               (Log Info "[Msg Handler] Start" None
                :: EvPostMessage (thinkingPost event) (Returned (Some t)) :: tg ++ tl)).
  { intros tl Hc Hu. revert Hrouted. unfold routedAs.
    cbn [commandsOf updatesOf]. rewrite commandsOf_app, updatesOf_app, Hc, Hu, !app_nil_r.
    auto. }
  destruct (outcomeOf _ st1) as [b | e] eqn:Ho.
  - rewrite (Hhandled b eq_refl). cbn [negb]. apply Hsame; reflexivity.
  - rewrite <- (app_nil_r tg). apply Hsame; reflexivity.
Qed.

(** X24. For a cleaned message that passes the prefix test of line 135 the run
    never asks the LLM and never classifies; and once the thinking message is
    posted, with the GitHub token and client there, the trace is that of the
    first grammar that matches in the order release, PR review, issue
    analysis, generic API: its executor is the only executor to run, with
    the PR or issue number as the double that [parseInt] returns;
    ill-formed parameters are answered with the format notice and no executor
    runs; a failed set-up of the issue context is answered with the set-up
    error; a text that matches no grammar is answered with the
    unknown-command notice, once, and no executor runs. *)
Theorem commands_are_routed_in_priority_order
    (event : SlackEvent) (octokit : bool) (w : World) :
  isPotentialGhCommand cfg (cleanedQueryOf cfg event) = true ->
  let tr := snd (run cfg fmt sv event octokit w) in
  never isLlmQuery tr /\ never isDetectIntent tr
  /\ forall (t : string) (w1 : World),
      ThinkingPosted cfg sv event w t w1 ->
      Js.truthy (githubToken cfg) = true -> octokit = true ->
      Js.truthy (channel event) = true ->
      routedAs cfg (channel event) (replyTargetOf event) t
        (firstMatch cfg (cleanedQueryOf cfg event)) tr.
Proof.
  intros Hcmd tr.
  assert (Hfp : forallb (ofKinds commandKinds) tr = true).
  { subst tr. rewrite run_trace. apply handler_command_footprint. exact Hcmd. }
  split; [ eapply ofKinds_never; [ | exact Hfp ]; by_kind | ].
  split; [ eapply ofKinds_never; [ | exact Hfp ]; by_kind | ].
  intros t w1 Hposted Htoken -> Hch. subst tr.
  apply (run_routed event w w1 t Hcmd Hposted Htoken Hch).
Qed.

(** The pattern behind a match of the routing. *)
Lemma firstMatch_review (q : string) (groups : Regex.Captures) :
  firstMatch cfg q = MatchedPrReview groups ->
  Regex.matchAnchored (Patterns.PR_REVIEW_REGEX cfg) q = Some groups.
Proof.
  unfold firstMatch. destruct (requiredGroup "repo_id" _ q); [ discriminate | ].
  destruct (Regex.matchAnchored (Patterns.PR_REVIEW_REGEX cfg) q); [ congruence | ].
  destruct (Regex.matchAnchored (Patterns.ISSUE_ANALYSIS_REGEX cfg) q); [ discriminate | ].
  destruct (requiredGroup "api_query" _ q); discriminate.
Qed.

Lemma firstMatch_issue (q : string) (groups : Regex.Captures) :
  firstMatch cfg q = MatchedIssueAnalysis groups ->
  Regex.matchAnchored (Patterns.ISSUE_ANALYSIS_REGEX cfg) q = Some groups.
Proof.
  unfold firstMatch. destruct (requiredGroup "repo_id" _ q); [ discriminate | ].
  destruct (Regex.matchAnchored (Patterns.PR_REVIEW_REGEX cfg) q); [ discriminate | ].
  destruct (Regex.matchAnchored (Patterns.ISSUE_ANALYSIS_REGEX cfg) q); [ congruence | ].
  destruct (requiredGroup "api_query" _ q); discriminate.
Qed.

(** X8. Once the thinking message is posted, with the GitHub token and client
    there, a text that one of the four patterns accepts always reaches an
    executor: the run calls exactly one executor, or, for the issue command
    only, none and the thinking message becomes the set-up error. A text
    that no pattern accepts calls no executor and gets the unknown-command
    notice. *)
Theorem accepted_command_reaches_its_executor
    (event : SlackEvent) (octokit : bool) (w w1 : World) (t : string) :
  ThinkingPosted cfg sv event w t w1 ->
  isPotentialGhCommand cfg (cleanedQueryOf cfg event) = true ->
  Js.truthy (githubToken cfg) = true -> octokit = true ->
  Js.truthy (channel event) = true ->
  let tr := snd (run cfg fmt sv event octokit w) in
  let q := cleanedQueryOf cfg event in
  (grammarsAccepting cfg q = 0 ->
     commandsOf tr = [] /\ updatesOf tr = [MsgUnknownCommand])
  /\ (grammarsAccepting cfg q <> 0 ->
       (exists c, commandsOf tr = [c])
       \/ (accepts (Patterns.ISSUE_ANALYSIS_REGEX cfg) q = true
           /\ commandsOf tr = [] /\ exists msg, updatesOf tr = [MsgContextError msg])).
Proof.
  intros Hposted Hcmd Htoken -> Hch tr q.
  pose proof (run_routed event w w1 t Hcmd Hposted Htoken Hch) as R.
  fold tr q in R. pose proof (firstMatch_unrecognized q) as [U1 U2].
  destruct (firstMatch cfg q) as [repo_id | groups | groups | api_query | ] eqn:M;
    cbn [routedAs] in R.
  - split; [ intros H0; specialize (U2 H0); discriminate | ]. intros _. left. eauto.
  - split; [ intros H0; specialize (U2 H0); discriminate | ]. intros _. left.
    destruct (pr_review_params cfg q groups (firstMatch_review q groups M))
      as (o & r & n & ws & E).
    rewrite E in R. eauto.
  - split; [ intros H0; specialize (U2 H0); discriminate | ]. intros _.
    pose proof (firstMatch_issue q groups M) as Hm.
    destruct (issue_number_parsed cfg q groups Hm) as (n & E). rewrite E in R.
    destruct R as [(llmWs & llmThread & R) | (R1 & R2)]; [ left; eauto | right ].
    split; [ unfold accepts; rewrite Hm; reflexivity | ]. split; assumption.
  - split; [ intros H0; specialize (U2 H0); discriminate | ]. intros _. left. eauto.
  - split; [ intros _; exact R | ]. intros H0. contradiction H0. apply U1. reflexivity.
Qed.

End Routing.


(** * The claims on the examples *)

Module Examples.
Import Scenario.

Local Abbreviation handled cfg script txt table :=
  (run cfg formatting (services script) (said txt) true table).

(** The thinking message of the examples is posted. *)
Lemma posted_in_example (cfg : Config) (script : Script) (txt : string) (tb : Table) :
  Js.truthy (cleanedQueryOf cfg (said txt)) = true ->
  isDeleteCommand (cleanedQueryOf cfg (said txt)) = false ->
  posted script (thinkingPost (said txt)) = Returned (Some "1700000000.000200") ->
  ThinkingPosted cfg (services script) (said txt) tb "1700000000.000200" tb.
Proof.
  intros Hq Hd Hp. repeat split; try assumption.
  cbn [services chat_postMessage]. rewrite Hp. reflexivity.
Defined.

(** C1: the command prefix is configured as "GH>" and the message is
    "GH> release app". The text begins with the prefix and the release
    pattern, which is case-insensitive, accepts it; but the test of line 135
    compares the lower-cased text with the prefix as configured, so no
    executor runs and the message is classified and sent to the LLM. With the
    prefix "gh>" the same message runs the release command. *)
Theorem C1_prefix_in_capitals_is_sent_to_the_llm :
  let cfg := Failures.configCapitals in
  let txt := "GH> release app" in
  let tr := snd (handled cfg calm txt mapped) in
  Js.startsWith (cleanedQueryOf cfg (said txt)) (COMMAND_PREFIX cfg) = true
  /\ firstMatch cfg (cleanedQueryOf cfg (said txt)) = MatchedRelease "app"
  /\ commandsOf tr = []
  /\ In (EvDetectIntent txt (Returned noIntent)) tr
  /\ queriesOf tr = [("general", "thread-1", llmInput cfg txt)]
  /\ commandsOf (snd (handled config calm txt mapped))
     = [ReleaseInfo "app" "1700000000.000100" "1700000000.000200" "C1CHAN"].
Proof.
  cbv zeta. repeat split.
  vm_compute. repeat first [ left; reflexivity | right ].
Qed.

(** C2: the conversation is mapped to workspace "general" with thread
    "thread-1"; an issue command names workspace "other". The executor gets
    "other" with "thread-1", no thread is created in "other", and the table
    still maps the conversation to "general". *)
Theorem C2_issue_command_keeps_thread_of_other_workspace :
  let txt := "gh> analyze issue #12 #other why is it broken" in
  let tr := snd (handled config calm txt mapped) in
  lookup "C1CHAN" "1700000000.000100" mapped
  = Some {| anythingllm_workspace_slug := "general"; anythingllm_thread_slug := "thread-1" |}
  /\ commandsOf tr
     = [IssueAnalysis "acme" "backlog" 12 (Some "why is it broken") "1700000000.000100"
          "C1CHAN" "1700000000.000200" "other" "thread-1"]
  /\ never isCreateThread tr /\ never isStoreMapping tr
  /\ world (stateOf (handleSlackMessageEventInternal config formatting (services calm)
                       (said txt) true) {| world := mapped; thinkingTs := "" |})
     = mapped.
Proof. cbv zeta. repeat split. Qed.

(** C3, witness: the conversation is mapped to "general" and the message
    resolves to "general". *)
Lemma C3_witness :
  let tr := snd (handled config calm "hello" mapped) in
  (exists r, In (EvQueryLlm "general" "thread-1" (llmInput config "hello") r) tr)
  /\ never isCreateThread tr /\ never isStoreMapping tr.
Proof.
  exact (C3_same_workspace_reuses_thread config formatting (services calm)
           (said "hello") true mapped mapped mapped mapped mapped "1700000000.000200"
           noIntent "general"
           {| anythingllm_workspace_slug := "general"; anythingllm_thread_slug := "thread-1" |}
           (posted_in_example config calm "hello" mapped eq_refl eq_refl eq_refl)
           eq_refl eq_refl eq_refl eq_refl eq_refl eq_refl eq_refl).
Defined.

(** The classifier names an intent that is routed: the context object of
    line 262 cannot be built, the stub of the intent is not reached, and the
    thinking message becomes the error notice. *)
Lemma routed_intent_ends_in_error_notice :
  let tr := snd (handled config (withDetected (Returned faqIntent) calm) "hello" mapped) in
  routingApplies config faqIntent = true
  /\ updatesOf tr = [MsgOops "intentResult is not defined"]
  /\ never isLlmQuery tr
  /\ releases "C1CHAN" "1700000000.000200" tr = 1.
Proof. cbv zeta. repeat split. Qed.

(** C4, witness: a plain question that the LLM answers. *)
Lemma C4_witness :
  releases "C1CHAN" "1700000000.000200" (snd (handled config calm "hello" mapped)) = 1.
Proof.
  exact (C4_thinking_message_is_released_once config formatting (services calm)
           (said "hello") true mapped mapped "1700000000.000200"
           (posted_in_example config calm "hello" mapped eq_refl eq_refl eq_refl)
           eq_refl eq_refl).
Defined.

(** C5, witness: the classifier times out. *)
Lemma C5_witness :
  let script := withDetected (Threw timeout) calm in
  let tr := snd (handled config script "hello" mapped) in
  fst (handled config script "hello" mapped) = Returned tt
  /\ In (Log Err "[Msg Handler Error - Intent/LLM Path]" (Some timeout)) tr
  /\ never isDetermineWorkspace tr /\ never isGetMapping tr
  /\ never isStoreMapping tr /\ never isCreateThread tr /\ never isLlmQuery tr
  /\ updatesOf tr = [MsgOops "classifier timed out"].
Proof.
  cbv zeta.
  destruct (C5_classifier_failure_ends_in_error_notice config formatting
              (services (withDetected (Threw timeout) calm)) (said "hello") true
              mapped mapped mapped "1700000000.000200" timeout
              (posted_in_example config (withDetected (Threw timeout) calm) "hello" mapped
                 eq_refl eq_refl eq_refl)
              eq_refl eq_refl) as (H1 & H2 & H3 & H4 & H5 & H6 & H7 & H8).
  exact (conj H1 (conj H2 (conj H3 (conj H4 (conj H5 (conj H6 (conj H7 (H8 eq_refl)))))))).
Defined.

(** C5, counterexample: the classifier fails and the LLM is not asked; the
    user gets the error notice instead of a reply. *)
Lemma C5_counterexample :
  let tr := snd (handled config (withDetected (Threw timeout) calm) "hello" mapped) in
  In (EvDetectIntent "hello" (Threw timeout)) tr
  /\ never isLlmQuery tr
  /\ updatesOf tr = [MsgOops "classifier timed out"].
Proof.
  cbv zeta. split; [ | split; reflexivity ].
  vm_compute. repeat first [ left; reflexivity | right ].
Qed.

(** C6, counterexample: the threshold is 11 and the trimmed reply "hello
    world" is 11 long, which does not exceed it; the buttons are posted. *)
Lemma C6_counterexample_at_threshold :
  let tr := snd (handled config calm "hello" mapped) in
  trimmedReplyOf tr = Some "hello world"
  /\ (MIN_SUBSTANTIVE_RESPONSE_LENGTH config <? String.length "hello world") = false
  /\ feedbackPosted tr = true.
Proof. cbv zeta. repeat split. Qed.

(** C7, witness: the message is the mention and blanks. *)
Lemma C7_witness :
  cleanedQueryOf config (said "  <@U0BOT>   ") = ""
  /\ handled config calm "  <@U0BOT>   " []
     = (Returned tt,
        [Log Info "[Msg Handler] Start" None;
         Log Info "[Msg Handler] Ignoring empty message after mention removal." None]).
Proof.
  split; [ reflexivity | ].
  exact (C7_empty_message_is_ignored config formatting (services calm)
           (said "  <@U0BOT>   ") true [] eq_refl).
Defined.


(** C9, counterexample: the update of the thinking message fails with
    message_not_found; the error is caught and nothing logs it, and no other
    message is sent. *)
Lemma C9_counterexample_message_not_found :
  let tr := snd (handled configNoToken (withUpdated (Threw notFound) calm) "gh> frobnicate" []) in
  In (Caught CatchThinkingMessage notFound) tr
  /\ forallb (fun ev => negb (logsError notFound ev)) tr = true
  /\ updatesOf tr = [MsgGithubDisabled]
  /\ everyCaughtLogged (fun _ _ => false) tr = false.
Proof.
  cbv zeta. split; [ | repeat split ].
  vm_compute. repeat first [ left; reflexivity | right ].
Qed.

(** C10, witness: upper case and words after the command. *)
Lemma C10_witness :
  handled config calm "<@U0BOT> #Delete_Last_Message please" []
  = (Returned tt,
     [Log Info "[Msg Handler] Start" None;
      Log Info "[Msg Handler] Delete command detected." None;
      EvDeleteLast "C1CHAN" "1700000000.000100" "U0BOT" (Returned tt);
      Log Info "[Msg Handler] Delete handled." None]).
Proof.
  exact (C10_delete_command_is_a_prefix_test config formatting (services calm)
           (said "<@U0BOT> #Delete_Last_Message please") true [] eq_refl).
Defined.

End Examples.


(** * The further properties on the examples *)

Module FurtherExamples.
Import Scenario.
Import Failures.

Local Abbreviation handled cfg script txt table :=
  (run cfg formatting (services script) (said txt) true table).

Local Abbreviation posted_ok := Examples.posted_in_example.

(** The classifier times out: the LLM is not asked. *)
Lemma run_without_query_witness :
  let script := withDetected (Threw timeout) calm in
  let tr := snd (handled config script "hello" mapped) in
  exists e,
    fst (handled config script "hello" mapped) = Returned tt
    /\ updatesOf tr = [MsgOops (message e)]
    /\ In (Log Err "[Msg Handler Error - Intent/LLM Path]" (Some e)) tr
    /\ postsOf tr = [thinkingPost (said "hello")]
    /\ deletesOf tr = [].
Proof.
  exact (run_without_query_ends_in_the_error_notice config formatting
           (services (withDetected (Threw timeout) calm)) (said "hello") true
           mapped mapped "1700000000.000200"
           (posted_ok config (withDetected (Threw timeout) calm) "hello" mapped
              eq_refl eq_refl eq_refl)
           eq_refl eq_refl eq_refl).
Defined.

(** The LLM backend throws. *)
Lemma failed_query_witness :
  let script := withReply (Threw timeout) calm in
  let tr := snd (handled config script "hello" mapped) in
  fst (handled config script "hello" mapped) = Returned tt
  /\ updatesOf tr = [MsgThinkingIn "general"; MsgOops (message timeout)]
  /\ queriesOf tr = [("general", "thread-1", llmInput config "hello")]
  /\ postsOf tr = [thinkingPost (said "hello")]
  /\ deletesOf tr = [].
Proof.
  refine (failed_query_is_reported_in_the_thinking_message config formatting
            (services (withReply (Threw timeout) calm)) (said "hello") true
            mapped mapped "1700000000.000200" "general" "thread-1"
            (llmInput config "hello") timeout
            (posted_ok config (withReply (Threw timeout) calm) "hello" mapped
               eq_refl eq_refl eq_refl)
            eq_refl eq_refl _).
  vm_compute. repeat first [ left; reflexivity | right ].
Defined.

(** The LLM answers "hello world". *)
Lemma deleted_before_the_reply_witness :
  let tr := snd (handled config calm "hello" mapped) in
  exists workspace thread r pre d post,
    tr = pre ++ EvChatDelete "C1CHAN" "1700000000.000200" d :: post
    /\ In (EvQueryLlm workspace thread (llmInput config "hello") (Returned r)) pre
    /\ postsOf pre = [thinkingPost (said "hello")]
    /\ queriesOf tr = [(workspace, thread, llmInput config "hello")]
    /\ updatesOf tr = [MsgThinkingIn workspace]
    /\ deletesOf tr = [("C1CHAN", "1700000000.000200")].
Proof.
  exact (thinking_message_is_deleted_before_the_reply config formatting (services calm)
           (said "hello") true mapped mapped "1700000000.000200" "hello world"
           (posted_ok config calm "hello" mapped eq_refl eq_refl eq_refl)
           eq_refl eq_refl eq_refl).
Defined.

(** The reply has no segments and Slack refuses to post it: the error notice
    is a post of its own. *)
Lemma late_error_witness :
  let script := withPosted onlyThinkingPosts calm in
  let tr := snd (run config formattingNoSegments (services script) (said "hello") true mapped) in
  exists r,
    In (EvPostMessage {| pm_channel := "C1CHAN"; pm_thread_ts := "1700000000.000100";
                         pm_text := MsgOops (message boom); pm_blocks := None |} r) tr.
Proof.
  refine (late_error_is_posted_as_a_new_message config formattingNoSegments
            (services (withPosted onlyThinkingPosts calm)) (said "hello") true
            mapped mapped "1700000000.000200" "hello world" boom _ eq_refl eq_refl
            eq_refl _).
  - repeat split.
  - vm_compute. repeat first [ left; reflexivity | right ].
Defined.

(** The conversation is mapped to "general" and the message resolves to
    "other". *)
Lemma new_thread_witness :
  let script := withWorkspace (Returned "other") calm in
  let tr := snd (handled config script "hello" mapped) in
  createsOf tr = ["other"]
  /\ storesOf tr = [("C1CHAN", "1700000000.000100", "other", "thread-new")]
  /\ queriesOf tr = [("other", "thread-new", llmInput config "hello")]
  /\ exists pre post,
       tr = pre ++ EvStoreMapping "C1CHAN" "1700000000.000100" "other" "thread-new"
                     (Returned tt) :: post
       /\ never isLlmQuery pre.
Proof.
  refine (new_workspace_gets_a_new_thread config formatting
            (services (withWorkspace (Returned "other") calm)) (said "hello") true
            mapped mapped mapped mapped mapped mapped
            (upsert "C1CHAN" "1700000000.000100"
               {| anythingllm_workspace_slug := "other";
                  anythingllm_thread_slug := "thread-new" |} mapped)
            "1700000000.000200" noIntent "other" "thread-new"
            (Some {| anythingllm_workspace_slug := "general";
                     anythingllm_thread_slug := "thread-1" |})
            (posted_ok config (withWorkspace (Returned "other") calm) "hello" mapped
               eq_refl eq_refl eq_refl)
            eq_refl eq_refl eq_refl eq_refl eq_refl eq_refl _ eq_refl eq_refl eq_refl).
  intros m E. injection E as <-. discriminate.
Defined.

(** The feedback buttons of the answer "hello world". *)
Lemma feedback_witness :
  exists workspace thread input reply,
    In (EvQueryLlm workspace thread input (Returned reply))
       (snd (handled config calm "hello" mapped))
    /\ "feedback_1700000000.000100_general"
       = ("feedback_" ++ "1700000000.000100" ++ "_" ++ workspace)%string
    /\ "C1CHAN" = "C1CHAN"
    /\ "1700000000.000100" = "1700000000.000100".
Proof.
  refine (feedback_names_the_message_and_the_workspace config formatting (services calm)
            (said "hello") true mapped
            {| pm_channel := "C1CHAN"; pm_thread_ts := "1700000000.000100";
               pm_text := MsgFeedbackPrompt;
               pm_blocks := Some (FeedbackBlock "feedback_1700000000.000100_general"
                                    [("bad", "feedback_bad"); ("ok", "feedback_ok");
                                     ("great", "feedback_great")]) |}
            (Returned (Some "1700000000.000200"))
            "feedback_1700000000.000100_general"
            [("bad", "feedback_bad"); ("ok", "feedback_ok"); ("great", "feedback_great")]
            _ eq_refl).
  vm_compute. repeat first [ left; reflexivity | right ].
Defined.

(** The LLM answers with blanks. *)
Lemma empty_reply_witness :
  let script := withReply (Returned (Some "   ")) calm in
  let tr := snd (handled config script "hello" mapped) in
  replyPostsOf tr = []
  /\ feedbackPosted tr = false
  /\ exists r, In (EvPostMessage {| pm_channel := "C1CHAN";
                                    pm_thread_ts := "1700000000.000100";
                                    pm_text := MsgEmptyResponse; pm_blocks := None |} r) tr.
Proof.
  exact (empty_reply_gets_the_empty_response_notice config formatting
           (services (withReply (Returned (Some "   ")) calm)) (said "hello") true mapped
           eq_refl).
Defined.

(** Slack refuses the thinking message. *)
Lemma failed_thinking_post_witness :
  handled config (withPosted (fun _ => Threw boom) calm) "hello" mapped
  = (Returned tt,
     [Log Info "[Msg Handler] Start" None;
      EvPostMessage (thinkingPost (said "hello")) (Threw boom);
      Caught CatchInitialPost boom;
      Log Err "[Msg Handler] Failed post initial thinking message:" (Some boom)]).
Proof.
  refine (failed_thinking_post_ends_the_run config formatting
            (services (withPosted (fun _ => Threw boom) calm)) (said "hello") true mapped
            eq_refl eq_refl _).
  intros t E. discriminate E.
Defined.

Lemma event_without_text_witness :
  run config formatting (services calm) withoutText true mapped
  = (Returned tt,
     [Log Info "[Msg Handler] Start" None;
      Log Info "[Msg Handler] Ignoring empty message after mention removal." None]).
Proof.
  exact (event_without_text_is_ignored config formatting (services calm) withoutText
           true mapped eq_refl).
Defined.

(** A release command without the GitHub token. *)
Lemma commands_need_the_token_witness :
  let tr := snd (handled configNoToken calm "gh> release app" []) in
  fst (handled configNoToken calm "gh> release app" []) = Returned tt
  /\ updatesOf tr = [MsgGithubDisabled]
  /\ forallb (ofKinds [KLog; KCaught; KPostMessage; KChatUpdate]) tr = true.
Proof.
  exact (commands_need_the_github_token_and_client configNoToken formatting (services calm)
           (said "gh> release app") true [] [] "1700000000.000200"
           (posted_ok configNoToken calm "gh> release app" [] eq_refl eq_refl eq_refl)
           eq_refl eq_refl eq_refl).
Defined.

(** The prefix in capitals in the text, in lower case in the configuration. *)
Lemma accepted_commands_witness :
  isPotentialGhCommand config "GH> Release app" = true.
Proof.
  refine (accepted_commands_pass_the_prefix_test config "GH> Release app" eq_refl
            eq_refl _).
  vm_compute. discriminate.
Defined.

Lemma prefix_with_capitals_witness :
  isPotentialGhCommand configCapitals
    (cleanedQueryOf configCapitals (said "GH> release app")) = false
  /\ never isCommand (snd (handled configCapitals calm "GH> release app" [])).
Proof.
  refine (prefix_with_capitals_disables_commands configCapitals formatting (services calm)
            (said "GH> release app") true [] _).
  vm_compute. discriminate.
Defined.

(** The executor of the release command throws. *)
Lemma only_unguarded_calls_throw_witness :
  endsInThrow boom (snd (handled config (withExecuted (Threw boom) calm) "gh> release app" [])).
Proof.
  exact (only_unguarded_calls_throw config formatting
           (services (withExecuted (Threw boom) calm)) (said "gh> release app") true []
           boom eq_refl).
Defined.

(** The LLM backend throws and Slack refuses every post but the first. *)
Lemma fallback_path_never_throws_witness :
  fst (handled config (withPosted onlyThinkingPosts (withReply (Threw timeout) calm))
         "hello" mapped) = Returned tt.
Proof.
  exact (fallback_path_never_throws config formatting
           (services (withPosted onlyThinkingPosts (withReply (Threw timeout) calm)))
           (said "hello") true mapped eq_refl eq_refl).
Defined.

(** The executor of the release command says the command is not handled. *)
Lemma executor_result_witness :
  let tr := snd (handled config (withExecuted (Returned false) calm) "gh> release app" []) in
  updatesOf tr = [MsgUnknownCommand] /\ deletesOf tr = [].
Proof.
  refine (executor_result_decides_the_notice config formatting
            (services (withExecuted (Returned false) calm)) (said "gh> release app") true
            [] [] "1700000000.000200"
            (posted_ok config (withExecuted (Returned false) calm) "gh> release app" []
               eq_refl eq_refl eq_refl)
            eq_refl
            (ReleaseInfo "app" "1700000000.000100" "1700000000.000200" "C1CHAN")
            (Returned false) _).
  vm_compute. left. reflexivity.
Defined.

(** "gh> frobnicate" passes the prefix test and matches no grammar; it is
    answered with the unknown-command notice and nothing else. *)
Lemma routing_witness :
  let tr := snd (handled config calm "gh> frobnicate" []) in
  isPotentialGhCommand config "gh> frobnicate" = true
  /\ never isLlmQuery tr /\ never isDetectIntent tr
  /\ commandsOf tr = [] /\ updatesOf tr = [MsgUnknownCommand].
Proof.
  cbv zeta.
  destruct (commands_are_routed_in_priority_order config formatting (services calm)
              (said "gh> frobnicate") true [] eq_refl) as (Hq & Hd & Hrouted).
  split; [ reflexivity | ]. split; [ exact Hq | ]. split; [ exact Hd | ].
  exact (Hrouted "1700000000.000200" []
           (posted_ok config calm "gh> frobnicate" [] eq_refl eq_refl eq_refl)
           eq_refl eq_refl eq_refl).
Defined.

(** A PR review: the pattern accepts the text and the executor is called, with
    a number that is rounded to a double. *)
Lemma accepted_command_witness :
  let txt := "gh> review pr acme/app#9007199254740993 #general" in
  exists c, commandsOf (snd (handled config calm txt [])) = [c].
Proof.
  cbv zeta.
  destruct (accepted_command_reaches_its_executor config formatting (services calm)
              (said "gh> review pr acme/app#9007199254740993 #general") true [] []
              "1700000000.000200"
              (posted_ok config calm "gh> review pr acme/app#9007199254740993 #general" []
                 eq_refl eq_refl eq_refl)
              eq_refl eq_refl eq_refl eq_refl) as [_ Hacc].
  destruct (Hacc ltac:(vm_compute; discriminate)) as [Hc | (_ & Hc & _)];
    [ exact Hc | discriminate Hc ].
Defined.

(** The number of a PR above 2^53 reaches the executor rounded. *)
Lemma pr_number_is_a_double :
  commandsOf (snd (handled config calm "gh> review pr acme/app#9007199254740993 #general" []))
  = [PrReview "acme" "app" 9007199254740992 "general" "1700000000.000100" "C1CHAN"
       "1700000000.000200"].
Proof. reflexivity. Qed.

End FurtherExamples.
